(** * playwrightBDD: the utilities of the BDD scaffold, embedded and verified

    The development follows the repository's files:
    - [JS]: the JavaScript values the utilities compute on;
    - [TestDataManager]: [deepMerge] and the insurance-customer generator
      (src/utils/testDataManager.ts);
    - [ConfigManager]: the environment-variable configuration and its
      validator (src/utils/configManager.ts);
    - [CucumberReport]: [calculateSummary] over the JSON report
      (src/utils/cucumber-report.ts);
    - [Runtime]: asynchronous methods as state-and-exception computations
      over a world whose calls into the automation library may reject;
    - [BrowserManager]: the browser-handle singleton
      (src/utils/browserManager.ts);
    - [Hooks]: the feature-level [Before] hook and the summary loop of
      [AfterAll] (the hooks module);
    - [Generators]: the vehicle, health, policy and identifier generators
      and the store of src/utils/testDataManager.ts;
    - [ConfigReaders]: the report and number readers of
      src/utils/configManager.ts;
    - [WaitHelper]: [retryAsync] (the wait helpers);
    - [HooksAfter]: the [After] hook's screenshot name and the verdict of
      [AfterAll];
    - [ReportSpec], [CustomerSpec], [HookSpec], [ShapeSpec], [KeySpec],
      [HelperSpec], [NameSpec]: the words in which the properties are
      stated, as definitions; [Samples] and [MoreSamples]: concrete inputs;
    then the properties, file by file. *)

From Stdlib Require Import ZArith List String Ascii Bool Lia PeanoNat.
From Stdlib Require Import DecimalString.
From Stdlib Require DecimalPos DecimalZ.
Import ListNotations.

Open Scope string_scope.

(* ================================================================== *)
(** ** JavaScript values *)
(* ================================================================== *)

Module JS.

#[local] Set Warnings "-register-all".

(** The three builtin prototype objects that reading [__proto__] from a
    value below can reach. *)
Inductive builtin : Type :=
| ObjectPrototype
| ArrayPrototype
| DatePrototype.

(** A value is a primitive or an object.

    - [JObj ps] is an ordinary object whose prototype is
      [Object.prototype], as an object literal or [JSON.parse] gives: its
      own enumerable properties [ps], in the order JavaScript lists keys
      (array indices in ascending order, then the other keys in the order
      of their creation), keys pairwise distinct.  [__proto__] may be an
      own key: [JSON.parse] creates it as a data property.
    - [JArr xs] is an array with no hole.
    - [JObjOf proto ps] is an ordinary object whose prototype has been
      replaced by [proto], which is [null] or an object.
    - [JBuiltin b] is a builtin prototype object.
    - A [Date] is an object with no enumerable property.

    A string is the sequence of bytes of its UTF-8 encoding.  Functions
    are not values here: the members that the builtin prototypes give,
    [__proto__] and the [length] of arrays apart, are all functions, and
    reading one gives [undefined]; the code reads such a member only in
    [deepMerge], which asks whether it is a non-null object, as false of
    a function as of [undefined]. *)
Inductive value : Type :=
| JUndefined
| JNull
| JBool (b : bool)
| JNum (n : Z)
| JStr (s : string)
| JDate (ms : Z)
| JObj (ps : list (string * value))
| JArr (xs : list value)
| JObjOf (proto : value) (ps : list (string * value))
| JBuiltin (b : builtin).

Definition props : Type := list (string * value).

(** [typeof v] *)
Definition typeof (v : value) : string :=
  match v with
  | JUndefined => "undefined"
  | JNull => "object"
  | JBool _ => "boolean"
  | JNum _ => "number"
  | JStr _ => "string"
  | JDate _ => "object"
  | JObj _ => "object"
  | JArr _ => "object"
  | JObjOf _ _ => "object"
  | JBuiltin _ => "object"
  end.

(** [v !== undefined] and [v !== null] *)
Definition not_undefined (v : value) : bool :=
  match v with JUndefined => false | _ => true end.

Definition not_null (v : value) : bool :=
  match v with JNull => false | _ => true end.

(** [Array.isArray(v)] *)
Definition isArray (v : value) : bool :=
  match v with JArr _ => true | _ => false end.

(** [String(n)] and [`${n}`] for an integer [n]: its decimal numeral. *)
Definition Number_toString (n : Z) : string :=
  NilEmpty.string_of_int (Z.to_int n).

(** The key of the index [i] of an array. *)
Definition indexKey (i : nat) : string := Number_toString (Z.of_nat i).

(** The elements of an array from index [i] on, as properties. *)
Fixpoint indexed (i : nat) (xs : list value) : props :=
  match xs with
  | [] => []
  | x :: rest => (indexKey i, x) :: indexed (S i) rest
  end.

(** Own enumerable properties: what [{...v}] copies.  Every spread in the
    code is of an object. *)
Definition own_props (v : value) : props :=
  match v with
  | JObj ps => ps
  | JArr xs => indexed 0 xs
  | JObjOf _ ps => ps
  | _ => []
  end.

Fixpoint lookup (ps : props) (key : string) : option value :=
  match ps with
  | [] => None
  | (k, v) :: rest => if String.eqb k key then Some v else lookup rest key
  end.

Definition keys (ps : props) : list string := map fst ps.

(** *** Reading a property

    What the search for [key] along the prototype chain meets first: a
    data property, the accessor [__proto__] of [Object.prototype], or
    nothing. *)
Inductive Found : Type :=
| Data (x : value)
| ProtoAccessor
| Missing.

Definition inObjectPrototype (key : string) : Found :=
  if String.eqb key "__proto__" then ProtoAccessor else Missing.

Fixpoint find (v : value) (key : string) : Found :=
  match v with
  | JObj ps =>
      match lookup ps key with
      | Some x => Data x
      | None => inObjectPrototype key
      end
  | JArr xs =>
      match lookup (indexed 0 xs) key with
      | Some x => Data x
      | None =>
          if String.eqb key "length"
          then Data (JNum (Z.of_nat (List.length xs)))
          else inObjectPrototype key
      end
  | JDate _ => inObjectPrototype key
  | JObjOf proto ps =>
      match lookup ps key with
      | Some x => Data x
      | None => find proto key
      end
  | JBuiltin ArrayPrototype =>
      if String.eqb key "length" then Data (JNum 0)
      else inObjectPrototype key
  | JBuiltin _ => inObjectPrototype key
  | _ => Missing
  end.

(** [Object.getPrototypeOf(v)] for an object [v]. *)
Definition prototypeOf (v : value) : value :=
  match v with
  | JObj _ => JBuiltin ObjectPrototype
  | JArr _ => JBuiltin ArrayPrototype
  | JDate _ => JBuiltin DatePrototype
  | JObjOf proto _ => proto
  | JBuiltin ObjectPrototype => JNull
  | JBuiltin _ => JBuiltin ObjectPrototype
  | _ => JUndefined
  end.

(** [v[key]] for an object [v]: the data property found, the prototype
    of [v] when the accessor [__proto__] is reached, [undefined]
    otherwise. *)
Definition get (v : value) (key : string) : value :=
  match find v key with
  | Data x => x
  | ProtoAccessor => prototypeOf v
  | Missing => JUndefined
  end.

(** *** Writing a property

    [arrayIndex key]: the index that [key] writes, when it is the
    canonical numeral of an integer from 0 to 2^32 - 2. *)
Definition arrayIndex (key : string) : option Z :=
  match NilEmpty.uint_of_string key with
  | Some d =>
      let n := Z.of_uint d in
      if String.eqb (Number_toString n) key && (n <? 2 ^ 32 - 1)%Z
      then Some n else None
  | None => None
  end.

(** A new key [key] is listed before the existing key [k]: an array
    index comes before a larger index and before every other key; another
    key comes last. *)
Definition listedBefore (key k : string) : bool :=
  match arrayIndex key, arrayIndex k with
  | Some n, Some m => (n <? m)%Z
  | Some _, None => true
  | None, _ => false
  end.

Fixpoint insert (ps : props) (key : string) (v : value) : props :=
  match ps with
  | [] => [(key, v)]
  | (k, x) :: rest =>
      if listedBefore key k then (key, v) :: (k, x) :: rest
      else (k, x) :: insert rest key v
  end.

Fixpoint update (ps : props) (key : string) (v : value) : props :=
  match ps with
  | [] => []
  | (k, x) :: rest =>
      if String.eqb k key then (k, v) :: rest else (k, x) :: update rest key v
  end.

(** The own data property [key] of an object is given the value [v]: an
    existing property keeps its place, a new one takes the place its key
    has in the order of keys. *)
Definition define (ps : props) (key : string) (v : value) : props :=
  if existsb (String.eqb key) (keys ps) then update ps key v
  else insert ps key v.

(** [map.set(key, v)] on the entries of a [Map], which are kept in
    insertion order whatever the key: an existing entry is updated in
    place, a new one is appended. *)
Fixpoint set (ps : props) (key : string) (v : value) : props :=
  match ps with
  | [] => [(key, v)]
  | (k, x) :: rest =>
      if String.eqb k key then (k, v) :: rest else (k, x) :: set rest key v
  end.

(** The test [typeof v === 'object' && v !== null] of [deepMerge]. *)
Definition is_object (v : value) : bool :=
  String.eqb (typeof v) "object" && not_null v.


(** An ordinary object under construction: its prototype and its own
    properties. *)
Record Ordinary : Type := {
  prototype : value;
  properties : props
}.

Definition toValue (o : Ordinary) : value :=
  match prototype o with
  | JBuiltin ObjectPrototype => JObj (properties o)
  | proto => JObjOf proto (properties o)
  end.

(** [{ ...v }] *)
Definition spreadOf (v : value) : Ordinary :=
  {| prototype := JBuiltin ObjectPrototype; properties := own_props v |}.

Definition findIn (o : Ordinary) (key : string) : Found :=
  match lookup (properties o) key with
  | Some x => Data x
  | None => find (prototype o) key
  end.

(** [o[key] = v] on an ordinary object.  When the search for [key] ends
    at the accessor [__proto__] of [Object.prototype], its setter runs:
    an object or [null] becomes the prototype of [o], any other value is
    dropped, and no own property is made.  In every other case the own
    data property [key] gets the value. *)
Definition assign (o : Ordinary) (key : string) (v : value) : Ordinary :=
  match findIn o key with
  | ProtoAccessor =>
      if is_object v || negb (not_null v)
      then {| prototype := v; properties := properties o |}
      else o
  | _ => {| prototype := prototype o;
            properties := define (properties o) key v |}
  end.

(** *** Enumeration

    [for (const key in source)] visits the own enumerable properties of
    [source] in the order of its keys, then those of its prototype, and
    so on up the chain, passing over a key it has met on the way. *)
Section ForIn.
Context {A : Type} (visit : string -> value -> A -> A).

Fixpoint visitProps (seen : list string) (entries : props) (acc : A) : A :=
  match entries with
  | [] => acc
  | (key, v) :: rest =>
      visitProps seen rest
        (if existsb (String.eqb key) seen then acc else visit key v acc)
  end.

Fixpoint visitElements (seen : list string) (i : nat) (xs : list value)
    (acc : A) : A :=
  match xs with
  | [] => acc
  | v :: rest =>
      visitElements seen (S i) rest
        (if existsb (String.eqb (indexKey i)) seen then acc
         else visit (indexKey i) v acc)
  end.

Fixpoint forInFrom (seen : list string) (source : value) (acc : A) : A :=
  match source with
  | JObj ps => visitProps seen ps acc
  | JArr xs => visitElements seen 0 xs acc
  | JObjOf proto ps =>
      forInFrom (seen ++ keys ps)%list proto (visitProps seen ps acc)
  | _ => acc
  end.

Definition forIn (source : value) (acc : A) : A := forInFrom [] source acc.

End ForIn.

(** The properties that [for (const key in source)] visits, each with
    [source[key]], in the order of the visit. *)
Definition unseen (seen : list string) (entry : string * value) : bool :=
  negb (existsb (String.eqb (fst entry)) seen).

Fixpoint entriesFrom (seen : list string) (source : value) : props :=
  match source with
  | JObj ps => filter (unseen seen) ps
  | JArr xs => filter (unseen seen) (indexed 0 xs)
  | JObjOf proto ps =>
      (filter (unseen seen) ps ++ entriesFrom (seen ++ keys ps) proto)%list
  | _ => []
  end.

Definition entries (source : value) : props := entriesFrom [] source.

(** [s.startsWith(p)] *)
Definition startsWith (s p : string) : bool := String.prefix p s.

(** [xs.join(sep)] on strings. *)
Fixpoint join (sep : string) (xs : list string) : string :=
  match xs with
  | [] => ""
  | [x] => x
  | x :: rest => x ++ sep ++ join sep rest
  end.

(** How a call ends: it returns a value or throws an [Error]. *)
Record Error : Type := { message : string }.

Inductive Completion (A : Type) : Type :=
| Normal (a : A)
| Thrown (e : Error).
Arguments Normal {A} a.
Arguments Thrown {A} e.

End JS.

(* ================================================================== *)
(** ** src/utils/testDataManager.ts: deepMerge *)
(* ================================================================== *)

Module TestDataManager.
Import JS.

(** The body of the [for (const key in source)] loop of [deepMerge] for
    one property: [sv] is [source[key]] and [merged] is
    [deepMerge(target[key], source[key])]. *)
Definition mergeStep (target : value) (key : string) (sv merged : value)
    (result : Ordinary) : Ordinary :=
  if not_undefined sv then
    if String.eqb (typeof sv) "object" && not_null sv
       && String.eqb (typeof (get target key)) "object"
       && not_null (get target key)
    then assign result key merged
    else assign result key sv
  else result.

(** [deepMerge(target, source)].  [result] starts as the spread of
    [target] and the loop walks the properties of [source].  Every call
    in the code has an object for [target]: an object literal at the top,
    a non-null object below.  [source] is the overrides record at the
    top and a non-null object below; a [Date] has no property to walk
    and gives back the spread of [target]. *)
Fixpoint deepMerge (target source : value) {struct source} : value :=
  toValue
    (forIn
       (fun key sv result =>
          mergeStep target key sv (deepMerge (get target key) sv) result)
       source (spreadOf target)).

(** The loop as a left fold over the properties visited. *)
Definition mergeLoop (target : value) (visited : props) (result : Ordinary)
  : Ordinary :=
  fold_left
    (fun result kv =>
       mergeStep target (fst kv) (snd kv)
         (deepMerge (get target (fst kv)) (snd kv)) result)
    visited result.

(** *** The fake-data library

    The generators draw from [faker].  One record holds the raw draws of
    one call of [generateInsuranceCustomer], a field per call into the
    library: strings as the library returns them, integers and array
    picks as the raw random number the library reduces to the requested
    range. *)
Record Faker : Type := {
  person_firstName : string;
  person_lastName : string;
  date_birthdate : Z;
  internet_email : string;
  phone_number : string;
  ssn_area : Z;
  ssn_group : Z;
  ssn_serial : Z;
  pick_maritalStatus : nat;
  pick_gender : nat;
  location_streetAddress : string;
  location_city : string;
  location_state : string;
  location_zipCode : string;
  company_name : string;
  person_jobTitle : string;
  company_buzzNoun : string;
  draw_employmentIncome : Z;
  pick_employmentType : nat;
  draw_yearsAtJob : Z;
  draw_creditScore : Z;
  draw_financialIncome : Z;
  draw_monthlyDebt : Z;
  finance_accountNumber : string;
  finance_routingNumber : string
}.

(** [faker.number.int({ min, max })]: an integer between [min] and [max],
    both included. *)
Definition faker_number_int (raw min max : Z) : Z :=
  (min + raw mod (max - min + 1))%Z.

(** [faker.helpers.arrayElement(xs)]: one element of a non-empty array. *)
Definition faker_arrayElement (raw : nat) (xs : list string) : string :=
  nth (raw mod List.length xs) xs "".

(** The calendar the [Date] methods read: the current instant, the year
    of an instant in local time, and how an instant is written in the
    local time zone. *)
Record Calendar : Type := {
  now : Z;
  getFullYear : Z -> Z;
  dateToString : Z -> string
}.

(** [generateSSN()] *)
Definition generateSSN (f : Faker) : string :=
  Number_toString (faker_number_int (ssn_area f) 100 999) ++ "-" ++
  Number_toString (faker_number_int (ssn_group f) 10 99) ++ "-" ++
  Number_toString (faker_number_int (ssn_serial f) 1000 9999).

(** The object literal [customer] of [generateInsuranceCustomer], with
    [fullAddress] still empty. *)
Definition customerLiteral (cal : Calendar) (f : Faker) : value :=
  let firstName := person_firstName f in
  let lastName := person_lastName f in
  let dateOfBirth := date_birthdate f in
  let age := (getFullYear cal (now cal) - getFullYear cal dateOfBirth)%Z in
  JObj
    [ ("personalInfo", JObj
        [ ("firstName", JStr firstName);
          ("lastName", JStr lastName);
          ("fullName", JStr (firstName ++ " " ++ lastName));
          ("email", JStr (internet_email f));
          ("phone", JStr (phone_number f));
          ("dateOfBirth", JDate dateOfBirth);
          ("age", JNum age);
          ("ssn", JStr (generateSSN f));
          ("maritalStatus", JStr (faker_arrayElement (pick_maritalStatus f)
             ["single"; "married"; "divorced"; "widowed"]));
          ("gender", JStr (faker_arrayElement (pick_gender f)
             ["male"; "female"; "other"])) ]);
      ("address", JObj
        [ ("street", JStr (location_streetAddress f));
          ("city", JStr (location_city f));
          ("state", JStr (location_state f));
          ("zipCode", JStr (location_zipCode f));
          ("country", JStr "USA");
          ("fullAddress", JStr "") ]);
      ("employment", JObj
        [ ("company", JStr (company_name f));
          ("position", JStr (person_jobTitle f));
          ("industry", JStr (company_buzzNoun f));
          ("annualIncome",
             JNum (faker_number_int (draw_employmentIncome f) 25000 200000));
          ("employmentType", JStr (faker_arrayElement (pick_employmentType f)
             ["full-time"; "part-time"; "contractor"; "unemployed";
              "retired"]));
          ("yearsAtJob", JNum (faker_number_int (draw_yearsAtJob f) 0 20)) ]);
      ("financials", JObj
        [ ("creditScore", JNum (faker_number_int (draw_creditScore f) 300 850));
          ("annualIncome",
             JNum (faker_number_int (draw_financialIncome f) 25000 200000));
          ("monthlyDebt", JNum (faker_number_int (draw_monthlyDebt f) 0 3000));
          ("bankAccount", JStr (finance_accountNumber f));
          ("routingNumber", JStr (finance_routingNumber f)) ]) ].

(** Template-literal interpolation [`${v}`].  The code interpolates
    strings.  An array is written as its elements joined by commas,
    [null] and [undefined] among them as nothing; an object, when it has
    no [toString] or [valueOf] of its own and its prototype chain ends in
    [Object.prototype], as "[object Object]". *)
Fixpoint interpolate (cal : Calendar) (v : value) : string :=
  match v with
  | JStr s => s
  | JNum n => Number_toString n
  | JUndefined => "undefined"
  | JNull => "null"
  | JBool true => "true"
  | JBool false => "false"
  | JDate ms => dateToString cal ms
  | JArr xs =>
      join ","
        (map (fun x => match x with
                       | JUndefined => ""
                       | JNull => ""
                       | _ => interpolate cal x
                       end) xs)
  | JObj _ => "[object Object]"
  | JObjOf _ _ => "[object Object]"
  | JBuiltin _ => "[object Object]"
  end.

(** [`${a.street}, ${a.city}, ${a.state} ${a.zipCode}`] *)
Definition formatAddress (cal : Calendar) (a : value) : string :=
  interpolate cal (get a "street") ++ ", " ++
  interpolate cal (get a "city") ++ ", " ++
  interpolate cal (get a "state") ++ " " ++
  interpolate cal (get a "zipCode").

(** [o.k1.k2 = v] for an object [o] whose [k1] is an object. *)
Definition assignNested (o : value) (k1 k2 : string) (v : value) : value :=
  JObj (define (own_props o) k1
          (JObj (define (own_props (get o k1)) k2 v))).

(** [customer] after the statement that sets [customer.address.fullAddress]:
    the target handed to [deepMerge]. *)
Definition customerBeforeMerge (cal : Calendar) (f : Faker) : value :=
  let customer := customerLiteral cal f in
  assignNested customer "address" "fullAddress"
    (JStr (formatAddress cal (get customer "address"))).

(** [generateInsuranceCustomer(overrides = {})] *)
Definition generateInsuranceCustomer (cal : Calendar) (f : Faker)
    (overrides : value) : value :=
  deepMerge (customerBeforeMerge cal f) overrides.

(** The default argument [{}]. *)
Definition noOverrides : value := JObj [].

(** An SSN-shaped string: three digits, hyphen, two digits, hyphen, four
    digits. *)
Definition isDigit (c : ascii) : bool :=
  (48 <=? nat_of_ascii c)%nat && (nat_of_ascii c <=? 57)%nat.

Definition isHyphen (c : ascii) : bool := Ascii.eqb c "-"%char.

Definition ssnShaped (s : string) : bool :=
  match list_ascii_of_string s with
  | [a1; a2; a3; h1; g1; g2; h2; s1; s2; s3; s4] =>
      isDigit a1 && isDigit a2 && isDigit a3 && isHyphen h1 &&
      isDigit g1 && isDigit g2 && isHyphen h2 &&
      isDigit s1 && isDigit s2 && isDigit s3 && isDigit s4
  | _ => false
  end.

End TestDataManager.

(* ================================================================== *)
(** ** src/utils/configManager.ts *)
(* ================================================================== *)

Module ConfigManager.
Import JS.

(** A number as [parseInt] gives it: [NaN], a double that is an integer,
    or an infinity.  [Num 0] stands for both zeros, which nothing here
    tells apart. *)
Inductive number : Type :=
| NaN
| Num (z : Z)
| Infinity (negative : bool).

(** [a < b] for an integer [b]: false as soon as [a] is [NaN]. *)
Definition lt (a : number) (b : Z) : bool :=
  match a with
  | NaN => false
  | Num z => (z <? b)%Z
  | Infinity negative => negative
  end.

(** The Number value of an integer: the integer itself up to 2^53, the
    nearest double beyond, the even one of two as near, and an infinity
    past the largest double. *)
Definition roundToDouble (z : Z) : number :=
  let a := Z.abs z in
  if (a <? 2 ^ 53)%Z then Num z
  else
    let e := (Z.log2 a - 52)%Z in
    let q := (a / 2 ^ e)%Z in
    let r := (a mod 2 ^ e)%Z in
    let q' :=
      if (2 ^ (e - 1) <? r)%Z || ((2 ^ (e - 1) =? r)%Z && Z.odd q)
      then (q + 1)%Z else q in
    if (2 ^ 1024 <=? q' * 2 ^ e)%Z then Infinity (z <? 0)%Z
    else Num (Z.sgn z * (q' * 2 ^ e))%Z.

(** White space and line terminators of one byte: TAB, LF, VT, FF, CR and
    the space. *)
Definition isWhiteSpace (c : ascii) : bool :=
  let n := nat_of_ascii c in
  (n =? 9)%nat || (n =? 10)%nat || (n =? 11)%nat || (n =? 12)%nat ||
  (n =? 13)%nat || (n =? 32)%nat.

(** Of two bytes: U+00A0. *)
Definition isWhiteSpace2 (c1 c2 : ascii) : bool :=
  (nat_of_ascii c1 =? 194)%nat && (nat_of_ascii c2 =? 160)%nat.

(** Of three bytes: U+1680, U+2000 to U+200A, U+2028, U+2029, U+202F,
    U+205F, U+3000 and U+FEFF. *)
Definition isWhiteSpace3 (c1 c2 c3 : ascii) : bool :=
  let n1 := nat_of_ascii c1 in
  let n2 := nat_of_ascii c2 in
  let n3 := nat_of_ascii c3 in
  ((n1 =? 225)%nat && (n2 =? 154)%nat && (n3 =? 128)%nat)
  || ((n1 =? 226)%nat && (n2 =? 128)%nat
      && (((128 <=? n3)%nat && (n3 <=? 138)%nat)
          || (n3 =? 168)%nat || (n3 =? 169)%nat || (n3 =? 175)%nat))
  || ((n1 =? 226)%nat && (n2 =? 129)%nat && (n3 =? 159)%nat)
  || ((n1 =? 227)%nat && (n2 =? 128)%nat && (n3 =? 128)%nat)
  || ((n1 =? 239)%nat && (n2 =? 187)%nat && (n3 =? 191)%nat).

(** The input of [parseInt] after its leading white space. *)
Fixpoint trimStart (s : string) : string :=
  match s with
  | String c1 rest1 =>
      if isWhiteSpace c1 then trimStart rest1
      else
        match rest1 with
        | String c2 rest2 =>
            if isWhiteSpace2 c1 c2 then trimStart rest2
            else
              match rest2 with
              | String c3 rest3 =>
                  if isWhiteSpace3 c1 c2 c3 then trimStart rest3 else s
              | EmptyString => s
              end
        | EmptyString => s
        end
  | EmptyString => EmptyString
  end.

(** The value of a character as a digit: 0-9, then a-z and A-Z from 10. *)
Definition digitValue (c : ascii) : option Z :=
  let n := nat_of_ascii c in
  if (48 <=? n)%nat && (n <=? 57)%nat then Some (Z.of_nat (n - 48))
  else if (97 <=? n)%nat && (n <=? 122)%nat then Some (Z.of_nat (n - 87))
  else if (65 <=? n)%nat && (n <=? 90)%nat then Some (Z.of_nat (n - 55))
  else None.

(** The longest prefix of digits of the radix, read as an integer; [None]
    when that prefix is empty. *)
Fixpoint parseDigits (radix : Z) (s : string) (acc : option Z) : option Z :=
  match s with
  | String c rest =>
      match digitValue c with
      | Some d =>
          if (d <? radix)%Z then
            parseDigits radix rest
              (Some (radix * match acc with Some a => a | None => 0 end + d)%Z)
          else acc
      | None => acc
      end
  | EmptyString => acc
  end.

(** [parseInt(s)] with no radix: leading white space, an optional sign,
    an optional [0x] prefix, then digits; the integer read is returned as
    a Number. *)
Definition parseInt (input : string) : number :=
  let s := trimStart input in
  let '(sign, s1) :=
    match s with
    | String "-"%char rest => ((-1)%Z, rest)
    | String "+"%char rest => (1%Z, rest)
    | _ => (1%Z, s)
    end in
  let '(radix, s2) :=
    match s1 with
    | String "0"%char (String "x"%char rest) => (16%Z, rest)
    | String "0"%char (String "X"%char rest) => (16%Z, rest)
    | _ => (10%Z, s1)
    end in
  match parseDigits radix s2 None with
  | Some z => roundToDouble (sign * z)
  | None => NaN
  end.

(** [process.env]: each variable is unset or holds a string. *)
Definition Env : Type := string -> option string.

(** [process.env.X || fallback]: the fallback replaces an unset variable
    and the empty string. *)
Definition orElse (v : option string) (fallback : string) : string :=
  match v with
  | Some EmptyString => fallback
  | Some s => s
  | None => fallback
  end.

(** [process.env.X !== 'false'] and [process.env.X === 'true'] *)
Definition strictNe (v : option string) (lit : string) : bool :=
  match v with
  | Some s => negb (String.eqb s lit)
  | None => true
  end.

Definition strictEq (v : option string) (lit : string) : bool :=
  match v with
  | Some s => String.eqb s lit
  | None => false
  end.

Record Viewport : Type := {
  width : number;
  height : number
}.

Record BrowserConfig : Type := {
  browser : string;
  headless : bool;
  viewport : Viewport;
  timeout : number;
  slowMo : number;
  recordVideo : bool;
  recordTrace : bool
}.

Record TestConfig : Type := {
  baseURL : string;
  testTimeout : number;
  retries : number;
  parallel : number;
  tags : string
}.

Definition getBrowserConfig (env : Env) : BrowserConfig :=
  {| browser := orElse (env "BROWSER") "chromium";
     headless := strictNe (env "HEADLESS") "false";
     viewport :=
       {| width := parseInt (orElse (env "VIEWPORT_WIDTH") "1920");
          height := parseInt (orElse (env "VIEWPORT_HEIGHT") "1080") |};
     timeout := parseInt (orElse (env "TIMEOUT") "60000");
     slowMo := parseInt (orElse (env "SLOW_MO") "0");
     recordVideo := strictEq (env "RECORD_VIDEO") "true";
     recordTrace := strictEq (env "RECORD_TRACE") "true" |}.

Definition getTestConfig (env : Env) : TestConfig :=
  {| baseURL := orElse (env "BASE_URL") "http://localhost:3000";
     testTimeout := parseInt (orElse (env "TIMEOUT") "60000");
     retries := parseInt (orElse (env "RETRIES") "0");
     parallel := parseInt (orElse (env "PARALLEL") "1");
     tags := orElse (env "TAGS") "" |}.

Definition isDebugMode (env : Env) : bool := strictEq (env "DEBUG") "true".

Definition getEnvVar (env : Env) (key fallback : string) : string :=
  orElse (env key) fallback.

(** [xs.includes(x)] on strings. *)
Definition includes (xs : list string) (x : string) : bool :=
  existsb (String.eqb x) xs.

Definition validBrowsers : list string :=
  ["chromium"; "firefox"; "webkit"; "chrome"].

Definition timeoutWarning : string :=
  "Warning: Timeout is less than 1 second, this might cause issues".

(** [validateConfig()]: the lines written with [console.warn] and the way
    the call ends. *)
Definition validateConfig (env : Env) : list string * Completion unit :=
  let browserConfig := getBrowserConfig env in
  if negb (includes validBrowsers (browser browserConfig)) then
    ([], Thrown {| message :=
        "Invalid browser: " ++ browser browserConfig ++
        ". Valid options: " ++ join ", " validBrowsers |})
  else
    let testConfig := getTestConfig env in
    if negb (startsWith (baseURL testConfig) "http") then
      ([], Thrown {| message :=
          "Invalid BASE_URL: " ++ baseURL testConfig ++
          ". Must start with http:// or https://" |})
    else
      let warnings :=
        if lt (timeout browserConfig) 1000 then [timeoutWarning] else [] in
      if lt (width (viewport browserConfig)) 320
         || lt (height (viewport browserConfig)) 240 then
        (warnings, Thrown {| message :=
           "Viewport dimensions are too small. Minimum 320x240 required" |})
      else (warnings, Normal tt).

End ConfigManager.

(* ================================================================== *)
(** ** src/utils/cucumber-report.ts: calculateSummary *)
(* ================================================================== *)

Module CucumberReport.
Import JS.

(** *** The JSON report

    The report is the array the BDD runner writes: features, their
    elements, their steps.  [elements], [steps] and [result] may be
    missing; a status that is missing or not a string behaves as a string
    that no [case] matches. *)
Record StepResult : Type := {
  status : string;
  duration : option Z
}.

Record Step : Type := {
  result : option StepResult
}.

Record Element : Type := {
  type : string;
  steps : option (list Step)
}.

Record Feature : Type := {
  elements : option (list Element)
}.

(** *** Numbers of the success rate

    Counters are integers, exact as doubles.  The quotient and the product
    of the success rate are IEEE 754 binary64 operations, rounded to
    nearest, ties to even.  A positive double is written [(m, e)] for
    [m * 2^e] with [2^52 <= m <= 2^53]; zero is [(0, 0)]. *)
Definition double : Type := (Z * Z)%type.

Local Open Scope Z_scope.

(** The double nearest to the positive fraction [num / den]. *)
Definition roundNearestEven (num den : Z) : double :=
  let l := Z.log2 num - Z.log2 den in
  let floorAt (e : Z) : Z :=
    (num * 2 ^ Z.max (- e) 0) / (den * 2 ^ Z.max e 0) in
  let e := if 2 ^ 52 <=? floorAt (l - 52) then l - 52 else l - 53 in
  let n := num * 2 ^ Z.max (- e) 0 in
  let d := den * 2 ^ Z.max e 0 in
  let q := n / d in
  let r := n mod d in
  if (d <? 2 * r) || ((d =? 2 * r) && Z.odd q) then (q + 1, e) else (q, e).

(** [a / b] on counters, and [x * k] for a positive integer [k]. *)
Definition divide (a b : Z) : double :=
  if a =? 0 then (0, 0) else roundNearestEven a b.

Definition times (x : double) (k : Z) : double :=
  let '(m, e) := x in
  if m =? 0 then (0, 0)
  else roundNearestEven (m * k * 2 ^ Z.max e 0) (2 ^ Z.max (- e) 0).

(** The digits of [toFixed(2)]: the integer [n] for which [n / 100] is
    nearest to [x], the larger one when two are as near. *)
Definition hundredths (x : double) : Z :=
  let '(m, e) := x in
  (2 * 100 * m * 2 ^ Z.max e 0 + 2 ^ Z.max (- e) 0) / (2 * 2 ^ Z.max (- e) 0).

(** [x.toFixed(2)] for [0 <= x < 10^21]. *)
Definition toFixed2 (x : double) : string :=
  let n := hundredths x in
  Number_toString (n / 100) ++ "." ++
  Number_toString (n mod 100 / 10) ++ Number_toString (n mod 10).

Local Close Scope Z_scope.

(** *** The summary *)
Record FeatureTally : Type := {
  ftotal : nat;
  fpassed : nat;
  ffailed : nat
}.

Record Tally : Type := {
  total : nat;
  passed : nat;
  failed : nat;
  skipped : nat
}.

(** The object [calculateSummary] returns; of [duration] only [total] is
    kept, [formatted] being a rendering of it that the counts do not
    read.  The step tally is [steps_], the name [steps] being the field
    of an element. *)
Record Summary : Type := {
  features : FeatureTally;
  scenarios : Tally;
  steps_ : Tally;
  durationTotal : Z;
  successRate : string
}.

(** The variables the loops of [calculateSummary] update: [summary],
    [totalDuration] and the three flags. *)
Record Vars : Type := {
  summary : Summary;
  totalDuration : Z;
  featureHasFailed : bool;
  scenarioHasFailed : bool;
  scenarioHasSkipped : bool
}.

Definition incTotal (t : Tally) : Tally :=
  {| total := S (total t); passed := passed t; failed := failed t;
     skipped := skipped t |}.
Definition incPassed (t : Tally) : Tally :=
  {| total := total t; passed := S (passed t); failed := failed t;
     skipped := skipped t |}.
Definition incFailed (t : Tally) : Tally :=
  {| total := total t; passed := passed t; failed := S (failed t);
     skipped := skipped t |}.
Definition incSkipped (t : Tally) : Tally :=
  {| total := total t; passed := passed t; failed := failed t;
     skipped := S (skipped t) |}.

Definition incFTotal (t : FeatureTally) : FeatureTally :=
  {| ftotal := S (ftotal t); fpassed := fpassed t; ffailed := ffailed t |}.
Definition incFPassed (t : FeatureTally) : FeatureTally :=
  {| ftotal := ftotal t; fpassed := S (fpassed t); ffailed := ffailed t |}.
Definition incFFailed (t : FeatureTally) : FeatureTally :=
  {| ftotal := ftotal t; fpassed := fpassed t; ffailed := S (ffailed t) |}.

Definition onFeatures (f : FeatureTally -> FeatureTally) (v : Vars) : Vars :=
  let s := summary v in
  {| summary := {| features := f (features s); scenarios := scenarios s;
                   steps_ := steps_ s; durationTotal := durationTotal s;
                   successRate := successRate s |};
     totalDuration := totalDuration v;
     featureHasFailed := featureHasFailed v;
     scenarioHasFailed := scenarioHasFailed v;
     scenarioHasSkipped := scenarioHasSkipped v |}.

Definition onScenarios (f : Tally -> Tally) (v : Vars) : Vars :=
  let s := summary v in
  {| summary := {| features := features s; scenarios := f (scenarios s);
                   steps_ := steps_ s; durationTotal := durationTotal s;
                   successRate := successRate s |};
     totalDuration := totalDuration v;
     featureHasFailed := featureHasFailed v;
     scenarioHasFailed := scenarioHasFailed v;
     scenarioHasSkipped := scenarioHasSkipped v |}.

Definition onSteps (f : Tally -> Tally) (v : Vars) : Vars :=
  let s := summary v in
  {| summary := {| features := features s; scenarios := scenarios s;
                   steps_ := f (steps_ s); durationTotal := durationTotal s;
                   successRate := successRate s |};
     totalDuration := totalDuration v;
     featureHasFailed := featureHasFailed v;
     scenarioHasFailed := scenarioHasFailed v;
     scenarioHasSkipped := scenarioHasSkipped v |}.

Definition addDuration (d : Z) (v : Vars) : Vars :=
  {| summary := summary v;
     totalDuration := (totalDuration v + d)%Z;
     featureHasFailed := featureHasFailed v;
     scenarioHasFailed := scenarioHasFailed v;
     scenarioHasSkipped := scenarioHasSkipped v |}.

Definition setFeatureHasFailed (b : bool) (v : Vars) : Vars :=
  {| summary := summary v;
     totalDuration := totalDuration v;
     featureHasFailed := b;
     scenarioHasFailed := scenarioHasFailed v;
     scenarioHasSkipped := scenarioHasSkipped v |}.

Definition setScenarioHasFailed (b : bool) (v : Vars) : Vars :=
  {| summary := summary v;
     totalDuration := totalDuration v;
     featureHasFailed := featureHasFailed v;
     scenarioHasFailed := b;
     scenarioHasSkipped := scenarioHasSkipped v |}.

Definition setScenarioHasSkipped (b : bool) (v : Vars) : Vars :=
  {| summary := summary v;
     totalDuration := totalDuration v;
     featureHasFailed := featureHasFailed v;
     scenarioHasFailed := scenarioHasFailed v;
     scenarioHasSkipped := b |}.

(** The callback of [scenario.steps.forEach]. *)
Definition stepBody (v : Vars) (step : Step) : Vars :=
  let v := onSteps incTotal v in
  match result step with
  | Some res =>
      let v :=
        match duration res with
        | Some d => if (d =? 0)%Z then v else addDuration d v
        | None => v
        end in
      if String.eqb (status res) "passed" then onSteps incPassed v
      else if String.eqb (status res) "failed" then
        setFeatureHasFailed true
          (setScenarioHasFailed true (onSteps incFailed v))
      else if String.eqb (status res) "skipped" then
        setScenarioHasSkipped true (onSteps incSkipped v)
      else v
  | None => v
  end.

(** The callback of [feature.elements.forEach]. *)
Definition elementBody (v : Vars) (scenario : Element) : Vars :=
  if String.eqb (type scenario) "scenario" then
    let v := onScenarios incTotal v in
    let v := setScenarioHasSkipped false (setScenarioHasFailed false v) in
    let v :=
      match steps scenario with
      | Some ss => fold_left stepBody ss v
      | None => v
      end in
    if scenarioHasFailed v then onScenarios incFailed v
    else if scenarioHasSkipped v then onScenarios incSkipped v
    else onScenarios incPassed v
  else v.

(** The callback of [report.forEach]. *)
Definition featureBody (v : Vars) (feature : Feature) : Vars :=
  let v := onFeatures incFTotal v in
  let v := setFeatureHasFailed false v in
  let v :=
    match elements feature with
    | Some es => fold_left elementBody es v
    | None => v
    end in
  if featureHasFailed v then onFeatures incFFailed v
  else onFeatures incFPassed v.

Definition initialSummary : Summary :=
  {| features := {| ftotal := 0; fpassed := 0; ffailed := 0 |};
     scenarios := {| total := 0; passed := 0; failed := 0; skipped := 0 |};
     steps_ := {| total := 0; passed := 0; failed := 0; skipped := 0 |};
     durationTotal := 0;
     successRate := "0.00" |}.

Definition initialVars : Vars :=
  {| summary := initialSummary;
     totalDuration := 0;
     featureHasFailed := false;
     scenarioHasFailed := false;
     scenarioHasSkipped := false |}.

(** [((passed / total) * 100).toFixed(2)] *)
Definition percentage (p t : nat) : string :=
  toFixed2 (times (divide (Z.of_nat p) (Z.of_nat t)) 100).

(** [calculateSummary(report)] *)
Definition calculateSummary (report : list Feature) : Summary :=
  let v := fold_left featureBody report initialVars in
  let s := summary v in
  {| features := features s;
     scenarios := scenarios s;
     steps_ := steps_ s;
     durationTotal := totalDuration v;
     successRate :=
       if (0 <? total (scenarios s))%nat
       then percentage (passed (scenarios s)) (total (scenarios s))
       else successRate s |}.

End CucumberReport.

(* ================================================================== *)
(** ** Asynchronous code: state, exceptions, the automation library *)
(* ================================================================== *)

Module Runtime.
Import JS.

(** An [async] method run to completion: it reads and updates the state
    and returns or throws.  What was written before a [throw] stays
    written. *)
Definition M (S A : Type) : Type := S -> Completion A * S.

Definition ret {S A : Type} (a : A) : M S A := fun s => (Normal a, s).

Definition bind {S A B : Type} (m : M S A) (k : A -> M S B) : M S B :=
  fun s =>
    match m s with
    | (Normal a, s') => k a s'
    | (Thrown e, s') => (Thrown e, s')
    end.

Definition throw {S A : Type} (e : Error) : M S A := fun s => (Thrown e, s).

(** [try { body } catch (error) { handler }] *)
Definition tryCatch {S A : Type} (body : M S A) (handler : Error -> M S A)
  : M S A :=
  fun s =>
    match body s with
    | (Normal a, s') => (Normal a, s')
    | (Thrown e, s') => handler e s'
    end.

Definition gets {S A : Type} (f : S -> A) : M S A := fun s => (Normal (f s), s).

Definition modify {S : Type} (f : S -> S) : M S unit :=
  fun s => (Normal tt, f s).

(** [if (c) { m }] *)
Definition when {S : Type} (c : bool) (m : M S unit) : M S unit :=
  if c then m else ret tt.

Declare Scope js_scope.
Delimit Scope js_scope with js.
Notation "x <- m ;; k" := (bind m (fun x => k))
  (at level 61, m at next level, right associativity) : js_scope.
Notation "m ;; k" := (bind m (fun _ => k))
  (at level 61, right associativity) : js_scope.

(** *** The automation library, seen from the caller

    Each awaited call into the library resolves or rejects.  The world
    holds a script, the outcome of the n-th call for every n, the number
    of calls made so far, and the history of browser processes: launched,
    closed. *)
Inductive Outcome : Type :=
| Resolves
| Rejects (e : Error).

Inductive BrowserType : Type := chromium | firefox | webkit.

Inductive Event : Type :=
| Launched (kind : BrowserType) (b : nat)
| Closed (b : nat).

Record World : Type := {
  env : ConfigManager.Env;
  script : nat -> Outcome;
  calls : nat;
  nextHandle : nat;
  history : list Event;      (* newest first *)
  console : list string;     (* newest first *)
  isoTime : string           (* [new Date().toISOString()] *)
}.

Definition nextOutcome (w : World) : Outcome := script w (calls w).

Definition consume (w : World) : World :=
  {| env := env w; script := script w; calls := S (calls w);
     nextHandle := nextHandle w; history := history w;
     console := console w; isoTime := isoTime w |}.

Definition record (ev : Event) (w : World) : World :=
  {| env := env w; script := script w; calls := calls w;
     nextHandle := nextHandle w; history := ev :: history w;
     console := console w; isoTime := isoTime w |}.

Definition allocate (w : World) : nat * World :=
  (nextHandle w,
   {| env := env w; script := script w; calls := calls w;
      nextHandle := S (nextHandle w); history := history w;
      console := console w; isoTime := isoTime w |}).

Definition print (line : string) (w : World) : World :=
  {| env := env w; script := script w; calls := calls w;
     nextHandle := nextHandle w; history := history w;
     console := line :: console w; isoTime := isoTime w |}.

(** What the library does when a call resolves. *)
Definition launchEffect (kind : BrowserType) (w : World) : nat * World :=
  let '(b, w') := allocate w in (b, record (Launched kind b) w').

Definition closeBrowserEffect (b : nat) (w : World) : unit * World :=
  (tt, record (Closed b) w).

Definition noEffect (w : World) : unit * World := (tt, w).

(** The browsers running after a history, and the largest number of
    browsers that ran together during it. *)
Fixpoint live (h : list Event) : list nat :=
  match h with
  | [] => []
  | Launched _ b :: past => b :: live past
  | Closed b :: past => List.remove Nat.eq_dec b (live past)
  end.

Fixpoint peakLive (h : list Event) : nat :=
  match h with
  | [] => 0
  | _ :: past => Nat.max (List.length (live h)) (peakLive past)
  end.

(** Every call into the library resolves. *)
Definition allResolve (w : World) : Prop :=
  forall n : nat, script w n = Resolves.

End Runtime.

(* ================================================================== *)
(** ** src/utils/browserManager.ts *)
(* ================================================================== *)

Module BrowserManager.
Import JS Runtime.
Local Open Scope js_scope.

(** The fields of the singleton. *)
Record Manager : Type := {
  browser : option nat;
  context : option nat;
  page : option nat;
  config : ConfigManager.BrowserConfig;
  isInitialized : bool
}.

Record State : Type := {
  self : Manager;
  world : World
}.

Definition onWorld (f : World -> World) : M State unit :=
  modify (fun s => {| self := self s; world := f (world s) |}).

Definition onSelf (f : Manager -> Manager) : M State unit :=
  modify (fun s => {| self := f (self s); world := world s |}).

Definition setBrowser (b : option nat) : M State unit :=
  onSelf (fun m => {| browser := b; context := context m; page := page m;
                      config := config m; isInitialized := isInitialized m |}).

Definition setContext (c : option nat) : M State unit :=
  onSelf (fun m => {| browser := browser m; context := c; page := page m;
                      config := config m; isInitialized := isInitialized m |}).

Definition setPage (p : option nat) : M State unit :=
  onSelf (fun m => {| browser := browser m; context := context m; page := p;
                      config := config m; isInitialized := isInitialized m |}).

Definition setIsInitialized (b : bool) : M State unit :=
  onSelf (fun m => {| browser := browser m; context := context m;
                      page := page m; config := config m;
                      isInitialized := b |}).

(** [console.log], [console.warn] and [console.error] with an error. *)
Definition log (line : string) : M State unit := onWorld (print line).

Definition logError (prefix : string) (error : Error) : M State unit :=
  onWorld (print (prefix ++ " " ++ message error)).

(** [await] of a call into the library. *)
Definition await {A : Type} (effect : World -> A * World) : M State A :=
  fun s =>
    match nextOutcome (world s) with
    | Rejects e => (Thrown e, {| self := self s; world := consume (world s) |})
    | Resolves =>
        let '(a, w) := effect (consume (world s)) in
        (Normal a, {| self := self s; world := w |})
    end.

(** The constructor: [config] is read once. *)
Definition create (env : ConfigManager.Env) : Manager :=
  {| browser := None; context := None; page := None;
     config := ConfigManager.getBrowserConfig env; isInitialized := false |}.

Definition toLowerChar (c : ascii) : ascii :=
  let n := nat_of_ascii c in
  if (65 <=? n)%nat && (n <=? 90)%nat then ascii_of_nat (n + 32) else c.

Fixpoint toLowerCase (s : string) : string :=
  match s with
  | EmptyString => EmptyString
  | String c rest => String (toLowerChar c) (toLowerCase rest)
  end.

Definition getBrowserType (m : Manager) : BrowserType :=
  let name := toLowerCase (ConfigManager.browser (config m)) in
  if String.eqb name "firefox" then firefox
  else if String.eqb name "webkit" then webkit
  else if String.eqb name "safari" then webkit
  else chromium.

Definition createContext : M State unit :=
  b <- gets (fun s => browser (self s)) ;;
  match b with
  | None => throw {| message := "Browser not initialized" |}
  | Some _ =>
      c <- await allocate ;;
      setContext (Some c) ;;
      cfg <- gets (fun s => config (self s)) ;;
      when (ConfigManager.recordTrace cfg) (await noEffect)
  end.

Definition createPage : M State unit :=
  c <- gets (fun s => context (self s)) ;;
  match c with
  | None => throw {| message := "Browser context not initialized" |}
  | Some _ =>
      p <- await allocate ;;
      setPage (Some p)
  end.

Definition initializeBrowser : M State unit :=
  initialized <- gets (fun s => isInitialized (self s)) ;;
  if initialized then ret tt
  else
    tryCatch
      (cfg <- gets (fun s => config (self s)) ;;
       log ("Launching " ++ ConfigManager.browser cfg ++ " browser") ;;
       browserType <- gets (fun s => getBrowserType (self s)) ;;
       b <- await (launchEffect browserType) ;;
       setBrowser (Some b) ;;
       createContext ;;
       createPage ;;
       setIsInitialized true ;;
       log "Browser initialized")
      (fun error =>
         logError "Failed to initialize browser:" error ;;
         throw error).

(** The URL [navigateToPage] hands to [page.goto]. *)
Definition fullUrlOf (env : ConfigManager.Env) (url : string) : string :=
  if startsWith url "http" then url
  else ConfigManager.baseURL (ConfigManager.getTestConfig env) ++ url.

Definition navigateToPage (url : string) : M State unit :=
  p <- gets (fun s => page (self s)) ;;
  match p with
  | None =>
      throw {| message :=
        "Page not initialized. Call initializeBrowser() first." |}
  | Some _ =>
      e <- gets (fun s => env (world s)) ;;
      let fullUrl := fullUrlOf e url in
      tryCatch
        (await noEffect ;;
         when (ConfigManager.isDebugMode e) (log ("Navigated to: " ++ fullUrl)))
        (fun error =>
           logError ("Navigation failed to " ++ fullUrl ++ ":") error ;;
           throw error)
  end.

(** [iso.replace(/[:.]/g, '-')] *)
Fixpoint replaceColonDot (s : string) : string :=
  match s with
  | EmptyString => EmptyString
  | String c rest =>
      String (if Ascii.eqb c ":"%char || Ascii.eqb c "."%char
              then "-"%char else c)
             (replaceColonDot rest)
  end.

Definition screenshotPath (name iso : string) : string :=
  "reports/screenshots/" ++ name ++ "-" ++ replaceColonDot iso ++ ".png".

Definition takeScreenshot (name : string) (fullPage : bool)
  : M State (option string) :=
  p <- gets (fun s => page (self s)) ;;
  match p with
  | None =>
      log "Cannot take screenshot: Page not initialized" ;;
      ret None
  | Some _ =>
      tryCatch
        (iso <- gets (fun s => isoTime (world s)) ;;
         let path := screenshotPath name iso in
         await noEffect ;;
         e <- gets (fun s => env (world s)) ;;
         when (ConfigManager.isDebugMode e) (log ("Screenshot saved: " ++ path)) ;;
         ret (Some path))
        (fun error =>
           logError "Failed to take screenshot:" error ;;
           ret None)
  end.

Definition isSome {A : Type} (o : option A) : bool :=
  match o with Some _ => true | None => false end.

Definition cleanup : M State unit :=
  tryCatch
    (cfg <- gets (fun s => config (self s)) ;;
     c <- gets (fun s => context (self s)) ;;
     when (ConfigManager.recordTrace cfg && isSome c) (await noEffect) ;;
     p <- gets (fun s => page (self s)) ;;
     when (isSome p) (await noEffect ;; setPage None) ;;
     c <- gets (fun s => context (self s)) ;;
     when (isSome c) (await noEffect ;; setContext None) ;;
     b <- gets (fun s => browser (self s)) ;;
     match b with
     | Some h => await (closeBrowserEffect h) ;; setBrowser None
     | None => ret tt
     end ;;
     setIsInitialized false ;;
     log "Browser cleanup completed")
    (fun error => logError "Error during browser cleanup:" error).

Definition isReady (m : Manager) : bool :=
  isInitialized m && isSome (page m).

End BrowserManager.

(* ================================================================== *)
(** ** The hooks module: the feature-level Before hook, the AfterAll
       summary *)
(* ================================================================== *)

Module Hooks.
Import JS Runtime.
Local Open Scope js_scope.

Record GherkinDocument : Type := { uri : option string }.

Record Pickle : Type := { pickleUri : string; name : string }.

(** The argument of a [Before] hook. *)
Record Scenario : Type := {
  gherkinDocument : option GherkinDocument;
  pickle : Pickle
}.

(** The module: the [browserManager] it imports and its variable
    [currentFeatureUri]. *)
Record State : Type := {
  browserManager : BrowserManager.State;
  currentFeatureUri : option string
}.

(** A method of [browserManager], called from the module. *)
Definition call {A : Type} (m : M BrowserManager.State A) : M State A :=
  fun s =>
    let '(r, b) := m (browserManager s) in
    (r, {| browserManager := b; currentFeatureUri := currentFeatureUri s |}).

Definition setCurrentFeatureUri (u : option string) : M State unit :=
  modify (fun s => {| browserManager := browserManager s;
                      currentFeatureUri := u |}).

(** [scenario.gherkinDocument?.uri || scenario.pickle.uri] *)
Definition featureUriOf (scenario : Scenario) : string :=
  match gherkinDocument scenario with
  | Some doc =>
      match uri doc with
      | Some EmptyString => pickleUri (pickle scenario)
      | Some u => u
      | None => pickleUri (pickle scenario)
      end
  | None => pickleUri (pickle scenario)
  end.

(** [currentFeatureUri !== featureUri] *)
Definition differs (current : option string) (featureUri : string) : bool :=
  match current with
  | Some u => negb (String.eqb u featureUri)
  | None => true
  end.

(** Truthiness of [currentFeatureUri]: neither [null] nor empty. *)
Definition truthy (current : option string) : bool :=
  match current with
  | Some EmptyString => false
  | Some _ => true
  | None => false
  end.

(** The feature-level [Before] hook. *)
Definition beforeFeature (scenario : Scenario) : M State unit :=
  let featureUri := featureUriOf scenario in
  current <- gets currentFeatureUri ;;
  if differs current featureUri then
    ready <- gets (fun s =>
      BrowserManager.isReady (BrowserManager.self (browserManager s))) ;;
    when (truthy current && ready)
      (call (BrowserManager.log " Cleaning up browser from previous feature...") ;;
       call BrowserManager.cleanup) ;;
    call (BrowserManager.log
            (" Initializing browser for feature: " ++ featureUri)) ;;
    call BrowserManager.initializeBrowser ;;
    call (BrowserManager.log " Browser initialized and ready") ;;
    setCurrentFeatureUri (Some featureUri)
  else ret tt.

(** The runner calls the hook before each scenario in turn; a hook that
    throws fails its scenario and the run goes on. *)
Fixpoint runBefore (scenarios : list Scenario) (s : State) : State :=
  match scenarios with
  | [] => s
  | scenario :: rest => runBefore rest (snd (beforeFeature scenario s))
  end.

(** The state of a fresh process in a world. *)
Definition start (w : World) : State :=
  {| browserManager :=
       {| BrowserManager.self := BrowserManager.create (env w);
          BrowserManager.world := w |};
     currentFeatureUri := None |}.

(** *** The summary loop of [AfterAll] *)
Import CucumberReport.

Record ScenarioCounts : Type := {
  totalScenarios : nat;
  passedScenarios : nat;
  failedScenarios : nat;
  skippedScenarios : nat
}.

(** [step.result?.status === lit] *)
Definition statusIs (lit : string) (step : Step) : bool :=
  match result step with
  | Some res => String.eqb (status res) lit
  | None => false
  end.

(** [scenario.steps?.some(pred)], read as a condition. *)
Definition someStep (pred : Step -> bool) (scenario : Element) : bool :=
  match steps scenario with
  | Some ss => existsb pred ss
  | None => false
  end.

Definition countElement (c : ScenarioCounts) (scenario : Element)
  : ScenarioCounts :=
  if String.eqb (type scenario) "scenario" then
    let hasFailedStep := someStep (statusIs "failed") scenario in
    let hasSkippedStep := someStep (statusIs "skipped") scenario in
    if hasFailedStep then
      {| totalScenarios := S (totalScenarios c);
         passedScenarios := passedScenarios c;
         failedScenarios := S (failedScenarios c);
         skippedScenarios := skippedScenarios c |}
    else if hasSkippedStep then
      {| totalScenarios := S (totalScenarios c);
         passedScenarios := passedScenarios c;
         failedScenarios := failedScenarios c;
         skippedScenarios := S (skippedScenarios c) |}
    else
      {| totalScenarios := S (totalScenarios c);
         passedScenarios := S (passedScenarios c);
         failedScenarios := failedScenarios c;
         skippedScenarios := skippedScenarios c |}
  else c.

Definition countFeature (c : ScenarioCounts) (feature : Feature)
  : ScenarioCounts :=
  match elements feature with
  | Some es => fold_left countElement es c
  | None => c
  end.

(** The four counters after [report.forEach]. *)
Definition afterAllCounts (report : list Feature) : ScenarioCounts :=
  fold_left countFeature report
    {| totalScenarios := 0; passedScenarios := 0; failedScenarios := 0;
       skippedScenarios := 0 |}.

End Hooks.

(* ================================================================== *)
(** ** The summary, as the specification words it *)
(* ================================================================== *)

Module ReportSpec.
Import CucumberReport.

Inductive Verdict : Type := Passed | Failed | Skipped.

Definition verdictEqb (a b : Verdict) : bool :=
  match a, b with
  | Passed, Passed | Failed, Failed | Skipped, Skipped => true
  | _, _ => false
  end.

(** A step "has result status [lit]". *)
Definition hasStatus (lit : string) (step : Step) : bool :=
  match result step with
  | Some res => String.eqb (status res) lit
  | None => false
  end.

Definition stepsOf (e : Element) : list Step :=
  match steps e with
  | Some ss => ss
  | None => []
  end.

(** Failed if any step failed, otherwise skipped if any step was skipped,
    otherwise passed. *)
Definition classify (e : Element) : Verdict :=
  if existsb (hasStatus "failed") (stepsOf e) then Failed
  else if existsb (hasStatus "skipped") (stepsOf e) then Skipped
  else Passed.

Definition isScenario (e : Element) : bool := String.eqb (type e) "scenario".

(** The elements of type 'scenario' of a feature, and of a report. *)
Definition scenariosOf (f : Feature) : list Element :=
  filter isScenario (match elements f with Some es => es | None => [] end).

Definition allScenarios (report : list Feature) : list Element :=
  flat_map scenariosOf report.

Definition countVerdict (v : Verdict) (es : list Element) : nat :=
  List.length (filter (fun e => verdictEqb (classify e) v) es).

(** A feature is failed when it contains a failed scenario. *)
Definition featureFailed (f : Feature) : bool :=
  existsb (fun e => verdictEqb (classify e) Failed) (scenariosOf f).

Definition allSteps (report : list Feature) : list Step :=
  flat_map stepsOf (allScenarios report).

Definition countStatus (lit : string) (ss : list Step) : nat :=
  List.length (filter (hasStatus lit) ss).

(** A step with no result object, or whose status is none of the three. *)
Definition uncounted (step : Step) : bool :=
  negb (hasStatus "passed" step || hasStatus "failed" step
        || hasStatus "skipped" step).

(** *** Tallies in closed form *)

(** One more scenario with a given verdict. *)
Definition bump (verdict : Verdict) (t : Tally) : Tally :=
  match verdict with
  | Passed => incPassed (incTotal t)
  | Failed => incFailed (incTotal t)
  | Skipped => incSkipped (incTotal t)
  end.

(** The scenario tally after a list of elements: the counts of the three
    verdicts among the elements of type 'scenario' are added. *)
Definition addScenarios (es : list Element) (t : Tally) : Tally :=
  {| total := total t + List.length es;
     passed := passed t + countVerdict Passed es;
     failed := failed t + countVerdict Failed es;
     skipped := skipped t + countVerdict Skipped es |}.

(** The feature tally after a list of features. *)
Definition addFeatures (fs : list Feature) (t : FeatureTally) : FeatureTally :=
  {| ftotal := ftotal t + List.length fs;
     fpassed := fpassed t
                + List.length (filter (fun f => negb (featureFailed f)) fs);
     ffailed := ffailed t + List.length (filter featureFailed fs) |}.

(** The step tally after a list of steps. *)
Definition addSteps (ss : list Step) (t : Tally) : Tally :=
  {| total := total t + List.length ss;
     passed := passed t + countStatus "passed" ss;
     failed := failed t + countStatus "failed" ss;
     skipped := skipped t + countStatus "skipped" ss |}.

(** A number of hundredths written with two decimal places: the integer
    part, a point, the tenths and the hundredths. *)
Definition twoDecimals (n : Z) : string :=
  JS.Number_toString (n / 100) ++ "." ++
  JS.Number_toString (n mod 100 / 10)%Z ++ JS.Number_toString (n mod 10).

(** The counters of the [AfterAll] loop, read as a tally. *)
Definition tallyOf (c : Hooks.ScenarioCounts) : Tally :=
  {| total := Hooks.totalScenarios c; passed := Hooks.passedScenarios c;
     failed := Hooks.failedScenarios c; skipped := Hooks.skippedScenarios c |}.

End ReportSpec.

(* ================================================================== *)
(** ** The generated customer, as the specification words it *)
(* ================================================================== *)

Module CustomerSpec.
Import JS TestDataManager.

(** The [ssn] field of a customer is an SSN-shaped string. *)
Definition ssnFieldShaped (customer : value) : bool :=
  match get (get customer "personalInfo") "ssn" with
  | JStr s => ssnShaped s
  | _ => false
  end.

(** "street, city, state zipCode" of the values the generator drew. *)
Definition generatedAddress (f : Faker) : string :=
  location_streetAddress f ++ ", " ++ location_city f ++ ", " ++
  location_state f ++ " " ++ location_zipCode f.

(** The four fields [fullAddress] is built from, and the drawn value of
    each. *)
Definition addressFields : list string :=
  ["street"; "city"; "state"; "zipCode"].

Definition drawn (f : Faker) (field : string) : string :=
  if String.eqb field "street" then location_streetAddress f
  else if String.eqb field "city" then location_city f
  else if String.eqb field "state" then location_state f
  else location_zipCode f.

(** What an overrides record merges into [address]: nothing when it has
    no [address], the properties that the loop visits in its [address]
    when that is an object.  [None] when [address] is [null] or a
    primitive, which replaces the generated address as a whole. *)
Definition addressOverride (overrides : props) : option props :=
  match lookup overrides "address" with
  | None => Some []
  | Some JUndefined => Some []
  | Some v => if is_object v then Some (entries v) else None
  end.

(** A string of exactly [n] decimal digits. *)
Definition digitsOnly (n : nat) (s : string) : bool :=
  (String.length s =? n)%nat && forallb isDigit (list_ascii_of_string s).

End CustomerSpec.

(* ================================================================== *)
(** ** Sample inputs *)
(* ================================================================== *)

Module Samples.
Import JS Runtime.

Definition faker0 : TestDataManager.Faker :=
  {| TestDataManager.person_firstName := "Ann";
     TestDataManager.person_lastName := "Lee";
     TestDataManager.date_birthdate := 0;
     TestDataManager.internet_email := "ann.lee@example.com";
     TestDataManager.phone_number := "555-0100";
     TestDataManager.ssn_area := 7;
     TestDataManager.ssn_group := 123456;
     TestDataManager.ssn_serial := (-3);
     TestDataManager.pick_maritalStatus := 5;
     TestDataManager.pick_gender := 7;
     TestDataManager.location_streetAddress := "1 Main St";
     TestDataManager.location_city := "Springfield";
     TestDataManager.location_state := "IL";
     TestDataManager.location_zipCode := "62701";
     TestDataManager.company_name := "Acme";
     TestDataManager.person_jobTitle := "Engineer";
     TestDataManager.company_buzzNoun := "synergy";
     TestDataManager.draw_employmentIncome := 1;
     TestDataManager.pick_employmentType := 2;
     TestDataManager.draw_yearsAtJob := 3;
     TestDataManager.draw_creditScore := 4;
     TestDataManager.draw_financialIncome := 5;
     TestDataManager.draw_monthlyDebt := 6;
     TestDataManager.finance_accountNumber := "0123456789";
     TestDataManager.finance_routingNumber := "021000021" |}.

(** The draws of [faker0] with an address in the state of New York. *)
Definition fakerNewYork : TestDataManager.Faker :=
  {| TestDataManager.person_firstName := "Ann";
     TestDataManager.person_lastName := "Lee";
     TestDataManager.date_birthdate := 0;
     TestDataManager.internet_email := "ann.lee@example.com";
     TestDataManager.phone_number := "555-0100";
     TestDataManager.ssn_area := 7;
     TestDataManager.ssn_group := 123456;
     TestDataManager.ssn_serial := (-3);
     TestDataManager.pick_maritalStatus := 5;
     TestDataManager.pick_gender := 7;
     TestDataManager.location_streetAddress := "1 Main St";
     TestDataManager.location_city := "Albany";
     TestDataManager.location_state := "New York";
     TestDataManager.location_zipCode := "12207";
     TestDataManager.company_name := "Acme";
     TestDataManager.person_jobTitle := "Engineer";
     TestDataManager.company_buzzNoun := "synergy";
     TestDataManager.draw_employmentIncome := 1;
     TestDataManager.pick_employmentType := 2;
     TestDataManager.draw_yearsAtJob := 3;
     TestDataManager.draw_creditScore := 4;
     TestDataManager.draw_financialIncome := 5;
     TestDataManager.draw_monthlyDebt := 6;
     TestDataManager.finance_accountNumber := "0123456789";
     TestDataManager.finance_routingNumber := "021000021" |}.

(** [{ address: { state: 'New', zipCode: 'York 12207' } }] *)
Definition stateAndZipOverride : props :=
  [("address", JObj [("state", JStr "New"); ("zipCode", JStr "York 12207")])].

Definition calendar0 : TestDataManager.Calendar :=
  {| TestDataManager.now := 54;
     TestDataManager.getFullYear := fun t => (1970 + t)%Z;
     TestDataManager.dateToString := fun t => Number_toString t |}.

(** [{ address: { street: '9 Elm Rd' } }] *)
Definition streetOverride : props := [("street", JStr "9 Elm Rd")].

Definition overrides0 : props := [("address", JObj streetOverride)].



Definition noEnv : ConfigManager.Env := fun _ => None.

(** A world where every call resolves but the calls numbered in
    [failing], which reject with [e]. *)
Definition worldFailingAt (failing : list nat) (e : Error) : World :=
  {| env := noEnv;
     script := fun n => if existsb (Nat.eqb n) failing then Rejects e
                        else Resolves;
     calls := 0; nextHandle := 0; history := []; console := [];
     isoTime := "2024-01-02T03:04:05.678Z" |}.

Definition networkError : Error := {| message := "net::ERR_CONNECTION_REFUSED" |}.

Definition scenarioOf (path : string) : Hooks.Scenario :=
  {| Hooks.gherkinDocument := Some {| Hooks.uri := Some path |};
     Hooks.pickle := {| Hooks.pickleUri := path; Hooks.name := "scenario" |} |}.

End Samples.

(* ================================================================== *)
(** ** The state of the hooks between two scenarios *)
(* ================================================================== *)

Module HookSpec.
Import Runtime Hooks.

(** The state between two hooks when every call resolves: no browser
    yet, or one browser, ready, the only one running. *)
Definition settled (s : State) : Prop :=
  let m := BrowserManager.self (browserManager s) in
  let w := BrowserManager.world (browserManager s) in
  allResolve w
  /\ peakLive (history w) <= 1
  /\ ((BrowserManager.isInitialized m = false
       /\ live (history w) = [] /\ currentFeatureUri s = None)
      \/ (exists b, BrowserManager.isReady m = true
                    /\ BrowserManager.browser m = Some b
                    /\ live (history w) = [b]
                    /\ b < nextHandle w)).

End HookSpec.

(* ================================================================== *)
(** ** src/utils/testDataManager.ts: the other generators, the store *)
(* ================================================================== *)

Module Generators.
Import JS TestDataManager.

(** An array of strings. *)
Definition arrayOfStrings (xs : list string) : value := JArr (map JStr xs).

(** [{ ...a, ...b }]: the properties of [a], then each own property of
    [b] defined in turn. *)
Definition spread (a b : props) : props :=
  fold_left (fun result kv => define result (fst kv) (snd kv)) b a.

(** [faker.string.alpha] and [faker.string.alphanumeric] with a length and
    upper casing: [length] characters, each picked from the alphabet. *)
Definition upperLetters : list ascii :=
  list_ascii_of_string "ABCDEFGHIJKLMNOPQRSTUVWXYZ".

Definition upperAlphanumerics : list ascii :=
  list_ascii_of_string "0123456789ABCDEFGHIJKLMNOPQRSTUVWXYZ".

Definition faker_string (alphabet : list ascii) (length : nat)
    (raw : nat -> nat) : string :=
  string_of_list_ascii
    (map (fun i => nth (raw i mod List.length alphabet) alphabet "A"%char)
         (seq 0 length)).

(** [generateLicensePlate()] *)
Definition generateLicensePlate (letters : nat -> nat) (digits : Z) : string :=
  faker_string upperLetters 3 letters ++
  Number_toString (faker_number_int digits 100 999).

(** [generatePolicyNumber()] *)
Definition generatePolicyNumber (raw : nat -> nat) : string :=
  "POL-" ++ faker_string upperAlphanumerics 8 raw.

(** The draws of one call of [generateVehicle]. *)
Record VehicleDraws : Type := {
  pick_make : nat;
  vehicle_model : string;
  draw_year : Z;
  vehicle_vin : string;
  plate_letters : nat -> nat;
  plate_digits : Z;
  vehicle_color : string;
  draw_mileage : Z;
  pick_vehicleType : nat;
  pick_fuelType : nat;
  draw_value : Z
}.

Definition makes : list string :=
  ["Toyota"; "Honda"; "Ford"; "Chevrolet"; "BMW"; "Mercedes"; "Audi";
   "Nissan"; "Hyundai"; "Subaru"].

(** The object literal [vehicle]. *)
Definition vehicleLiteral (cal : Calendar) (d : VehicleDraws) : props :=
  [ ("make", JStr (faker_arrayElement (pick_make d) makes));
    ("model", JStr (vehicle_model d));
    ("year", JNum (faker_number_int (draw_year d) 2010
                     (getFullYear cal (now cal))));
    ("vin", JStr (vehicle_vin d));
    ("licensePlate",
       JStr (generateLicensePlate (plate_letters d) (plate_digits d)));
    ("color", JStr (vehicle_color d));
    ("mileage", JNum (faker_number_int (draw_mileage d) 0 200000));
    ("vehicleType", JStr (faker_arrayElement (pick_vehicleType d)
       ["sedan"; "suv"; "truck"; "motorcycle"; "van"; "coupe"]));
    ("fuelType", JStr (faker_arrayElement (pick_fuelType d)
       ["gasoline"; "diesel"; "electric"; "hybrid"]));
    ("value", JNum (faker_number_int (draw_value d) 5000 80000)) ].

(** [generateVehicle(overrides = {})], for a clock in 2010 or later (the
    year is drawn between 2010 and the current year). *)
Definition generateVehicle (cal : Calendar) (d : VehicleDraws)
    (overrides : props) : value :=
  JObj (spread (vehicleLiteral cal d) overrides).

(** The draws of one call of [generateHealthInfo]; the three arrays are
    what [faker.helpers.arrayElements] returned. *)
Record HealthDraws : Type := {
  draw_feet : Z;
  draw_inches : Z;
  draw_weight : Z;
  pick_bloodType : nat;
  flip_smoker : bool;
  flip_drinker : bool;
  drawn_medications : list string;
  drawn_allergies : list string;
  drawn_conditions : list string;
  date_recentExam : Z;
  doctor_fullName : string;
  doctor_phone : string;
  pick_specialty : nat
}.

Definition doubleQuote : string := String (ascii_of_nat 34) EmptyString.

(** The object literal [healthInfo]. *)
Definition healthLiteral (d : HealthDraws) : value :=
  let height :=
    Number_toString (faker_number_int (draw_feet d) 4 6) ++ "'" ++
    Number_toString (faker_number_int (draw_inches d) 0 11) ++ doubleQuote in
  JObj
    [ ("height", JStr height);
      ("weight", JNum (faker_number_int (draw_weight d) 100 300));
      ("bloodType", JStr (faker_arrayElement (pick_bloodType d)
         ["A+"; "A-"; "B+"; "B-"; "AB+"; "AB-"; "O+"; "O-"]));
      ("smoker", JBool (flip_smoker d));
      ("drinker", JBool (flip_drinker d));
      ("medications", arrayOfStrings (drawn_medications d));
      ("allergies", arrayOfStrings (drawn_allergies d));
      ("medicalConditions", arrayOfStrings (drawn_conditions d));
      ("lastPhysicalExam", JDate (date_recentExam d));
      ("primaryDoctor", JObj
         [ ("name", JStr ("Dr. " ++ doctor_fullName d));
           ("phone", JStr (doctor_phone d));
           ("specialty", JStr (faker_arrayElement (pick_specialty d)
              ["Family Medicine"; "Internal Medicine"; "Cardiology";
               "Pediatrics"])) ]) ].

(** [generateHealthInfo(overrides = {})] *)
Definition generateHealthInfo (d : HealthDraws) (overrides : value) : value :=
  deepMerge (healthLiteral d) overrides.

(** [Math.round(x)] of a double [m * 2^e]: the nearest integer, the larger
    one at a tie. *)
Definition mathRound (x : CucumberReport.double) : Z :=
  let '(m, e) := x in
  ((2 * m * 2 ^ Z.max e 0 + 2 ^ Z.max (- e) 0) / (2 * 2 ^ Z.max (- e) 0))%Z.

(** The draws of one call of [generatePolicy]. *)
Record PolicyDraws : Type := {
  date_effective : Z;
  draw_coverage : Z;
  draw_annualPremium : Z;
  number_chars : nat -> nat;
  pick_policyType : nat;
  draw_deductible : Z;
  pick_paymentFrequency : nat
}.

(** The object literal [policy]; [plusOneYear] is what
    [setFullYear(getFullYear() + 1)] makes of an instant. *)
Definition policyLiteral (plusOneYear : Z -> Z) (d : PolicyDraws) : value :=
  let effectiveDate := date_effective d in
  let expirationDate := plusOneYear effectiveDate in
  let coverageAmount := faker_number_int (draw_coverage d) 10000 1000000 in
  let annualPremium := faker_number_int (draw_annualPremium d) 500 5000 in
  JObj
    [ ("policyNumber", JStr (generatePolicyNumber (number_chars d)));
      ("policyType", JStr (faker_arrayElement (pick_policyType d)
         ["auto"; "home"; "life"; "health"; "business"]));
      ("coverageAmount", JNum coverageAmount);
      ("deductible", JNum (faker_number_int (draw_deductible d) 250 2500));
      ("premium", JObj
         [ ("monthly",
              JNum (mathRound (CucumberReport.divide annualPremium 12)));
           ("quarterly",
              JNum (mathRound (CucumberReport.divide annualPremium 4)));
           ("annual", JNum annualPremium) ]);
      ("effectiveDate", JDate effectiveDate);
      ("expirationDate", JDate expirationDate);
      ("paymentFrequency", JStr (faker_arrayElement (pick_paymentFrequency d)
         ["monthly"; "quarterly"; "semi-annual"; "annual"])) ].

(** [generatePolicy(overrides = {})] *)
Definition generatePolicy (plusOneYear : Z -> Z) (d : PolicyDraws)
    (overrides : value) : value :=
  deepMerge (policyLiteral plusOneYear d) overrides.

(** [generatedData], a [Map] from strings: its entries in insertion
    order. *)
Definition DataStore : Type := props.

Definition storeData (store : DataStore) (key : string) (data : value)
  : DataStore :=
  set store key data.

Definition retrieveData (store : DataStore) (key : string) : value :=
  match lookup store key with
  | Some data => data
  | None => JUndefined
  end.

Definition clearStoredData (store : DataStore) : DataStore := [].

(** [generateInvalidSSN()] *)
Definition generateInvalidSSN (pick : nat) : string :=
  faker_arrayElement pick
    ["123-45-678"; "000-00-0000"; "123-00-0000"; "123456789"; ""].

End Generators.

(* ================================================================== *)
(** ** src/utils/configManager.ts: the other readers *)
(* ================================================================== *)

Module ConfigReaders.
Import JS ConfigManager.

(** [parseInt(s, 10)]: as [parseInt], with no [0x] prefix. *)
Definition parseInt10 (input : string) : number :=
  let s := trimStart input in
  let '(sign, s1) :=
    match s with
    | String "-"%char rest => ((-1)%Z, rest)
    | String "+"%char rest => (1%Z, rest)
    | _ => (1%Z, s)
    end in
  match parseDigits 10 s1 None with
  | Some z => roundToDouble (sign * z)
  | None => NaN
  end.

(** [getEnvNumber(key, fallback = 0)] *)
Definition getEnvNumber (env : Env) (key : string) (fallback : number)
  : number :=
  match env key with
  | None => fallback
  | Some value =>
      match parseInt10 value with
      | NaN => fallback
      | parsed => parsed
      end
  end.

(** [getEnvBool(key, fallback = false)] *)
Definition getEnvBool (env : Env) (key : string) (fallback : bool) : bool :=
  match env key with
  | None => fallback
  | Some value => String.eqb (BrowserManager.toLowerCase value) "true"
  end.

(** [s.split(',')] *)
Fixpoint split (sep : ascii) (s : string) : list string :=
  match s with
  | EmptyString => [EmptyString]
  | String c rest =>
      if Ascii.eqb c sep then EmptyString :: split sep rest
      else
        match split sep rest with
        | piece :: pieces => String c piece :: pieces
        | [] => [String c EmptyString]
        end
  end.

Record ReportConfig : Type := {
  outputDir : string;
  formats : list string;
  includeScreenshots : bool;
  includeVideos : bool;
  includeTraces : bool
}.

Definition getReportConfig (env : Env) : ReportConfig :=
  {| outputDir := orElse (env "REPORTS_DIR") "reports";
     formats := split ","%char (orElse (env "REPORT_FORMATS") "json,html");
     includeScreenshots := strictNe (env "INCLUDE_SCREENSHOTS") "false";
     includeVideos := strictEq (env "INCLUDE_VIDEOS") "true";
     includeTraces := strictEq (env "INCLUDE_TRACES") "true" |}.

End ConfigReaders.

(* ================================================================== *)
(** ** The helpers module: retryAsync *)
(* ================================================================== *)

Module WaitHelper.
Import JS Runtime.

(** What [retryAsync] sees of the world: the outcome of each call of
    [fn], the calls made so far, the delays slept so far (newest
    first). *)
Record Attempts (T : Type) : Type := {
  outcomeOf : nat -> Completion T;
  made : nat;
  slept : list Z
}.
Arguments outcomeOf {T} _ _.
Arguments made {T} _.
Arguments slept {T} _.

(** [await fn()] *)
Definition callFn {T : Type} : M (Attempts T) T :=
  fun s =>
    (outcomeOf s (made s),
     {| outcomeOf := outcomeOf s; made := S (made s); slept := slept s |}).

(** [await this.sleep(ms)] *)
Definition sleep {T : Type} (ms : Z) : M (Attempts T) unit :=
  modify (fun s => {| outcomeOf := outcomeOf s; made := made s;
                      slept := ms :: slept s |}).

Local Open Scope js_scope.

(** The [for] loop of [retryAsync] from index [i], with [remaining]
    iterations to go, and the [throw] after it. *)
Fixpoint retryLoop {T : Type} (maxRetries delay : Z) (remaining : nat)
    (i : Z) : M (Attempts T) T :=
  match remaining with
  | O => throw {| message := "This should never be reached" |}
  | S remaining' =>
      tryCatch callFn
        (fun error =>
           if (i =? maxRetries - 1)%Z then throw error
           else sleep delay ;; retryLoop maxRetries delay remaining' (i + 1)%Z)
  end.

(** [retryAsync(fn, maxRetries = 3, delay = 1000)], for an integer
    [maxRetries]. *)
Definition retryAsync {T : Type} (maxRetries delay : Z) : M (Attempts T) T :=
  retryLoop maxRetries delay (Z.to_nat maxRetries) 0%Z.

End WaitHelper.

(* ================================================================== *)
(** ** The hooks module: After and AfterAll *)
(* ================================================================== *)

Module HooksAfter.
Import JS Runtime Hooks.
Local Open Scope js_scope.

Definition isAlphanumeric (c : ascii) : bool :=
  let n := nat_of_ascii c in
  ((97 <=? n)%nat && (n <=? 122)%nat)
  || ((65 <=? n)%nat && (n <=? 90)%nat)
  || ((48 <=? n)%nat && (n <=? 57)%nat).

(** [name.replace(/[^a-zA-Z0-9]/g, '-')] *)
Fixpoint replaceNonAlphanumeric (s : string) : string :=
  match s with
  | EmptyString => EmptyString
  | String c rest =>
      String (if isAlphanumeric c then c else "-"%char)
             (replaceNonAlphanumeric rest)
  end.

(** The name the [After] hook gives the screenshot of a failed
    scenario. *)
Definition screenshotName (scenarioName : string) : string :=
  "failed-" ++ replaceNonAlphanumeric scenarioName.

(** The final clean-up of [AfterAll]. *)
Definition afterAllCleanup : M State unit :=
  ready <- gets (fun s =>
    BrowserManager.isReady (BrowserManager.self (browserManager s))) ;;
  when ready
    (call (BrowserManager.log " Final browser cleanup...") ;;
     call BrowserManager.cleanup ;;
     call (BrowserManager.log " Final cleanup completed")).

(** The line [AfterAll] prints as the overall result; none with no
    scenario.  [failed > total * 0.5] is exact on counters, halving being
    exact in binary. *)
Definition overallResult (c : ScenarioCounts) : option string :=
  if (0 <? totalScenarios c)%nat then
    if (failedScenarios c =? 0)%nat then Some "ALL TESTS PASSED!"
    else if (totalScenarios c <? 2 * failedScenarios c)%nat
    then Some "CRITICAL: More than 50% of tests failed!"
    else Some ("  " ++ Number_toString (Z.of_nat (failedScenarios c)) ++
               " test(s) failed - review required")
  else None.

End HooksAfter.

(* ================================================================== *)
(** ** Shapes of generated strings *)
(* ================================================================== *)

Module ShapeSpec.
Import JS TestDataManager.

Definition isUpper (c : ascii) : bool :=
  (65 <=? nat_of_ascii c)%nat && (nat_of_ascii c <=? 90)%nat.

(** Three upper-case letters, then three digits. *)
Definition plateShaped (s : string) : bool :=
  match list_ascii_of_string s with
  | [l1; l2; l3; d1; d2; d3] =>
      isUpper l1 && isUpper l2 && isUpper l3 &&
      isDigit d1 && isDigit d2 && isDigit d3
  | _ => false
  end.

(** "POL-", then eight characters, each a digit or an upper-case
    letter. *)
Definition policyNumberShaped (s : string) : bool :=
  match s with
  | String "P" (String "O" (String "L" (String "-" rest))) =>
      (String.length rest =? 8)%nat
      && forallb (fun c => isDigit c || isUpper c) (list_ascii_of_string rest)
  | _ => false
  end.

(** The three arrays of a health record. *)
Definition healthArray (d : Generators.HealthDraws) (field : string) : list string :=
  if String.eqb field "medications" then Generators.drawn_medications d
  else if String.eqb field "allergies" then Generators.drawn_allergies d
  else Generators.drawn_conditions d.

(** The annual premium a call of [generatePolicy] drew. *)
Definition drawnAnnualPremium (d : Generators.PolicyDraws) : Z :=
  faker_number_int (Generators.draw_annualPremium d) 500 5000.

(** The number a string of decimal digits writes, read from the left
    after a value [a]. *)
Fixpoint digitsValue (d : Decimal.uint) (a : N) : N :=
  match d with
  | Decimal.Nil => a
  | Decimal.D0 d => digitsValue d (10 * a)
  | Decimal.D1 d => digitsValue d (10 * a + 1)
  | Decimal.D2 d => digitsValue d (10 * a + 2)
  | Decimal.D3 d => digitsValue d (10 * a + 3)
  | Decimal.D4 d => digitsValue d (10 * a + 4)
  | Decimal.D5 d => digitsValue d (10 * a + 5)
  | Decimal.D6 d => digitsValue d (10 * a + 6)
  | Decimal.D7 d => digitsValue d (10 * a + 7)
  | Decimal.D8 d => digitsValue d (10 * a + 8)
  | Decimal.D9 d => digitsValue d (10 * a + 9)
  end%N.

(** A string with no comma. *)
Definition commaFree (s : string) : bool :=
  negb (existsb (Ascii.eqb ","%char) (list_ascii_of_string s)).

End ShapeSpec.

(* ================================================================== *)
(** ** More sample inputs *)
(* ================================================================== *)

Module MoreSamples.
Import JS.

Definition health0 : Generators.HealthDraws :=
  {| Generators.draw_feet := 1;
     Generators.draw_inches := 9;
     Generators.draw_weight := 55;
     Generators.pick_bloodType := 3;
     Generators.flip_smoker := true;
     Generators.flip_drinker := false;
     Generators.drawn_medications := ["Metformin"];
     Generators.drawn_allergies := [];
     Generators.drawn_conditions := ["Hypertension"; "Asthma"];
     Generators.date_recentExam := 1700000000000;
     Generators.doctor_fullName := "Kim Park";
     Generators.doctor_phone := "555-0199";
     Generators.pick_specialty := 2 |}.

Definition vehicle0 : Generators.VehicleDraws :=
  {| Generators.pick_make := 4;
     Generators.vehicle_model := "Civic";
     Generators.draw_year := 17;
     Generators.vehicle_vin := "1HGCM82633A004352";
     Generators.plate_letters := fun i => 7 * i + 2;
     Generators.plate_digits := 4242;
     Generators.vehicle_color := "blue";
     Generators.draw_mileage := 123456;
     Generators.pick_vehicleType := 1;
     Generators.pick_fuelType := 6;
     Generators.draw_value := 99 |}.

(** A calendar whose current year is 2024. *)
Definition calendar2024 : TestDataManager.Calendar :=
  {| TestDataManager.now := 54;
     TestDataManager.getFullYear := fun t => (1970 + t)%Z;
     TestDataManager.dateToString := fun t => Number_toString t |}.

End MoreSamples.

(* ================================================================== *)
(** ** The order of the keys of an object *)
(* ================================================================== *)

Module KeySpec.
Import JS.

(** Keys in the order JavaScript lists them: no key is followed by one
    that is listed before it. *)
Fixpoint keyOrdered (ks : list string) : bool :=
  match ks with
  | [] => true
  | k :: rest =>
      forallb (fun k' => negb (listedBefore k' k)) rest && keyOrdered rest
  end.

Definition among (ks : list string) (k : string) : bool :=
  existsb (String.eqb k) ks.

(** The keys after a new key has taken its place. *)
Fixpoint insertKey (ks : list string) (key : string) : list string :=
  match ks with
  | [] => [key]
  | k :: rest =>
      if listedBefore key k then key :: k :: rest
      else k :: insertKey rest key
  end.

End KeySpec.

(* ================================================================== *)
(** ** States that the properties of the helpers name *)
(* ================================================================== *)

Module HelperSpec.
Import JS Runtime.

(** The attempts after [k] more calls of [fn] and [n] sleeps of
    [delay]. *)
Definition afterAttempts {T : Type} (s : WaitHelper.Attempts T)
    (k n : nat) (delay : Z) : WaitHelper.Attempts T :=
  {| WaitHelper.outcomeOf := WaitHelper.outcomeOf s;
     WaitHelper.made := WaitHelper.made s + k;
     WaitHelper.slept := (repeat delay n ++ WaitHelper.slept s)%list |}.

(** The calls [cleanup] makes before it closes the page: the stop of the
    trace, when a trace is recorded and there is a context. *)
Definition callsBeforePageClose (m : BrowserManager.Manager) : nat :=
  if ConfigManager.recordTrace (BrowserManager.config m)
     && BrowserManager.isSome (BrowserManager.context m)
  then 1 else 0.

(** A manager that was never initialized, in a world whose second call
    (the creation of the context) is refused. *)
Definition contextRefused : BrowserManager.State :=
  {| BrowserManager.self := BrowserManager.create Samples.noEnv;
     BrowserManager.world :=
       Samples.worldFailingAt [1] Samples.networkError |}.

(** A ready manager in a world whose second call (the closing of the
    context) is refused. *)
Definition contextCloseRefused : BrowserManager.State :=
  {| BrowserManager.self :=
       {| BrowserManager.browser := Some 0;
          BrowserManager.context := Some 1;
          BrowserManager.page := Some 2;
          BrowserManager.config :=
            ConfigManager.getBrowserConfig Samples.noEnv;
          BrowserManager.isInitialized := true |};
     BrowserManager.world :=
       Samples.worldFailingAt [1] Samples.networkError |}.

(** A scenario of one step with the given status. *)
Definition scenarioWith (lit : string) : CucumberReport.Element :=
  {| CucumberReport.type := "scenario";
     CucumberReport.steps :=
       Some [ {| CucumberReport.result :=
                   Some {| CucumberReport.status := lit;
                           CucumberReport.duration := None |} |} ] |}.

(** A report of one feature: a failed scenario, then [n] passed ones. *)
Definition oneFailedAmong (n : nat) : list CucumberReport.Feature :=
  [ {| CucumberReport.elements :=
         Some (scenarioWith "failed" :: repeat (scenarioWith "passed") n) |} ].

End HelperSpec.

(* ================================================================== *)
(** ** Characters of a screenshot name *)
(* ================================================================== *)

Module NameSpec.
Import HooksAfter.

(** A letter, a digit or the hyphen. *)
Definition isNameChar (c : ascii) : bool :=
  isAlphanumeric c || Ascii.eqb c "-".

End NameSpec.

(* ================================================================== *)
(** ** Properties *)
(* ================================================================== *)

Section Objects.
Import JS.

Lemma existsb_eqb_In (key : string) (ks : list string) :
  existsb (String.eqb key) ks = true <-> In key ks.
Proof.
  rewrite existsb_exists. split.
  - intros (k & Hin & Heq). apply String.eqb_eq in Heq. now subst.
  - intros Hin. exists key. split; [assumption | apply String.eqb_refl].
Qed.

Lemma lookup_In (ps : props) (key : string) (v : value) :
  lookup ps key = Some v -> In (key, v) ps.
Proof.
  induction ps as [|[k x] rest IH]; simpl; [discriminate|].
  destruct (String.eqb_spec k key) as [->|Hk].
  - intros [= ->]. now left.
  - intros H. right. auto.
Qed.

Lemma lookup_None_keys (ps : props) (key : string) :
  lookup ps key = None <-> ~ In key (keys ps).
Proof.
  induction ps as [|[k x] rest IH]; simpl.
  - tauto.
  - destruct (String.eqb_spec k key) as [->|Hk].
    + split; [discriminate | intros H; exfalso; apply H; now left].
    + rewrite IH. split.
      * intros H [?|?]; auto.
      * intros H ?; apply H; now right.
Qed.

Lemma lookup_set_same (ps : props) (key : string) (v : value) :
  lookup (set ps key v) key = Some v.
Proof.
  induction ps as [|[k x] rest IH]; simpl.
  - now rewrite String.eqb_refl.
  - destruct (String.eqb k key) eqn:E; simpl; rewrite E; auto.
Qed.

Lemma lookup_set_other (ps : props) (key key' : string) (v : value) :
  key <> key' -> lookup (set ps key v) key' = lookup ps key'.
Proof.
  intros Hne.
  induction ps as [|[k x] rest IH]; simpl.
  - destruct (String.eqb_spec key key'); [contradiction | reflexivity].
  - destruct (String.eqb_spec k key) as [->|Hk]; simpl.
    + destruct (String.eqb_spec key key'); [contradiction | reflexivity].
    + destruct (String.eqb_spec k key'); auto.
Qed.

Lemma lookup_update_same (ps : props) (key : string) (v : value) :
  In key (keys ps) -> lookup (update ps key v) key = Some v.
Proof.
  induction ps as [|[k x] rest IH]; simpl; [intros []|].
  intros Hin. destruct (String.eqb_spec k key) as [->|Hk]; simpl.
  - now rewrite String.eqb_refl.
  - destruct (String.eqb_spec k key); [contradiction|].
    apply IH. destruct Hin; [contradiction | assumption].
Qed.

Lemma lookup_update_other (ps : props) (key key' : string) (v : value) :
  key <> key' -> lookup (update ps key v) key' = lookup ps key'.
Proof.
  intros Hne.
  induction ps as [|[k x] rest IH]; simpl; [reflexivity|].
  destruct (String.eqb_spec k key) as [->|Hk]; simpl.
  - destruct (String.eqb_spec key key'); [contradiction | reflexivity].
  - destruct (String.eqb_spec k key'); auto.
Qed.

Lemma lookup_insert_same (ps : props) (key : string) (v : value) :
  ~ In key (keys ps) -> lookup (insert ps key v) key = Some v.
Proof.
  induction ps as [|[k x] rest IH]; simpl.
  - intros _. now rewrite String.eqb_refl.
  - intros Hnin. destruct (listedBefore key k); simpl.
    + now rewrite String.eqb_refl.
    + destruct (String.eqb_spec k key) as [->|Hk]; [tauto|].
      apply IH. tauto.
Qed.

Lemma lookup_insert_other (ps : props) (key key' : string) (v : value) :
  key <> key' -> lookup (insert ps key v) key' = lookup ps key'.
Proof.
  intros Hne.
  induction ps as [|[k x] rest IH]; simpl.
  - destruct (String.eqb_spec key key'); [contradiction | reflexivity].
  - destruct (listedBefore key k); simpl.
    + destruct (String.eqb_spec key key'); [contradiction | reflexivity].
    + destruct (String.eqb_spec k key'); auto.
Qed.

Lemma lookup_define_same (ps : props) (key : string) (v : value) :
  lookup (define ps key v) key = Some v.
Proof.
  unfold define. destruct (existsb (String.eqb key) (keys ps)) eqn:E.
  - apply lookup_update_same. now apply existsb_eqb_In.
  - apply lookup_insert_same. intros Hin. apply existsb_eqb_In in Hin.
    congruence.
Qed.

Lemma lookup_define_other (ps : props) (key key' : string) (v : value) :
  key <> key' -> lookup (define ps key v) key' = lookup ps key'.
Proof.
  intros Hne. unfold define. destruct (existsb _ _).
  - now apply lookup_update_other.
  - now apply lookup_insert_other.
Qed.

(** The accessor is met at the key [__proto__] only. *)
Lemma find_accessor (v : value) (key : string) :
  find v key = ProtoAccessor -> key = "__proto__".
Proof.
  assert (Hobj : inObjectPrototype key = ProtoAccessor -> key = "__proto__").
  { unfold inObjectPrototype.
    destruct (String.eqb_spec key "__proto__"); [auto | discriminate]. }
  induction v as [| | | | | | ps | xs | proto IH ps | b]; cbn [find];
    try discriminate; auto.
  - destruct (lookup ps key); [discriminate | exact Hobj].
  - destruct (lookup (indexed 0 xs) key); [discriminate|].
    destruct (String.eqb key "length"); [discriminate | exact Hobj].
  - destruct (lookup ps key); [discriminate | exact IH].
  - destruct b; auto.
    destruct (String.eqb key "length"); [discriminate | exact Hobj].
Qed.

Lemma findIn_accessor (o : Ordinary) (key : string) :
  findIn o key = ProtoAccessor -> key = "__proto__".
Proof.
  unfold findIn. destruct (lookup (properties o) key); [discriminate|].
  apply find_accessor.
Qed.

Lemma assign_other (o : Ordinary) (key key' : string) (v : value) :
  key <> key' ->
  lookup (properties (assign o key v)) key' = lookup (properties o) key'.
Proof.
  intros Hne. unfold assign.
  destruct (findIn o key); cbn [properties].
  - now apply lookup_define_other.
  - now destruct (_ || _).
  - now apply lookup_define_other.
Qed.

Lemma assign_same (o : Ordinary) (key : string) (v : value) :
  key <> "__proto__" ->
  lookup (properties (assign o key v)) key = Some v.
Proof.
  intros Hne. unfold assign.
  destruct (findIn o key) eqn:E; cbn [properties].
  - apply lookup_define_same.
  - apply findIn_accessor in E. contradiction.
  - apply lookup_define_same.
Qed.

Lemma assign_prototype (o : Ordinary) (key : string) (v : value) :
  key <> "__proto__" -> prototype (assign o key v) = prototype o.
Proof.
  intros Hne. unfold assign.
  destruct (findIn o key) eqn:E; cbn [prototype]; try reflexivity.
  apply findIn_accessor in E. contradiction.
Qed.

Lemma own_props_toValue (o : Ordinary) :
  own_props (toValue o) = properties o.
Proof.
  unfold toValue. destruct (prototype o) as [| | | | | | | | |[]]; reflexivity.
Qed.

(** Reading a key other than [__proto__] and [length] from an object
    whose prototype is a builtin one: the own property, or
    [undefined]. *)
Lemma get_JObj (ps : props) (key : string) :
  key <> "__proto__" ->
  get (JObj ps) key
  = match lookup ps key with Some x => x | None => JUndefined end.
Proof.
  intros Hne. unfold get. cbn [find].
  destruct (lookup ps key); [reflexivity|].
  unfold inObjectPrototype.
  destruct (String.eqb_spec key "__proto__"); [contradiction | reflexivity].
Qed.

(** An own property is what a read gives. *)
Lemma get_own (v : value) (key : string) (x : value) :
  lookup (own_props v) key = Some x -> get v key = x.
Proof.
  unfold get.
  destruct v as [| | | | | | ps | xs | proto ps | b]; cbn [own_props find lookup];
    try discriminate; intros ->; reflexivity.
Qed.

End Objects.

Section Enumeration.
Import JS.
Context {A : Type} (visit : string -> value -> A -> A).

Lemma visitProps_fold (seen : list string) (ps : props) (acc : A) :
  visitProps visit seen ps acc
  = fold_left (fun acc entry => visit (fst entry) (snd entry) acc) (filter (unseen seen) ps) acc.
Proof.
  revert acc. induction ps as [|[k v] rest IH]; intros acc; cbn [visitProps filter].
  - reflexivity.
  - rewrite IH. unfold unseen at 2. cbn [fst].
    destruct (existsb (String.eqb k) seen); reflexivity.
Qed.

Lemma visitElements_props (seen : list string) (i : nat) (xs : list value)
    (acc : A) :
  visitElements visit seen i xs acc = visitProps visit seen (indexed i xs) acc.
Proof.
  revert i acc. induction xs as [|x rest IH]; intros i acc; cbn; [reflexivity|].
  apply IH.
Qed.

Lemma forInFrom_entries (source : value) :
  forall (seen : list string) (acc : A),
    forInFrom visit seen source acc
    = fold_left (fun acc entry => visit (fst entry) (snd entry) acc) (entriesFrom seen source) acc.
Proof.
  induction source as [| | | | | | ps | xs | proto IH ps | b];
    intros seen acc; cbn [forInFrom entriesFrom]; try reflexivity.
  - apply visitProps_fold.
  - rewrite visitElements_props. apply visitProps_fold.
  - rewrite IH, fold_left_app, visitProps_fold. reflexivity.
Qed.

Lemma forIn_entries (source : value) (acc : A) :
  forIn visit source acc = fold_left (fun acc entry => visit (fst entry) (snd entry) acc) (entries source) acc.
Proof.
  apply forInFrom_entries.
Qed.

End Enumeration.

Section DeepMerge.
Import JS TestDataManager.

Lemma filter_unseen_nil (ps : props) : filter (unseen []) ps = ps.
Proof.
  induction ps as [|kv rest IH]; cbn; [reflexivity | now rewrite IH].
Qed.

Lemma entries_JObj (ps : props) : entries (JObj ps) = ps.
Proof.
  apply filter_unseen_nil.
Qed.

Lemma entries_JArr (xs : list value) : entries (JArr xs) = indexed 0 xs.
Proof.
  apply filter_unseen_nil.
Qed.

Lemma mergeCondition_split (sv tv : value) :
  String.eqb (typeof sv) "object" && not_null sv
  && String.eqb (typeof tv) "object" && not_null tv
  = is_object sv && is_object tv.
Proof.
  unfold is_object. now rewrite <- !andb_assoc.
Qed.

Lemma not_undefined_true (v : value) : v <> JUndefined -> not_undefined v = true.
Proof.
  destruct v; simpl; congruence.
Qed.

(** [deepMerge] is the loop over the properties that [for ... in]
    visits. *)
Lemma deepMerge_unfold (target source : value) :
  deepMerge target source
  = toValue (mergeLoop target (entries source) (spreadOf target)).
Proof.
  unfold mergeLoop.
  rewrite <- (forIn_entries
                (fun key sv result =>
                   mergeStep target key sv (deepMerge (get target key) sv)
                     result)).
  destruct source; reflexivity.
Qed.

Lemma mergeStep_other (target : value) (result : Ordinary) (k key : string)
    (sv merged : value) :
  k <> key ->
  lookup (properties (mergeStep target k sv merged result)) key
  = lookup (properties result) key.
Proof.
  intros Hne. unfold mergeStep.
  destruct (not_undefined sv); [|reflexivity].
  destruct (_ && _); now apply assign_other.
Qed.

Lemma mergeStep_prototype (target : value) (result : Ordinary) (k : string)
    (sv merged : value) :
  k <> "__proto__" ->
  prototype (mergeStep target k sv merged result) = prototype result.
Proof.
  intros Hne. unfold mergeStep.
  destruct (not_undefined sv); [|reflexivity].
  destruct (_ && _); now apply assign_prototype.
Qed.

Lemma mergeLoop_cons (target : value) (k : string) (sv : value)
    (rest : props) (result : Ordinary) :
  mergeLoop target ((k, sv) :: rest) result
  = mergeLoop target rest
      (mergeStep target k sv (deepMerge (get target k) sv) result).
Proof. reflexivity. Qed.

(** Properties of [source] other than [key] leave [result[key]] alone. *)
Lemma mergeLoop_absent (target : value) (visited : props) (result : Ordinary)
    (key : string) :
  ~ In key (keys visited) ->
  lookup (properties (mergeLoop target visited result)) key
  = lookup (properties result) key.
Proof.
  unfold mergeLoop. revert result.
  induction visited as [|[k sv] rest IH]; intros result Hnin; cbn [fold_left].
  - reflexivity.
  - cbn in Hnin. rewrite IH by tauto. cbn [fst snd].
    apply mergeStep_other. intros ->. apply Hnin. now left.
Qed.

(** With no key [__proto__] met, the prototype stays. *)
Lemma mergeLoop_prototype (target : value) (visited : props)
    (result : Ordinary) :
  ~ In "__proto__" (keys visited) ->
  prototype (mergeLoop target visited result) = prototype result.
Proof.
  unfold mergeLoop. revert result.
  induction visited as [|[k sv] rest IH]; intros result Hnin; cbn [fold_left].
  - reflexivity.
  - cbn in Hnin. rewrite IH by tauto. cbn [fst snd].
    apply mergeStep_prototype. intros ->. apply Hnin. now left.
Qed.

(** The property [key] of [source] decides [result[key]] alone. *)
Lemma mergeLoop_present (target : value) (visited : props)
    (result : Ordinary) (key : string) (sv : value) :
  NoDup (keys visited) -> key <> "__proto__" ->
  lookup visited key = Some sv ->
  lookup (properties (mergeLoop target visited result)) key
  = lookup (properties
              (mergeStep target key sv (deepMerge (get target key) sv)
                 result)) key.
Proof.
  intros Hnd Hp. unfold mergeLoop. revert result Hnd.
  induction visited as [|[k x] rest IH]; intros result Hnd Hl;
    cbn [fold_left lookup keys map fst snd] in *.
  - discriminate.
  - inversion Hnd as [|? ? Hnin Hnd']; subst.
    destruct (String.eqb_spec k key) as [->|Hk].
    + injection Hl as ->. now apply (mergeLoop_absent target rest).
    + rewrite (IH _ Hnd' Hl).
      unfold mergeStep at 1 3.
      destruct (not_undefined sv).
      * destruct (_ && _); rewrite !assign_same by assumption; reflexivity.
      * now apply mergeStep_other.
Qed.

(** The own property [key] of a merge, for a key other than
    [__proto__]. *)
Lemma deepMerge_own (target source : value) (key : string) :
  NoDup (keys (entries source)) -> key <> "__proto__" ->
  lookup (own_props (deepMerge target source)) key
  = match lookup (entries source) key with
    | None => lookup (own_props target) key
    | Some JUndefined => lookup (own_props target) key
    | Some sv =>
        Some (if is_object sv && is_object (get target key)
              then deepMerge (get target key) sv
              else sv)
    end.
Proof.
  intros Hnd Hp. rewrite deepMerge_unfold, own_props_toValue.
  destruct (lookup (entries source) key) as [sv|] eqn:Hl.
  - rewrite (mergeLoop_present _ _ _ _ _ Hnd Hp Hl). unfold mergeStep.
    rewrite mergeCondition_split.
    destruct sv; cbn [not_undefined]; try reflexivity;
      destruct (_ && _); now rewrite assign_same.
  - rewrite mergeLoop_absent by now apply lookup_None_keys. reflexivity.
Qed.

(** An override with no key [__proto__] leaves the prototype of the
    result the default one. *)
Lemma deepMerge_plain (target source : value) :
  ~ In "__proto__" (keys (entries source)) ->
  deepMerge target source
  = JObj (properties (mergeLoop target (entries source) (spreadOf target))).
Proof.
  intros Hnin. rewrite deepMerge_unfold. unfold toValue.
  now rewrite mergeLoop_prototype.
Qed.

(** A key [__proto__] of the override never becomes an own property of
    the result, unless the target has it as an own property. *)
Lemma mergeLoop_no_own_proto (target : value) (visited : props)
    (result : Ordinary) :
  NoDup (keys visited) ->
  prototype result = JBuiltin ObjectPrototype ->
  lookup (properties result) "__proto__" = None ->
  lookup (properties (mergeLoop target visited result)) "__proto__" = None.
Proof.
  revert result.
  induction visited as [|[k sv] rest IH]; intros result Hnd Hproto Hown.
  - exact Hown.
  - rewrite mergeLoop_cons. cbn [keys map fst] in Hnd.
    inversion Hnd as [|? ? Hnin Hnd']; subst.
    destruct (String.eqb_spec k "__proto__") as [->|Hk].
    + rewrite (mergeLoop_absent target rest _ _ Hnin).
      unfold mergeStep.
      assert (Hassign : forall v,
                lookup (properties (assign result "__proto__" v)) "__proto__"
                = None).
      { intros v. unfold assign, findIn. rewrite Hown, Hproto. cbn.
        destruct (_ || _); exact Hown. }
      destruct (not_undefined sv); [|exact Hown].
      destruct (_ && _); apply Hassign.
    + apply IH; [exact Hnd' | |].
      * now rewrite mergeStep_prototype.
      * now rewrite mergeStep_other.
Qed.

End DeepMerge.

Section DeepMergeRule.
Import JS TestDataManager.





End DeepMergeRule.

Section ValidateConfig.
Import JS ConfigManager.

Lemma includes_In (xs : list string) (x : string) :
  includes xs x = true <-> In x xs.
Proof.
  unfold includes. rewrite existsb_exists. split.
  - intros [y [Hin Heq]]. apply String.eqb_eq in Heq. now subst.
  - intros Hin. exists x. split; [assumption | apply String.eqb_refl].
Qed.

(** C2.  In every environment [validateConfig] throws exactly when the
    resolved browser is not one of the four names, or the resolved base
    URL does not start with "http", or the resolved width is below 320 or
    the height below 240.  It returns otherwise, and a timeout below 1000
    then adds the warning and nothing else. *)
Theorem validateConfig_throws_iff (env : Env) :
  ((exists e, snd (validateConfig env) = Thrown e) <->
     (~ In (browser (getBrowserConfig env))
           ["chromium"; "firefox"; "webkit"; "chrome"]
      \/ startsWith (baseURL (getTestConfig env)) "http" = false
      \/ lt (width (viewport (getBrowserConfig env))) 320 = true
      \/ lt (height (viewport (getBrowserConfig env))) 240 = true))
  /\ ((~ exists e, snd (validateConfig env) = Thrown e) ->
      validateConfig env
      = (if lt (timeout (getBrowserConfig env)) 1000
         then [timeoutWarning] else [],
         Normal tt)).
Proof.
  unfold validateConfig.
  destruct (includes validBrowsers (browser (getBrowserConfig env))) eqn:Hb;
    cbn [negb].
  - apply includes_In in Hb.
    destruct (startsWith (baseURL (getTestConfig env)) "http") eqn:Hu;
      cbn [negb].
    + destruct (lt (width (viewport (getBrowserConfig env))) 320) eqn:Hw;
        cbn [orb].
      * split.
        -- split; [intros _; tauto | intros _; eexists; reflexivity].
        -- intros Hno. exfalso. apply Hno. eexists; reflexivity.
      * destruct (lt (height (viewport (getBrowserConfig env))) 240) eqn:Hh.
        -- split.
           ++ split; [intros _; tauto | intros _; eexists; reflexivity].
           ++ intros Hno. exfalso. apply Hno. eexists; reflexivity.
        -- split.
           ++ split.
              ** intros [e He]. discriminate He.
              ** intros [Hn | [Hn | [Hn | Hn]]];
                   [contradiction | discriminate..].
           ++ intros _. reflexivity.
    + split.
      * split; [intros _; tauto | intros _; eexists; reflexivity].
      * intros Hno. exfalso. apply Hno. eexists; reflexivity.
  - assert (Hnin : ~ In (browser (getBrowserConfig env)) validBrowsers).
    { intros Hin. apply includes_In in Hin. congruence. }
    split.
    + split; [intros _; now left | intros _; eexists; reflexivity].
    + intros Hno. exfalso. apply Hno. eexists; reflexivity.
Qed.

(** The validator reads five variables and no other. *)
Lemma validateConfig_reads (env env' : Env) :
  (forall k,
      In k ["BROWSER"; "BASE_URL"; "VIEWPORT_WIDTH"; "VIEWPORT_HEIGHT";
            "TIMEOUT"] ->
      env k = env' k) ->
  validateConfig env = validateConfig env'.
Proof.
  intros H. unfold validateConfig, getBrowserConfig, getTestConfig.
  cbn [browser viewport width height timeout baseURL].
  rewrite (H "BROWSER"), (H "BASE_URL"), (H "VIEWPORT_WIDTH"),
    (H "VIEWPORT_HEIGHT"), (H "TIMEOUT") by (simpl; tauto).
  reflexivity.
Qed.

(** A width that does not parse is [NaN], and [NaN < 320] is false: the
    validator returns. *)
Example validateConfig_unparsed_width :
  validateConfig (fun k => if String.eqb k "VIEWPORT_WIDTH" then Some "wide"
                           else None)
  = ([], Normal tt).
Proof.
  reflexivity.
Qed.

Example validateConfig_small_timeout :
  validateConfig (fun k => if String.eqb k "TIMEOUT" then Some "500"
                           else None)
  = ([timeoutWarning], Normal tt).
Proof.
  reflexivity.
Qed.

Example validateConfig_unknown_browser :
  snd (validateConfig (fun k => if String.eqb k "BROWSER" then Some "Chrome"
                                else None))
  = Thrown {| message :=
      "Invalid browser: Chrome. Valid options: chromium, firefox, webkit, chrome" |}.
Proof.
  reflexivity.
Qed.

End ValidateConfig.

Section Summary.
Import CucumberReport ReportSpec.

(** What the loops do to the variables, read through the tallies and the
    flags. *)
Lemma stepBody_effect (v : Vars) (st : Step) :
  features (summary (stepBody v st)) = features (summary v)
  /\ scenarios (summary (stepBody v st)) = scenarios (summary v)
  /\ successRate (summary (stepBody v st)) = successRate (summary v)
  /\ featureHasFailed (stepBody v st)
     = featureHasFailed v || hasStatus "failed" st
  /\ scenarioHasFailed (stepBody v st)
     = scenarioHasFailed v || hasStatus "failed" st
  /\ scenarioHasSkipped (stepBody v st)
     = scenarioHasSkipped v || hasStatus "skipped" st.
Proof.
  unfold stepBody, hasStatus.
  destruct (result st) as [res|]; cbn.
  - destruct (String.eqb_spec (status res) "passed") as [E|_].
    + rewrite E; cbn.
      destruct (duration res) as [d|]; [destruct (d =? 0)%Z|]; cbn;
        rewrite !orb_false_r; auto 10.
    + destruct (String.eqb_spec (status res) "failed") as [E|_].
      * rewrite E; cbn.
        destruct (duration res) as [d|]; [destruct (d =? 0)%Z|]; cbn;
          rewrite !orb_true_r, ?orb_false_r; auto 10.
      * destruct (String.eqb_spec (status res) "skipped") as [E|_].
        -- destruct (duration res) as [d|]; [destruct (d =? 0)%Z|]; cbn;
             rewrite !orb_true_r, ?orb_false_r; auto 10.
        -- destruct (duration res) as [d|]; [destruct (d =? 0)%Z|]; cbn;
             rewrite !orb_false_r; auto 10.
  - rewrite !orb_false_r; auto 10.
Qed.

Lemma stepLoop_effect (ss : list Step) (v : Vars) :
  features (summary (fold_left stepBody ss v)) = features (summary v)
  /\ scenarios (summary (fold_left stepBody ss v)) = scenarios (summary v)
  /\ successRate (summary (fold_left stepBody ss v)) = successRate (summary v)
  /\ featureHasFailed (fold_left stepBody ss v)
     = featureHasFailed v || existsb (hasStatus "failed") ss
  /\ scenarioHasFailed (fold_left stepBody ss v)
     = scenarioHasFailed v || existsb (hasStatus "failed") ss
  /\ scenarioHasSkipped (fold_left stepBody ss v)
     = scenarioHasSkipped v || existsb (hasStatus "skipped") ss.
Proof.
  revert v. induction ss as [|st ss IH]; intros v; cbn [fold_left existsb].
  - rewrite !orb_false_r. auto 10.
  - destruct (IH (stepBody v st)) as (H1 & H2 & H3 & H4 & H5 & H6).
    destruct (stepBody_effect v st) as (G1 & G2 & G3 & G4 & G5 & G6).
    rewrite H1, H2, H3, H4, H5, H6, G1, G2, G3, G4, G5, G6.
    rewrite !orb_assoc. auto 10.
Qed.

Lemma elementBody_scenario (v : Vars) (e : Element) :
  isScenario e = true ->
  features (summary (elementBody v e)) = features (summary v)
  /\ scenarios (summary (elementBody v e))
     = bump (classify e) (scenarios (summary v))
  /\ successRate (summary (elementBody v e)) = successRate (summary v)
  /\ featureHasFailed (elementBody v e)
     = featureHasFailed v || verdictEqb (classify e) Failed.
Proof.
  intros Hs. unfold isScenario in Hs. unfold elementBody. rewrite Hs.
  unfold classify, stepsOf.
  destruct (steps e) as [ss|].
  - set (v0 := setScenarioHasSkipped false
                 (setScenarioHasFailed false (onScenarios incTotal v))).
    destruct (stepLoop_effect ss v0) as (H1 & H2 & H3 & H4 & H5 & H6).
    cbn in H1, H2, H3, H4, H5, H6.
    rewrite H5, H6.
    destruct (existsb (hasStatus "failed") ss);
      [|destruct (existsb (hasStatus "skipped") ss)]; cbn;
      rewrite ?H1, ?H2, ?H3, ?H4, ?orb_false_r; auto.
  - cbn. rewrite orb_false_r. auto.
Qed.

Lemma elementBody_other (v : Vars) (e : Element) :
  isScenario e = false -> elementBody v e = v.
Proof.
  unfold isScenario, elementBody. now intros ->.
Qed.

Lemma tally_eq (t u : Tally) :
  total t = total u -> passed t = passed u -> failed t = failed u ->
  skipped t = skipped u -> t = u.
Proof.
  destruct t, u; cbn; intros; subst; reflexivity.
Qed.

Lemma addScenarios_nil (t : Tally) : addScenarios [] t = t.
Proof.
  apply tally_eq; cbn; lia.
Qed.

Lemma addScenarios_cons (e : Element) (es : list Element) (t : Tally) :
  addScenarios (e :: es) t = addScenarios es (bump (classify e) t).
Proof.
  unfold addScenarios, countVerdict. cbn [filter List.length].
  destruct (classify e); apply tally_eq; cbn; lia.
Qed.

Lemma addScenarios_app (es es' : list Element) (t : Tally) :
  addScenarios (es ++ es') t = addScenarios es' (addScenarios es t).
Proof.
  revert t. induction es as [|e es IH]; intros t.
  - now rewrite addScenarios_nil.
  - cbn [app]. now rewrite !addScenarios_cons, IH.
Qed.

Lemma elementLoop_effect (es : list Element) (v : Vars) :
  features (summary (fold_left elementBody es v)) = features (summary v)
  /\ scenarios (summary (fold_left elementBody es v))
     = addScenarios (filter isScenario es) (scenarios (summary v))
  /\ successRate (summary (fold_left elementBody es v))
     = successRate (summary v)
  /\ featureHasFailed (fold_left elementBody es v)
     = featureHasFailed v
       || existsb (fun e => verdictEqb (classify e) Failed)
            (filter isScenario es).
Proof.
  revert v. induction es as [|e es IH]; intros v; cbn [fold_left filter].
  - rewrite addScenarios_nil. cbn. rewrite orb_false_r. auto.
  - destruct (IH (elementBody v e)) as (H1 & H2 & H3 & H4).
    rewrite H1, H2, H3, H4.
    destruct (isScenario e) eqn:Hs.
    + destruct (elementBody_scenario v e Hs) as (G1 & G2 & G3 & G4).
      rewrite G1, G2, G3, G4, addScenarios_cons. cbn [existsb].
      rewrite orb_assoc. auto.
    + rewrite (elementBody_other v e Hs). auto.
Qed.

Lemma featureBody_effect (v : Vars) (f : Feature) :
  features (summary (featureBody v f)) = addFeatures [f] (features (summary v))
  /\ scenarios (summary (featureBody v f))
     = addScenarios (scenariosOf f) (scenarios (summary v))
  /\ successRate (summary (featureBody v f)) = successRate (summary v).
Proof.
  unfold featureBody.
  set (v0 := setFeatureHasFailed false (onFeatures incFTotal v)).
  set (v1 := match elements f with
             | Some es => fold_left elementBody es v0
             | None => v0
             end).
  assert (H : features (summary v1) = incFTotal (features (summary v))
              /\ scenarios (summary v1)
                 = addScenarios (scenariosOf f) (scenarios (summary v))
              /\ successRate (summary v1) = successRate (summary v)
              /\ featureHasFailed v1 = featureFailed f).
  { unfold v1, featureFailed, scenariosOf.
    destruct (elements f) as [es|].
    - destruct (elementLoop_effect es v0) as (H1 & H2 & H3 & H4).
      cbn in H1, H2, H3, H4. auto.
    - cbn. rewrite addScenarios_nil. auto. }
  destruct H as (H1 & H2 & H3 & H4).
  unfold addFeatures. cbn [filter List.length]. rewrite H4.
  destruct (featureFailed f); cbn; rewrite H1, H2, H3;
    repeat split; unfold incFFailed, incFPassed, incFTotal; cbn; f_equal; lia.
Qed.

Lemma featureLoop_effect (fs : list Feature) (v : Vars) :
  features (summary (fold_left featureBody fs v))
  = addFeatures fs (features (summary v))
  /\ scenarios (summary (fold_left featureBody fs v))
     = addScenarios (allScenarios fs) (scenarios (summary v))
  /\ successRate (summary (fold_left featureBody fs v))
     = successRate (summary v).
Proof.
  revert v. induction fs as [|f fs IH]; intros v; cbn [fold_left].
  - cbn. rewrite addScenarios_nil. repeat split.
    destruct (features (summary v)); unfold addFeatures; cbn; f_equal; lia.
  - destruct (IH (featureBody v f)) as (H1 & H2 & H3).
    destruct (featureBody_effect v f) as (G1 & G2 & G3).
    rewrite H1, H2, H3, G1, G2, G3. repeat split.
    + unfold addFeatures. cbn [filter List.length ftotal fpassed ffailed].
      destruct (featureFailed f); cbn; f_equal; lia.
    + unfold allScenarios. cbn [flat_map]. now rewrite addScenarios_app.
Qed.

(** The tallies of [calculateSummary], in closed form. *)
Lemma calculateSummary_tallies (report : list Feature) :
  features (calculateSummary report)
  = {| ftotal := List.length report;
       fpassed := List.length (filter (fun f => negb (featureFailed f)) report);
       ffailed := List.length (filter featureFailed report) |}
  /\ scenarios (calculateSummary report)
     = {| total := List.length (allScenarios report);
          passed := countVerdict Passed (allScenarios report);
          failed := countVerdict Failed (allScenarios report);
          skipped := countVerdict Skipped (allScenarios report) |}.
Proof.
  destruct (featureLoop_effect report initialVars) as (H1 & H2 & _).
  unfold calculateSummary. cbn [features scenarios]. rewrite H1, H2.
  split; reflexivity.
Qed.

Lemma addSteps_nil (t : Tally) : addSteps [] t = t.
Proof.
  apply tally_eq; cbn; lia.
Qed.

Lemma addSteps_app (ss ss' : list Step) (t : Tally) :
  addSteps (ss ++ ss') t = addSteps ss' (addSteps ss t).
Proof.
  unfold addSteps, countStatus.
  apply tally_eq; cbn; rewrite ?filter_app, !length_app; lia.
Qed.

Lemma stepBody_steps (v : Vars) (st : Step) :
  steps_ (summary (stepBody v st)) = addSteps [st] (steps_ (summary v)).
Proof.
  unfold stepBody, addSteps, countStatus, hasStatus. cbn [filter].
  destruct (result st) as [res|]; cbn.
  - destruct (String.eqb_spec (status res) "passed") as [E|_].
    + rewrite E; cbn.
      destruct (duration res) as [d|]; [destruct (d =? 0)%Z|]; cbn;
        apply tally_eq; cbn; lia.
    + destruct (String.eqb_spec (status res) "failed") as [E|_].
      * rewrite E; cbn.
        destruct (duration res) as [d|]; [destruct (d =? 0)%Z|]; cbn;
          apply tally_eq; cbn; lia.
      * destruct (String.eqb_spec (status res) "skipped") as [E|_];
          destruct (duration res) as [d|]; try destruct (d =? 0)%Z; cbn;
          apply tally_eq; cbn; lia.
  - apply tally_eq; cbn; lia.
Qed.

Lemma stepLoop_steps (ss : list Step) (v : Vars) :
  steps_ (summary (fold_left stepBody ss v)) = addSteps ss (steps_ (summary v)).
Proof.
  revert v. induction ss as [|st ss IH]; intros v; cbn [fold_left].
  - now rewrite addSteps_nil.
  - rewrite IH, stepBody_steps.
    change (st :: ss) with ([st] ++ ss)%list. now rewrite addSteps_app.
Qed.

Lemma elementBody_steps (v : Vars) (e : Element) :
  steps_ (summary (elementBody v e))
  = if isScenario e then addSteps (stepsOf e) (steps_ (summary v))
    else steps_ (summary v).
Proof.
  unfold elementBody, isScenario, stepsOf.
  destruct (String.eqb (type e) "scenario"); [|reflexivity].
  set (v0 := setScenarioHasSkipped false
               (setScenarioHasFailed false (onScenarios incTotal v))).
  assert (H : steps_ (summary (match steps e with
                               | Some ss => fold_left stepBody ss v0
                               | None => v0
                               end))
              = addSteps (match steps e with Some ss => ss | None => [] end)
                  (steps_ (summary v))).
  { destruct (steps e) as [ss|].
    - now rewrite stepLoop_steps.
    - now rewrite addSteps_nil. }
  destruct (scenarioHasFailed _); [|destruct (scenarioHasSkipped _)];
    cbn; exact H.
Qed.

Lemma elementLoop_steps (es : list Element) (v : Vars) :
  steps_ (summary (fold_left elementBody es v))
  = addSteps (flat_map stepsOf (filter isScenario es)) (steps_ (summary v)).
Proof.
  revert v. induction es as [|e es IH]; intros v; cbn [fold_left filter].
  - cbn. now rewrite addSteps_nil.
  - rewrite IH, elementBody_steps.
    destruct (isScenario e); [|reflexivity].
    cbn [flat_map]. now rewrite addSteps_app.
Qed.

Lemma featureBody_steps (v : Vars) (f : Feature) :
  steps_ (summary (featureBody v f))
  = addSteps (flat_map stepsOf (scenariosOf f)) (steps_ (summary v)).
Proof.
  unfold featureBody, scenariosOf.
  set (v0 := setFeatureHasFailed false (onFeatures incFTotal v)).
  assert (H : steps_ (summary (match elements f with
                               | Some es => fold_left elementBody es v0
                               | None => v0
                               end))
              = addSteps
                  (flat_map stepsOf
                     (filter isScenario
                        (match elements f with Some es => es | None => [] end)))
                  (steps_ (summary v))).
  { destruct (elements f) as [es|].
    - now rewrite elementLoop_steps.
    - cbn. now rewrite addSteps_nil. }
  destruct (featureHasFailed _); cbn; exact H.
Qed.

Lemma featureLoop_steps (fs : list Feature) (v : Vars) :
  steps_ (summary (fold_left featureBody fs v))
  = addSteps (allSteps fs) (steps_ (summary v)).
Proof.
  revert v. induction fs as [|f fs IH]; intros v; cbn [fold_left].
  - cbn. now rewrite addSteps_nil.
  - rewrite IH, featureBody_steps.
    unfold allSteps, allScenarios. cbn [flat_map].
    now rewrite flat_map_app, addSteps_app.
Qed.

Lemma calculateSummary_steps (report : list Feature) :
  steps_ (calculateSummary report)
  = {| total := List.length (allSteps report);
       passed := countStatus "passed" (allSteps report);
       failed := countStatus "failed" (allSteps report);
       skipped := countStatus "skipped" (allSteps report) |}.
Proof.
  unfold calculateSummary. cbn [steps_].
  now rewrite featureLoop_steps.
Qed.

(** Every scenario has exactly one verdict, every feature is failed or
    not, every step has at most one of the three statuses. *)
Lemma verdicts_partition (es : list Element) :
  List.length es
  = countVerdict Passed es + countVerdict Failed es + countVerdict Skipped es.
Proof.
  unfold countVerdict.
  induction es as [|e es IH]; cbn [filter List.length]; [reflexivity|].
  destruct (classify e); cbn; lia.
Qed.

Lemma features_partition (fs : list Feature) :
  List.length fs
  = List.length (filter (fun f => negb (featureFailed f)) fs)
    + List.length (filter featureFailed fs).
Proof.
  induction fs as [|f fs IH]; cbn [filter List.length]; [reflexivity|].
  destruct (featureFailed f); cbn; lia.
Qed.

Lemma status_cases (st : Step) :
  (hasStatus "passed" st = true /\ hasStatus "failed" st = false
   /\ hasStatus "skipped" st = false)
  \/ (hasStatus "passed" st = false /\ hasStatus "failed" st = true
      /\ hasStatus "skipped" st = false)
  \/ (hasStatus "passed" st = false /\ hasStatus "failed" st = false
      /\ hasStatus "skipped" st = true)
  \/ (hasStatus "passed" st = false /\ hasStatus "failed" st = false
      /\ hasStatus "skipped" st = false).
Proof.
  unfold hasStatus. destruct (result st) as [res|]; [|tauto].
  destruct (String.eqb_spec (status res) "passed") as [E|_];
    [rewrite E; cbn; tauto|].
  destruct (String.eqb_spec (status res) "failed") as [E|_];
    [rewrite E; cbn; tauto|].
  destruct (String.eqb (status res) "skipped"); tauto.
Qed.

Lemma statuses_partition (ss : list Step) :
  List.length ss
  = countStatus "passed" ss + countStatus "failed" ss
    + countStatus "skipped" ss + List.length (filter uncounted ss).
Proof.
  unfold countStatus.
  induction ss as [|st ss IH]; cbn [filter List.length]; [reflexivity|].
  unfold uncounted at 1.
  destruct (status_cases st) as
    [(-> & -> & ->)|[(-> & -> & ->)|[(-> & -> & ->)|(-> & -> & ->)]]];
    cbn [negb orb List.length]; lia.
Qed.

Local Open Scope Z_scope.

Lemma pow2_pos (e : Z) : 0 < 2 ^ Z.max e 0.
Proof.
  apply Z.pow_pos_nonneg; lia.
Qed.

(** Nearest, ties to even: at most half a unit from the fraction. *)
Lemma nearest_half (n d : Z) :
  0 < d -> 0 <= n ->
  let q := n / d in
  let r := n mod d in
  let Q := if (d <? 2 * r) || ((d =? 2 * r) && Z.odd q) then q + 1 else q in
  2 * Z.abs (Q * d - n) <= d /\ q <= Q.
Proof.
  intros Hd Hn q r Q.
  pose proof (Z.div_mod n d ltac:(lia)) as Hdm.
  pose proof (Z.mod_pos_bound n d Hd) as Hr.
  fold q r in Hdm, Hr. subst Q.
  destruct (Z.ltb_spec d (2 * r)) as [H1|H1]; cbn [orb].
  - split; [|lia]. replace ((q + 1) * d - n) with (d - r) by lia. lia.
  - destruct (Z.eqb_spec d (2 * r)) as [H2|H2]; cbn [andb].
    + destruct (Z.odd q).
      * split; [|lia]. replace ((q + 1) * d - n) with (d - r) by lia. lia.
      * split; [|lia]. replace (q * d - n) with (- r) by lia. lia.
    + split; [|lia]. replace (q * d - n) with (- r) by lia. lia.
Qed.

(** The scaled quotient has 53 bits at least. *)
Lemma scaled_quotient (num den : Z) :
  0 < num -> 0 < den ->
  let l := Z.log2 num - Z.log2 den in
  2 ^ 52 * (den * 2 ^ Z.max (l - 53) 0) <= num * 2 ^ Z.max (- (l - 53)) 0.
Proof.
  intros Hnum Hden l.
  pose proof (Z.log2_spec num Hnum) as [Ha1 Ha2].
  pose proof (Z.log2_spec den Hden) as [Hb1 Hb2].
  pose proof (Z.log2_nonneg num) as Ha. pose proof (Z.log2_nonneg den) as Hb.
  set (a := Z.log2 num) in *. set (b := Z.log2 den) in *.
  destruct (Z.le_gt_cases 53 l) as [Hl|Hl].
  - rewrite (Z.max_l (l - 53) 0), (Z.max_r (- (l - 53)) 0) by lia.
    rewrite Z.pow_0_r, Z.mul_1_r.
    (* den * 2^(l-1) < 2^(b+1) * 2^(l-1) = 2^a <= num *)
    assert (E : 2 ^ 52 * 2 ^ (l - 53) = 2 ^ (l - 1))
      by (rewrite <- Z.pow_add_r by lia; f_equal; lia).
    assert (E2 : 2 ^ Z.succ b * 2 ^ (l - 1) = 2 ^ a)
      by (rewrite <- Z.pow_add_r by lia; f_equal; subst l; lia).
    assert (Hp : 0 < 2 ^ (l - 1)) by (apply Z.pow_pos_nonneg; lia).
    replace (2 ^ 52 * (den * 2 ^ (l - 53))) with (den * 2 ^ (l - 1))
      by (rewrite <- E; ring).
    nia.
  - rewrite (Z.max_r (l - 53) 0), (Z.max_l (- (l - 53)) 0) by lia.
    rewrite Z.pow_0_r, Z.mul_1_r.
    (* num * 2^(53-l) >= 2^a * 2^(53-l) = 2^(b+53) = 2^52 * 2^(b+1) > 2^52 den *)
    assert (E : 2 ^ a * 2 ^ (- (l - 53)) = 2 ^ 52 * 2 ^ Z.succ b)
      by (rewrite <- !Z.pow_add_r by lia; f_equal; subst l; lia).
    assert (Hp : 0 < 2 ^ (- (l - 53))) by (apply Z.pow_pos_nonneg; lia).
    nia.
Qed.

(** The double nearest to a positive fraction: its relative error is at
    most 2^-53. *)
Lemma roundNearestEven_error (num den : Z) :
  0 < num -> 0 < den ->
  let x := roundNearestEven num den in
  0 < fst x
  /\ 2 ^ 53 * Z.abs (fst x * 2 ^ Z.max (snd x) 0 * den
                     - num * 2 ^ Z.max (- snd x) 0)
     <= num * 2 ^ Z.max (- snd x) 0.
Proof.
  intros Hnum Hden. unfold roundNearestEven. cbv beta zeta.
  set (l := Z.log2 num - Z.log2 den).
  set (e := if 2 ^ 52 <=? num * 2 ^ Z.max (- (l - 52)) 0
                           / (den * 2 ^ Z.max (l - 52) 0)
            then l - 52 else l - 53).
  set (n := num * 2 ^ Z.max (- e) 0).
  set (d := den * 2 ^ Z.max e 0).
  assert (Hd : 0 < d) by (subst d; pose proof (pow2_pos e); nia).
  assert (Hn : 0 <= n) by (subst n; pose proof (pow2_pos (- e)); nia).
  assert (Hq : 2 ^ 52 <= n / d).
  { pose proof (scaled_quotient num den Hnum Hden) as Hs.
    cbv zeta in Hs. fold l in Hs.
    subst n d e.
    destruct (Z.leb_spec (2 ^ 52)
                (num * 2 ^ Z.max (- (l - 52)) 0
                 / (den * 2 ^ Z.max (l - 52) 0))) as [H|H].
    - exact H.
    - apply Z.div_le_lower_bound.
      + pose proof (pow2_pos (l - 53)). nia.
      + lia. }
  destruct (nearest_half n d Hd Hn) as [Hhalf Hle]. cbv zeta in Hhalf, Hle.
  pose proof (Z.mul_div_le n d Hd) as Hfloor.
  assert (Hbig : 2 ^ 52 * d <= n) by nia.
  destruct ((d <? 2 * (n mod d)) || ((d =? 2 * (n mod d)) && Z.odd (n / d)));
    cbn [fst snd];
    (split; [lia|]);
    match goal with
    | |- context [Z.abs (?Q * 2 ^ Z.max e 0 * den - ?m)] =>
        replace (Q * 2 ^ Z.max e 0 * den - m) with (Q * d - n)
          by (subst d n; ring)
    end;
    fold n; lia.
Qed.

Lemma scaled_bound (w x d : Z) :
  0 <= w -> Z.abs x <= d -> Z.abs (w * x) <= w * d.
Proof.
  intros Hw Hx. rewrite Z.abs_mul, (Z.abs_eq w) by assumption.
  now apply Z.mul_le_mono_nonneg_l.
Qed.

Lemma rate_bound (p t A B C D n : Z) :
  0 < p <= t -> 0 < B -> 0 < D -> 0 <= A ->
  2 ^ 53 * Z.abs (A * t - p * B) <= p * B ->
  2 ^ 53 * Z.abs (C * B - 100 * A * D) <= 100 * A * D ->
  2 * D * n <= 200 * C + D < 2 * D * (n + 1) ->
  2 ^ 38 * Z.abs (n * t - 10000 * p) <= (2 ^ 37 + 1) * t.
Proof.
  intros Hp HB HD HA H1 H2 H3.
  set (U := 2 ^ 53) in *.
  assert (HU : U = 9007199254740992) by reflexivity.
  set (X1 := 2 * D * n - 200 * C).
  set (X2 := C * B - 100 * A * D) in *.
  set (X3 := A * t - p * B) in *.
  set (Delta := n * t - 10000 * p).
  assert (I : 2 * D * B * Delta = B * t * X1 + 200 * t * X2 + 20000 * D * X3)
    by (subst Delta X1 X2 X3; ring).
  assert (B1 : Z.abs X1 <= D) by (subst X1; lia).
  (* everything times U * U *)
  assert (T1 : Z.abs (U * U * (B * t) * X1) <= U * U * (B * t) * D).
  { apply scaled_bound; [nia | exact B1]. }
  assert (T3 : Z.abs (U * (20000 * D) * (U * X3)) <= U * (20000 * D) * (p * B)).
  { apply scaled_bound; [nia|]. rewrite Z.abs_mul, (Z.abs_eq U) by lia.
    exact H1. }
  assert (T2 : Z.abs (U * (200 * t) * (U * X2))
               <= U * (200 * t) * (100 * A * D)).
  { apply scaled_bound; [nia|]. rewrite Z.abs_mul, (Z.abs_eq U) by lia.
    exact H2. }
  assert (HAt : U * (A * t) <= (U + 1) * (p * B)).
  { assert (U * X3 <= p * B) by lia. subst X3. lia. }
  assert (T2' : U * (200 * t) * (100 * A * D) <= 20000 * D * ((U + 1) * (p * B))).
  { replace (U * (200 * t) * (100 * A * D)) with (20000 * D * (U * (A * t)))
      by ring.
    apply Z.mul_le_mono_nonneg_l; [lia | exact HAt]. }
  assert (Hpt : D * (p * B) <= D * (t * B)).
  { apply Z.mul_le_mono_nonneg_l; [lia|].
    apply Z.mul_le_mono_nonneg_r; lia. }
  assert (Sum : Z.abs (U * U * (2 * D * B * Delta))
                <= (D * (t * B)) * (U * U + 20000 * (2 * U + 1))).
  { rewrite I.
    replace (U * U * (B * t * X1 + 200 * t * X2 + 20000 * D * X3))
      with (U * U * (B * t) * X1 + U * (200 * t) * (U * X2)
            + U * (20000 * D) * (U * X3)) by ring.
    pose proof (Z.abs_triangle
                  (U * U * (B * t) * X1 + U * (200 * t) * (U * X2))
                  (U * (20000 * D) * (U * X3))) as Tr1.
    pose proof (Z.abs_triangle (U * U * (B * t) * X1)
                  (U * (200 * t) * (U * X2))) as Tr2.
    assert (Hnp : 0 <= D * (p * B))
      by (apply Z.mul_nonneg_nonneg; [|apply Z.mul_nonneg_nonneg]; lia).
    replace (U * U * (B * t) * D) with (U * U * (D * (t * B))) in T1 by ring.
    replace (20000 * D * ((U + 1) * (p * B)))
      with (20000 * (U + 1) * (D * (p * B))) in T2' by ring.
    replace (U * (20000 * D) * (p * B))
      with (20000 * U * (D * (p * B))) in T3 by ring.
    replace (D * (t * B) * (U * U + 20000 * (2 * U + 1)))
      with (U * U * (D * (t * B)) + 20000 * (2 * U + 1) * (D * (t * B)))
      by ring.
    set (M := D * (t * B)) in *. set (Np := D * (p * B)) in *.
    rewrite HU in *. lia. }
  assert (HDB : 0 < D * B) by (apply Z.mul_pos_pos; lia).
  assert (Fin : 2 * (U * U) * Z.abs Delta
                <= t * (U * U + 20000 * (2 * U + 1))).
  { replace (U * U * (2 * D * B * Delta))
      with ((D * B) * (2 * (U * U) * Delta)) in Sum by ring.
    rewrite Z.abs_mul, (Z.abs_eq (D * B)) in Sum by lia.
    replace (D * (t * B) * (U * U + 20000 * (2 * U + 1)))
      with ((D * B) * (t * (U * U + 20000 * (2 * U + 1)))) in Sum by ring.
    apply Z.mul_le_mono_pos_l in Sum; [|exact HDB].
    rewrite Z.abs_mul, (Z.abs_eq (2 * (U * U))) in Sum by lia.
    exact Sum. }
  fold Delta. rewrite HU in Fin. lia.
Qed.

(** The hundredths written for [passed] of [total]. *)
Lemma hundredths_nearest (p t : Z) :
  0 <= p <= t -> 0 < t ->
  2 ^ 38 * Z.abs (hundredths (times (divide p t) 100) * t - 10000 * p)
  <= (2 ^ 37 + 1) * t.
Proof.
  intros Hp Ht. unfold divide.
  destruct (Z.eqb_spec p 0) as [->|Hp0].
  - replace (hundredths (times (0, 0) 100)) with 0 by reflexivity. lia.
  - destruct (roundNearestEven_error p t ltac:(lia) Ht) as [Hm H1].
    cbv zeta in Hm, H1.
    destruct (roundNearestEven p t) as [m e]. cbn [fst snd] in Hm, H1.
    unfold times.
    destruct (Z.eqb_spec m 0) as [E|_]; [lia|].
    pose proof (Z.pow_pos_nonneg 2 (Z.max e 0) ltac:(lia) ltac:(lia)) as HP.
    pose proof (Z.pow_pos_nonneg 2 (Z.max (- e) 0) ltac:(lia) ltac:(lia)) as HB.
    destruct (roundNearestEven_error (m * 100 * 2 ^ Z.max e 0)
                (2 ^ Z.max (- e) 0) ltac:(apply Z.mul_pos_pos; [lia | exact HP]) HB) as [Hm' H2].
    cbv zeta in Hm', H2.
    destruct (roundNearestEven (m * 100 * 2 ^ Z.max e 0) (2 ^ Z.max (- e) 0))
      as [m' e'].
    cbn [fst snd] in Hm', H2. unfold hundredths.
    pose proof (Z.pow_pos_nonneg 2 (Z.max e' 0) ltac:(lia) ltac:(lia)) as HP'.
    pose proof (Z.pow_pos_nonneg 2 (Z.max (- e') 0) ltac:(lia) ltac:(lia))
      as HD.
    apply (rate_bound p t (m * 2 ^ Z.max e 0) (2 ^ Z.max (- e) 0)
             (m' * 2 ^ Z.max e' 0) (2 ^ Z.max (- e') 0)).
    + lia.
    + exact HB.
    + exact HD.
    + apply Z.mul_nonneg_nonneg; lia.
    + exact H1.
    + replace (100 * (m * 2 ^ Z.max e 0) * 2 ^ Z.max (- e') 0)
        with (m * 100 * 2 ^ Z.max e 0 * 2 ^ Z.max (- e') 0) by ring.
      exact H2.
    + replace (2 * 100 * m' * 2 ^ Z.max e' 0)
        with (200 * (m' * 2 ^ Z.max e' 0)) by ring.
      set (N := 200 * (m' * 2 ^ Z.max e' 0) + 2 ^ Z.max (- e') 0).
      set (D := 2 ^ Z.max (- e') 0) in *.
      pose proof (Z.div_mod N (2 * D) ltac:(lia)) as Hdm.
      pose proof (Z.mod_pos_bound N (2 * D) ltac:(lia)) as Hr.
      lia.
Qed.

Lemma percentage_nearest (p t : nat) :
  (p <= t)%nat -> (0 < t)%nat ->
  exists n : Z,
    percentage p t = twoDecimals n
    /\ 0 <= n <= 10000
    /\ 2 ^ 38 * Z.abs (n * Z.of_nat t - 10000 * Z.of_nat p)
       <= (2 ^ 37 + 1) * Z.of_nat t
    /\ (Z.of_nat t < 2 ^ 37 ->
        2 * Z.abs (n * Z.of_nat t - 10000 * Z.of_nat p) <= Z.of_nat t).
Proof.
  intros Hp Ht.
  exists (hundredths (times (divide (Z.of_nat p) (Z.of_nat t)) 100)).
  pose proof (hundredths_nearest (Z.of_nat p) (Z.of_nat t) ltac:(lia)
                ltac:(lia)) as H.
  set (n := hundredths _) in *.
  split; [reflexivity|]. split; [|split; [exact H | intros Hsmall; lia]].
  change (2 ^ 38) with 274877906944 in H.
  change (2 ^ 37) with 137438953472 in H.
  split.
  - destruct (Z.le_gt_cases 0 n) as [Hn|Hn]; [exact Hn|exfalso].
    assert (n * Z.of_nat t <= (-1) * Z.of_nat t)
      by (apply Z.mul_le_mono_nonneg_r; lia).
    lia.
  - destruct (Z.le_gt_cases n 10000) as [Hn|Hn]; [exact Hn|exfalso].
    assert (10001 * Z.of_nat t <= n * Z.of_nat t)
      by (apply Z.mul_le_mono_nonneg_r; lia).
    lia.
Qed.

Local Close Scope Z_scope.

(** C3.  Among the elements of type 'scenario' of a report,
    [calculateSummary] counts as failed those with a failed step, as
    skipped those with a skipped step and no failed one, as passed the
    others; it counts as failed the features that hold a failed scenario.
    Its success rate is "0.00" with no scenario.  Otherwise it is a
    number of hundredths from 0 to 10000 written with two decimal places,
    and that number is passed / total * 100 to the nearest hundredth: it lies
    within half a hundredth, and 2^-38 of one, of the exact percentage,
    and within half a hundredth of it for fewer than 2^37 scenarios. *)
Theorem calculateSummary_classifies (report : list Feature) :
  total (scenarios (calculateSummary report))
  = List.length (allScenarios report)
  /\ failed (scenarios (calculateSummary report))
     = countVerdict Failed (allScenarios report)
  /\ skipped (scenarios (calculateSummary report))
     = countVerdict Skipped (allScenarios report)
  /\ passed (scenarios (calculateSummary report))
     = countVerdict Passed (allScenarios report)
  /\ ffailed (features (calculateSummary report))
     = List.length (filter featureFailed report)
  /\ fpassed (features (calculateSummary report))
     = List.length (filter (fun f => negb (featureFailed f)) report)
  /\ (allScenarios report = [] ->
      successRate (calculateSummary report) = "0.00")
  /\ (allScenarios report <> [] ->
      exists n : Z,
        successRate (calculateSummary report) = twoDecimals n
        /\ (0 <= n <= 10000)%Z
        /\ (2 ^ 38
            * Z.abs (n * Z.of_nat (List.length (allScenarios report))
                     - 10000
                       * Z.of_nat (countVerdict Passed (allScenarios report)))
            <= (2 ^ 37 + 1) * Z.of_nat (List.length (allScenarios report)))%Z
        /\ ((Z.of_nat (List.length (allScenarios report)) < 2 ^ 37)%Z ->
            (2 * Z.abs (n * Z.of_nat (List.length (allScenarios report))
                        - 10000
                          * Z.of_nat
                              (countVerdict Passed (allScenarios report)))
             <= Z.of_nat (List.length (allScenarios report)))%Z)).
Proof.
  destruct (calculateSummary_tallies report) as [Hf Hs].
  rewrite Hf, Hs. cbn [total passed failed skipped ffailed fpassed].
  assert (Hrate : successRate (calculateSummary report)
                  = match List.length (allScenarios report) with
                    | O => "0.00"
                    | S _ =>
                        percentage
                          (countVerdict Passed (allScenarios report))
                          (List.length (allScenarios report))
                    end).
  { destruct (featureLoop_effect report initialVars) as (_ & H2 & H3).
    unfold calculateSummary. cbn [successRate]. rewrite H2, H3.
    cbn [initialVars summary initialSummary scenarios successRate].
    unfold addScenarios. cbn [total passed Nat.add].
    destruct (List.length (allScenarios report)) as [|n]; reflexivity. }
  do 6 (split; [reflexivity|]).
  split.
  - intros Hnil. rewrite Hrate, Hnil. reflexivity.
  - intros Hne. rewrite Hrate.
    pose proof (verdicts_partition (allScenarios report)) as Hpart.
    destruct (allScenarios report) as [|e es] eqn:E; [contradiction|].
    cbn [List.length] in Hpart |- *.
    apply percentage_nearest; lia.
Qed.

(** C9.  In every summary the scenario total is the sum of passed, failed
    and skipped, and the feature total the sum of passed and failed; the
    step total is that sum plus the steps with no result or with another
    status, so it is at least the sum, and larger for some reports. *)
Theorem calculateSummary_totals (report : list Feature) :
  total (scenarios (calculateSummary report))
  = passed (scenarios (calculateSummary report))
    + failed (scenarios (calculateSummary report))
    + skipped (scenarios (calculateSummary report))
  /\ ftotal (features (calculateSummary report))
     = fpassed (features (calculateSummary report))
       + ffailed (features (calculateSummary report))
  /\ total (steps_ (calculateSummary report))
     = passed (steps_ (calculateSummary report))
       + failed (steps_ (calculateSummary report))
       + skipped (steps_ (calculateSummary report))
       + List.length (filter uncounted (allSteps report))
  /\ passed (steps_ (calculateSummary report))
     + failed (steps_ (calculateSummary report))
     + skipped (steps_ (calculateSummary report))
     <= total (steps_ (calculateSummary report))
  /\ (exists r : list Feature,
        passed (steps_ (calculateSummary r))
        + failed (steps_ (calculateSummary r))
        + skipped (steps_ (calculateSummary r))
        < total (steps_ (calculateSummary r))).
Proof.
  destruct (calculateSummary_tallies report) as [Hf Hs].
  rewrite Hf, Hs, calculateSummary_steps.
  cbn [total passed failed skipped ftotal fpassed ffailed].
  pose proof (statuses_partition (allSteps report)) as Hp.
  repeat split.
  - apply verdicts_partition.
  - apply features_partition.
  - exact Hp.
  - lia.
  - exists [ {| elements := Some
                 [ {| type := "scenario";
                      steps := Some
                        [ {| result := None |};
                          {| result := Some {| status := "pending";
                                               duration := None |} |};
                          {| result := Some {| status := "passed";
                                               duration := Some 5%Z |} |} ]
                   |} ] |} ].
    cbn. lia.
Qed.

(** One scenario passed out of three. *)
Example successRate_one_of_three : percentage 1 3 = "33.33".
Proof.
  reflexivity.
Qed.

(** 0.075 is not a double: the nearest one lies below it. *)
Example successRate_three_of_4000 : percentage 3 4000 = "0.07".
Proof.
  vm_compute. reflexivity.
Qed.

End Summary.

Section AfterAllSummary.
Import CucumberReport ReportSpec Hooks.

Lemma someStep_existsb (lit : string) (e : Element) :
  someStep (statusIs lit) e = existsb (hasStatus lit) (stepsOf e).
Proof.
  unfold someStep, stepsOf. destruct (steps e); reflexivity.
Qed.

Lemma countElement_effect (c : ScenarioCounts) (e : Element) :
  tallyOf (countElement c e)
  = if isScenario e then bump (classify e) (tallyOf c) else tallyOf c.
Proof.
  unfold countElement, isScenario, classify.
  destruct (String.eqb (type e) "scenario"); [|reflexivity].
  rewrite !someStep_existsb.
  destruct (existsb (hasStatus "failed") (stepsOf e));
    [|destruct (existsb (hasStatus "skipped") (stepsOf e))]; reflexivity.
Qed.

Lemma countElements_effect (es : list Element) (c : ScenarioCounts) :
  tallyOf (fold_left countElement es c)
  = addScenarios (filter isScenario es) (tallyOf c).
Proof.
  revert c. induction es as [|e es IH]; intros c; cbn [fold_left filter].
  - now rewrite addScenarios_nil.
  - rewrite IH, countElement_effect.
    destruct (isScenario e); [|reflexivity].
    now rewrite addScenarios_cons.
Qed.

Lemma countFeatures_effect (fs : list Feature) (c : ScenarioCounts) :
  tallyOf (fold_left countFeature fs c)
  = addScenarios (allScenarios fs) (tallyOf c).
Proof.
  revert c. induction fs as [|f fs IH]; intros c; cbn [fold_left].
  - cbn. now rewrite addScenarios_nil.
  - rewrite IH. unfold allScenarios. cbn [flat_map].
    rewrite addScenarios_app. f_equal.
    unfold countFeature, scenariosOf.
    destruct (elements f) as [es|].
    + apply countElements_effect.
    + cbn. now rewrite addScenarios_nil.
Qed.

(** C10.  On every report the four scenario counters of the [AfterAll]
    loop are the scenario counts of [calculateSummary]. *)
Theorem afterAll_agrees_with_calculateSummary (report : list Feature) :
  totalScenarios (afterAllCounts report)
  = total (scenarios (calculateSummary report))
  /\ passedScenarios (afterAllCounts report)
     = passed (scenarios (calculateSummary report))
  /\ failedScenarios (afterAllCounts report)
     = failed (scenarios (calculateSummary report))
  /\ skippedScenarios (afterAllCounts report)
     = skipped (scenarios (calculateSummary report)).
Proof.
  destruct (calculateSummary_tallies report) as [_ Hs].
  assert (H : tallyOf (afterAllCounts report)
              = scenarios (calculateSummary report)).
  { unfold afterAllCounts. rewrite countFeatures_effect, Hs.
    apply tally_eq; reflexivity. }
  rewrite <- H. repeat split.
Qed.

End AfterAllSummary.

Section Generator.
Import JS TestDataManager CustomerSpec.

(** A merge depends on its source through the properties visited. *)
Lemma deepMerge_entries (t s : value) :
  deepMerge t s = deepMerge t (JObj (entries s)).
Proof.
  now rewrite !deepMerge_unfold, entries_JObj.
Qed.

(** [get] on a merge, at a key that the target has as its own, by cases
    on the override's property. *)
Lemma deepMerge_get (t s : value) (key : string) :
  NoDup (keys (entries s)) -> key <> "__proto__" ->
  In key (keys (own_props t)) ->
  get (deepMerge t s) key
  = match lookup (entries s) key with
    | None => get t key
    | Some JUndefined => get t key
    | Some sv =>
        if is_object sv && is_object (get t key)
        then deepMerge (get t key) sv
        else sv
    end.
Proof.
  intros Hnd Hp Hin.
  assert (Hown := deepMerge_own t s key Hnd Hp).
  assert (Ht : exists x, lookup (own_props t) key = Some x).
  { destruct (lookup (own_props t) key) as [x|] eqn:E; [eauto|].
    apply lookup_None_keys in E. contradiction. }
  destruct Ht as [x Hx]. rewrite (get_own t key x Hx) in Hown |- *.
  apply get_own. rewrite Hown, Hx.
  destruct (lookup (entries s) key) as [sv|]; [|reflexivity].
  destruct sv; reflexivity.
Qed.

Lemma numerals_in_range (lo hi : Z) (width : nat) :
  (0 <= lo)%Z ->
  forallb (fun k => digitsOnly width (Number_toString (Z.of_nat k)))
          (seq (Z.to_nat lo) (Z.to_nat (hi - lo + 1))) = true ->
  forall n : Z, (lo <= n <= hi)%Z ->
  digitsOnly width (Number_toString n) = true.
Proof.
  intros Hlo Hall n Hn. rewrite forallb_forall in Hall.
  rewrite <- (Z2Nat.id n) by lia. apply Hall. apply in_seq. lia.
Qed.

Lemma faker_number_int_range (raw min max : Z) :
  (min <= max)%Z ->
  (min <= faker_number_int raw min max <= max)%Z.
Proof.
  intros Hle. unfold faker_number_int.
  pose proof (Z.mod_pos_bound raw (max - min + 1)). lia.
Qed.

Lemma ssnShaped_parts (a g s : string) :
  digitsOnly 3 a = true -> digitsOnly 2 g = true -> digitsOnly 4 s = true ->
  ssnShaped (a ++ "-" ++ g ++ "-" ++ s) = true.
Proof.
  unfold digitsOnly. intros Ha Hg Hs.
  apply andb_true_iff in Ha as [La Da].
  apply andb_true_iff in Hg as [Lg Dg].
  apply andb_true_iff in Hs as [Ls Ds].
  destruct a as [|a1 [|a2 [|a3 [|]]]]; try discriminate La.
  destruct g as [|g1 [|g2 [|]]]; try discriminate Lg.
  destruct s as [|s1 [|s2 [|s3 [|s4 [|]]]]]; try discriminate Ls.
  cbn -[isDigit] in Da, Dg, Ds |- *.
  repeat match goal with
         | H : _ && _ = true |- _ => apply andb_true_iff in H as [? ?]
         end.
  repeat match goal with
         | H : isDigit _ = true |- _ => rewrite H; clear H
         end.
  reflexivity.
Qed.

(** The generator's own SSN is always SSN-shaped. *)
Lemma generateSSN_shaped (f : Faker) : ssnShaped (generateSSN f) = true.
Proof.
  unfold generateSSN. apply ssnShaped_parts.
  - apply (numerals_in_range 100 999 3); [lia | vm_compute; reflexivity |].
    apply faker_number_int_range. lia.
  - apply (numerals_in_range 10 99 2); [lia | vm_compute; reflexivity |].
    apply faker_number_int_range. lia.
  - apply (numerals_in_range 1000 9999 4); [lia | vm_compute; reflexivity |].
    apply faker_number_int_range. lia.
Qed.

Lemma generated_ssn (cal : Calendar) (f : Faker) :
  get (get (generateInsuranceCustomer cal f noOverrides) "personalInfo") "ssn"
  = JStr (generateSSN f).
Proof.
  reflexivity.
Qed.

(** C7, as the code has it.  With no overrides the [ssn] field of every
    generated customer is an SSN-shaped string: the generator does
    guarantee the format.  Only an override of [personalInfo.ssn] can
    give a customer whose [ssn] is not SSN-shaped. *)
Theorem generated_ssn_always_shaped :
  (forall (cal : Calendar) (f : Faker),
      ssnFieldShaped (generateInsuranceCustomer cal f noOverrides) = true)
  /\ (forall (cal : Calendar) (f : Faker),
        ssnFieldShaped
          (generateInsuranceCustomer cal f
             (JObj [("personalInfo", JObj [("ssn", JStr "123456789")])]))
        = false).
Proof.
  split; intros cal f.
  - unfold ssnFieldShaped. rewrite generated_ssn. apply generateSSN_shaped.
  - reflexivity.
Qed.

(** C7 as stated fails: no call without overrides returns a customer
    whose [ssn] is not SSN-shaped. *)
Lemma unshaped_ssn_never_generated :
  ~ (exists (cal : Calendar) (f : Faker),
        ssnFieldShaped (generateInsuranceCustomer cal f noOverrides) = false).
Proof.
  intros (cal & f & H).
  unfold ssnFieldShaped in H. rewrite generated_ssn in H.
  rewrite generateSSN_shaped in H. discriminate H.
Qed.

Lemma list_ascii_of_append (a b : string) :
  list_ascii_of_string (a ++ b)
  = (list_ascii_of_string a ++ list_ascii_of_string b)%list.
Proof.
  induction a as [|c a IH]; cbn; [reflexivity | now rewrite IH].
Qed.

Lemma list_ascii_inj (a b : string) :
  list_ascii_of_string a = list_ascii_of_string b -> a = b.
Proof.
  intros H.
  rewrite <- (string_of_list_ascii_of_string a),
          <- (string_of_list_ascii_of_string b).
  now rewrite H.
Qed.

Lemma append_cancel_tail (a b r : string) : a ++ r = b ++ r -> a = b.
Proof.
  intros H. apply list_ascii_inj.
  apply (f_equal list_ascii_of_string) in H.
  rewrite !list_ascii_of_append in H. now apply app_inv_tail in H.
Qed.

Lemma append_cancel_head (p a b : string) : p ++ a = p ++ b -> a = b.
Proof.
  induction p as [|c p IH]; cbn; [auto|].
  intros [= H]. auto.
Qed.

(** The [address] of the returned customer: the generated one, merged
    with what the overrides hold for it. *)
Lemma returned_address (cal : Calendar) (f : Faker) (ops aps : props) :
  NoDup (keys ops) ->
  addressOverride ops = Some aps ->
  get (generateInsuranceCustomer cal f (JObj ops)) "address"
  = deepMerge (get (customerBeforeMerge cal f) "address") (JObj aps).
Proof.
  intros Hnd Hov. unfold generateInsuranceCustomer.
  rewrite deepMerge_get;
    [| now rewrite entries_JObj | discriminate | cbn; tauto].
  rewrite entries_JObj. unfold addressOverride in Hov.
  destruct (lookup ops "address") as [v|].
  - destruct (is_object v) eqn:Hv.
    + assert (E : aps = entries v)
        by (destruct v; try discriminate Hv;
            cbn [is_object typeof not_null String.eqb Ascii.eqb Bool.eqb andb]
              in Hov; congruence).
      subst aps. rewrite <- deepMerge_entries.
      destruct v; try discriminate Hv; reflexivity.
    + destruct v; try discriminate Hov; try discriminate Hv.
      injection Hov as <-. reflexivity.
  - injection Hov as <-. reflexivity.
Qed.

Lemma generated_field (cal : Calendar) (f : Faker) (field : string) :
  In field addressFields ->
  get (get (customerBeforeMerge cal f) "address") field = JStr (drawn f field).
Proof.
  intros [<-|[<-|[<-|[<-|[]]]]]; reflexivity.
Qed.

(** C8, as the code has it.  [fullAddress] is computed from the drawn
    street, city, state and zip code before the merge.  For every
    overrides record whose [address] is absent, [undefined] or an object
    and holds no [fullAddress], the returned [fullAddress] is still that
    string, while each of the four fields that the overrides set to a
    string is returned as set; so when exactly one of them is replaced by
    another string, [fullAddress] is not the address that the returned
    fields spell. *)
Theorem fullAddress_is_stale (cal : Calendar) (f : Faker) (ops aps : props) :
  NoDup (keys ops) -> NoDup (keys aps) ->
  addressOverride ops = Some aps ->
  get (JObj aps) "fullAddress" = JUndefined ->
  get (get (customerBeforeMerge cal f) "address") "fullAddress"
  = JStr (generatedAddress f)
  /\ get (get (generateInsuranceCustomer cal f (JObj ops)) "address")
         "fullAddress"
     = JStr (generatedAddress f)
  /\ (forall field s', In field addressFields ->
        lookup aps field = Some (JStr s') ->
        get (get (generateInsuranceCustomer cal f (JObj ops)) "address") field
        = JStr s')
  /\ (forall field s', In field addressFields ->
        lookup aps field = Some (JStr s') ->
        s' <> drawn f field ->
        (forall other, In other addressFields -> other <> field ->
                       get (JObj aps) other = JUndefined) ->
        get (get (generateInsuranceCustomer cal f (JObj ops)) "address")
            "fullAddress"
        <> JStr (formatAddress cal
                   (get (generateInsuranceCustomer cal f (JObj ops))
                        "address"))).
Proof.
  intros Hops Haps Hov Hfull.
  rewrite (returned_address cal f ops aps Hops Hov).
  set (A := get (customerBeforeMerge cal f) "address").
  assert (Hmerge : forall key,
            In key ["street"; "city"; "state"; "zipCode"; "fullAddress"] ->
            get (deepMerge A (JObj aps)) key
            = match lookup aps key with
              | None => get A key
              | Some JUndefined => get A key
              | Some sv =>
                  if is_object sv && is_object (get A key)
                  then deepMerge (get A key) sv
                  else sv
              end).
  { intros key Hin. rewrite deepMerge_get; rewrite ?entries_JObj; auto.
    - destruct Hin as [<-|[<-|[<-|[<-|[<-|[]]]]]]; discriminate.
    - destruct Hin as [<-|[<-|[<-|[<-|[<-|[]]]]]]; cbn; tauto. }
  assert (Hkeep : forall key,
            In key ["street"; "city"; "state"; "zipCode"; "fullAddress"] ->
            get (JObj aps) key = JUndefined ->
            get (deepMerge A (JObj aps)) key = get A key).
  { intros key Hin Hk. rewrite (Hmerge key Hin).
    rewrite get_JObj in Hk
      by (destruct Hin as [<-|[<-|[<-|[<-|[<-|[]]]]]]; discriminate).
    destruct (lookup aps key) as [sv|]; [subst sv|]; reflexivity. }
  assert (Hset : forall key s',
            In key ["street"; "city"; "state"; "zipCode"; "fullAddress"] ->
            lookup aps key = Some (JStr s') ->
            get (deepMerge A (JObj aps)) key = JStr s').
  { intros key s' Hin Hk. rewrite (Hmerge key Hin), Hk. reflexivity. }
  assert (Hfields : forall field, In field addressFields ->
            In field ["street"; "city"; "state"; "zipCode"; "fullAddress"]).
  { intros field [<-|[<-|[<-|[<-|[]]]]]; cbn; tauto. }
  assert (Hstale : get (deepMerge A (JObj aps)) "fullAddress"
                   = JStr (generatedAddress f)).
  { rewrite (Hkeep "fullAddress" ltac:(cbn; tauto) Hfull). reflexivity. }
  split; [reflexivity|]. split; [exact Hstale|].
  split; [intros field s' Hin Hk; apply Hset; auto|].
  intros field s' Hin Hk Hne Honly. rewrite Hstale.
  unfold formatAddress.
  assert (Hother : forall other, In other addressFields -> other <> field ->
            get (deepMerge A (JObj aps)) other = JStr (drawn f other)).
  { intros other Ho Hd. rewrite (Hkeep _ (Hfields _ Ho) (Honly other Ho Hd)).
    now apply generated_field. }
  unfold generatedAddress.
  destruct Hin as [<-|[<-|[<-|[<-|[]]]]].
  - rewrite (Hset "street" s' ltac:(cbn; tauto) Hk).
    rewrite !Hother by (cbn; intuition discriminate).
    cbn [interpolate drawn String.eqb Ascii.eqb Bool.eqb].
    intros [= H]. apply Hne. symmetry. now apply append_cancel_tail in H.
  - rewrite (Hset "city" s' ltac:(cbn; tauto) Hk).
    rewrite !Hother by (cbn; intuition discriminate).
    cbn [interpolate]. intros [= H]. apply Hne. symmetry.
    apply append_cancel_head in H. cbn in H. injection H as H.
    now apply append_cancel_tail in H.
  - rewrite (Hset "state" s' ltac:(cbn; tauto) Hk).
    rewrite !Hother by (cbn; intuition discriminate).
    cbn [interpolate]. intros [= H]. apply Hne. symmetry.
    do 2 (apply append_cancel_head in H; cbn in H; injection H as H).
    now apply append_cancel_tail in H.
  - rewrite (Hset "zipCode" s' ltac:(cbn; tauto) Hk).
    rewrite !Hother by (cbn; intuition discriminate).
    cbn [interpolate]. intros [= H]. apply Hne. symmetry.
    do 2 (apply append_cancel_head in H; cbn in H; injection H as H).
    apply append_cancel_head in H. cbn in H. now injection H as H.
Qed.

(** An override of the street alone: the returned street is the new one,
    the returned [fullAddress] still spells the drawn one, and so is not
    what the returned fields spell. *)
Lemma fullAddress_is_stale_witness :
  get (get (generateInsuranceCustomer Samples.calendar0 Samples.faker0
              (JObj Samples.overrides0)) "address") "street"
  = JStr "9 Elm Rd"
  /\ get (get (generateInsuranceCustomer Samples.calendar0 Samples.faker0
                 (JObj Samples.overrides0)) "address") "fullAddress"
     = JStr "1 Main St, Springfield, IL 62701"
  /\ get (get (generateInsuranceCustomer Samples.calendar0 Samples.faker0
                 (JObj Samples.overrides0)) "address") "fullAddress"
     <> JStr (formatAddress Samples.calendar0
                (get (generateInsuranceCustomer Samples.calendar0
                        Samples.faker0 (JObj Samples.overrides0))
                     "address")).
Proof.
  destruct (fullAddress_is_stale Samples.calendar0 Samples.faker0
              Samples.overrides0 Samples.streetOverride)
    as (_ & Hfull & Hfield & Hstale).
  - repeat constructor; simpl; intuition discriminate.
  - repeat constructor; simpl; intuition discriminate.
  - reflexivity.
  - reflexivity.
  - refine (conj _ (conj Hfull _)).
    + apply Hfield; [simpl; tauto | reflexivity].
    + apply (Hstale "street" "9 Elm Rd");
        [simpl; tauto | reflexivity | discriminate |].
      intros other [<-|[<-|[<-|[<-|[]]]]] Hne;
        try reflexivity; contradiction.
Defined.

(** C8 as stated fails, in both halves.  An override of
    [address.fullAddress] is returned as given, not as the generated
    concatenation.  A street replaced by the drawn street itself leaves
    [fullAddress] the address that the returned fields spell; and so do a
    state and a zip code replaced by other strings that spell the same
    when put together. *)
Lemma fullAddress_not_for_every_override :
  get (get (generateInsuranceCustomer Samples.calendar0 Samples.faker0
              (JObj [("address", JObj [("fullAddress", JStr "X")])]))
           "address") "fullAddress"
  <> JStr (generatedAddress Samples.faker0)
  /\ get (get (generateInsuranceCustomer Samples.calendar0 Samples.faker0
                 (JObj [("address", JObj [("street", JStr "1 Main St")])]))
              "address") "fullAddress"
     = JStr (formatAddress Samples.calendar0
               (get (generateInsuranceCustomer Samples.calendar0
                       Samples.faker0
                       (JObj [("address",
                               JObj [("street", JStr "1 Main St")])]))
                    "address"))
  /\ get (get (generateInsuranceCustomer Samples.calendar0
                 Samples.fakerNewYork (JObj Samples.stateAndZipOverride))
              "address") "state"
     = JStr "New"
  /\ get (get (generateInsuranceCustomer Samples.calendar0
                 Samples.fakerNewYork (JObj Samples.stateAndZipOverride))
              "address") "zipCode"
     = JStr "York 12207"
  /\ get (get (generateInsuranceCustomer Samples.calendar0
                 Samples.fakerNewYork (JObj Samples.stateAndZipOverride))
              "address") "fullAddress"
     = JStr (formatAddress Samples.calendar0
               (get (generateInsuranceCustomer Samples.calendar0
                       Samples.fakerNewYork
                       (JObj Samples.stateAndZipOverride))
                    "address")).
Proof.
  split; [cbn; discriminate | repeat split; reflexivity].
Qed.

End Generator.

Section Browser.
Import JS Runtime BrowserManager.

(** A [try] whose handler returns makes a call that returns. *)
Lemma tryCatch_returns {S A : Type} (body : M S A) (handler : Error -> M S A) :
  (forall e s, exists a s', handler e s = (Normal a, s')) ->
  forall s, exists a s', tryCatch body handler s = (Normal a, s').
Proof.
  intros Hh s. unfold tryCatch.
  destruct (body s) as [[a|e] s']; eauto.
Qed.

(** C5.  [takeScreenshot] returns for every name and state: [null] when
    there is no page or when the screenshot call rejects, the path
    otherwise.  [cleanup] returns in every state, whatever calls reject. *)
Theorem takeScreenshot_and_cleanup_return
    (name : string) (fullPage : bool) (s : State) :
  (exists s',
      takeScreenshot name fullPage s
      = (Normal
           match page (self s) with
           | None => None
           | Some _ =>
               match nextOutcome (world s) with
               | Rejects _ => None
               | Resolves => Some (screenshotPath name (isoTime (world s)))
               end
           end, s'))
  /\ (exists s', cleanup s = (Normal tt, s')).
Proof.
  split.
  - destruct s as [[b c p cfg ini] w].
    unfold takeScreenshot, bind, gets. cbn [self page world].
    destruct p as [pg|].
    + unfold tryCatch, bind, gets, await. cbn [self world].
      destruct (nextOutcome w) as [|e] eqn:Ho.
      * cbn. destruct (ConfigManager.isDebugMode (env w)); cbn;
          eexists; reflexivity.
      * cbn. eexists; reflexivity.
    + cbn. eexists; reflexivity.
  - unfold cleanup.
    match goal with
    | |- exists s', tryCatch ?body ?handler s = _ =>
        destruct (tryCatch_returns body handler) with (s := s)
          as ([] & s' & H)
    end.
    + intros e s0. eexists; eexists; reflexivity.
    + exists s'. exact H.
Qed.

(** The screenshot of a failed scenario when the call rejects: [null],
    and the run goes on. *)
Example takeScreenshot_rejected :
  fst (takeScreenshot "failed-login" true
         {| self := {| browser := Some 0; context := Some 1; page := Some 2;
                       config := ConfigManager.getBrowserConfig Samples.noEnv;
                       isInitialized := true |};
            world := Samples.worldFailingAt [0] Samples.networkError |})
  = Normal None.
Proof.
  reflexivity.
Qed.

(** C6, as the code has it.  When the navigation rejects,
    [navigateToPage] writes the full URL and the error to the console and
    throws the very error it caught: the thrown error carries nothing
    more than the original. *)
Theorem navigateToPage_rethrows_original (url : string) (s : State) (e : Error) :
  page (self s) <> None ->
  nextOutcome (world s) = Rejects e ->
  exists s',
    navigateToPage url s = (Thrown e, s')
    /\ self s' = self s
    /\ console (world s')
       = (("Navigation failed to " ++ fullUrlOf (env (world s)) url ++ ":")
            ++ " " ++ message e) :: console (world s).
Proof.
  intros Hp Ho. destruct s as [[b c p cfg ini] w]. cbn [self page world] in *.
  destruct p as [pg|]; [|contradiction].
  unfold navigateToPage, bind, gets, tryCatch, await. cbn [self page world].
  rewrite Ho. cbn. eexists. repeat split.
Qed.

Lemma navigateToPage_rethrows_original_witness :
  exists s',
    navigateToPage "/login"
      {| self := {| browser := Some 0; context := Some 1; page := Some 2;
                    config := ConfigManager.getBrowserConfig Samples.noEnv;
                    isInitialized := true |};
         world := Samples.worldFailingAt [0] Samples.networkError |}
    = (Thrown Samples.networkError, s')
    /\ console (world s')
       = ["Navigation failed to http://localhost:3000/login: net::ERR_CONNECTION_REFUSED"].
Proof.
  destruct (navigateToPage_rethrows_original "/login"
              {| self := {| browser := Some 0; context := Some 1;
                            page := Some 2;
                            config := ConfigManager.getBrowserConfig
                                        Samples.noEnv;
                            isInitialized := true |};
                 world := Samples.worldFailingAt [0] Samples.networkError |}
              Samples.networkError)
    as (s' & H1 & _ & H3).
  - discriminate.
  - reflexivity.
  - exists s'. split; [exact H1 | exact H3].
Defined.

(** C6 as stated fails: the error thrown for a navigation that rejects
    does not always differ from the original. *)
Lemma navigateToPage_error_not_enriched :
  ~ (forall (url : string) (s : State) (e : Error),
        page (self s) <> None ->
        nextOutcome (world s) = Rejects e ->
        exists e' s',
          navigateToPage url s = (Thrown e', s')
          /\ message e' <> message e).
Proof.
  intros H.
  destruct (H "/login"
              {| self := {| browser := Some 0; context := Some 1;
                            page := Some 2;
                            config := ConfigManager.getBrowserConfig
                                        Samples.noEnv;
                            isInitialized := true |};
                 world := Samples.worldFailingAt [0] Samples.networkError |}
              Samples.networkError)
    as (e' & s' & Heq & Hne).
  - discriminate.
  - reflexivity.
  - cbn in Heq. injection Heq as He _. apply Hne. now rewrite <- He.
Qed.

End Browser.

Section BeforeHook.
Import JS Runtime Hooks HookSpec.

Lemma initializeBrowser_launches (s : BrowserManager.State) :
  allResolve (BrowserManager.world s) ->
  BrowserManager.isInitialized (BrowserManager.self s) = false ->
  exists s',
    BrowserManager.initializeBrowser s = (Normal tt, s')
    /\ script (BrowserManager.world s') = script (BrowserManager.world s)
    /\ history (BrowserManager.world s')
       = Launched (BrowserManager.getBrowserType (BrowserManager.self s))
                  (nextHandle (BrowserManager.world s))
         :: history (BrowserManager.world s)
    /\ BrowserManager.browser (BrowserManager.self s')
       = Some (nextHandle (BrowserManager.world s))
    /\ BrowserManager.isReady (BrowserManager.self s') = true
    /\ nextHandle (BrowserManager.world s)
       < nextHandle (BrowserManager.world s').
Proof.
  intros Hall Hini.
  destruct s as [[b c p cfg ini] [en scr n h hist cons iso]].
  unfold allResolve in Hall. cbn in Hall, Hini. subst ini.
  unfold BrowserManager.initializeBrowser, BrowserManager.createContext,
    BrowserManager.createPage, tryCatch, bind, gets, BrowserManager.await,
    nextOutcome, when.
  cbn. rewrite Hall. cbn. rewrite Hall. cbn.
  destruct (ConfigManager.recordTrace cfg); cbn;
    repeat (rewrite Hall; cbn);
    eexists; repeat split; cbn; lia.
Qed.

Lemma initializeBrowser_reuses (s : BrowserManager.State) :
  BrowserManager.isInitialized (BrowserManager.self s) = true ->
  BrowserManager.initializeBrowser s = (Normal tt, s).
Proof.
  intros Hini. unfold BrowserManager.initializeBrowser, bind, gets.
  now rewrite Hini.
Qed.

Lemma cleanup_closes (s : BrowserManager.State) (b : nat) :
  allResolve (BrowserManager.world s) ->
  BrowserManager.browser (BrowserManager.self s) = Some b ->
  exists s',
    BrowserManager.cleanup s = (Normal tt, s')
    /\ script (BrowserManager.world s') = script (BrowserManager.world s)
    /\ history (BrowserManager.world s')
       = Closed b :: history (BrowserManager.world s)
    /\ BrowserManager.isInitialized (BrowserManager.self s') = false
    /\ nextHandle (BrowserManager.world s')
       = nextHandle (BrowserManager.world s)
    /\ BrowserManager.config (BrowserManager.self s')
       = BrowserManager.config (BrowserManager.self s).
Proof.
  intros Hall Hb.
  destruct s as [[b0 c p cfg ini] [en scr n h hist cons iso]].
  unfold allResolve in Hall. cbn in Hall, Hb. subst b0.
  unfold BrowserManager.cleanup, tryCatch, bind, gets, BrowserManager.await,
    nextOutcome, when.
  cbn.
  destruct (ConfigManager.recordTrace cfg), c as [cx|], p as [pg|]; cbn;
    repeat (rewrite Hall; cbn);
    eexists; repeat split.
Qed.

Lemma start_settled (w : World) :
  allResolve w -> history w = [] -> settled (start w).
Proof.
  intros Hall Hh. unfold settled, start. cbn.
  rewrite Hh. cbn. split; [exact Hall|]. split; [lia|]. left. auto.
Qed.

Lemma remove_only (b : nat) : List.remove Nat.eq_dec b [b] = [].
Proof.
  cbn. destruct (Nat.eq_dec b b); [reflexivity | contradiction].
Qed.

(** The hook on a scenario of the tracked feature does nothing. *)
Lemma beforeFeature_same_feature (scenario : Scenario) (s : State) :
  currentFeatureUri s = Some (featureUriOf scenario) ->
  beforeFeature scenario s = (Normal tt, s).
Proof.
  intros Hc. unfold beforeFeature, bind, gets. rewrite Hc.
  unfold differs. now rewrite String.eqb_refl.
Qed.

(** The hook on a scenario of another feature, from a ready browser and a
    tracked URI: the browser is closed, then a new one is launched. *)
Lemma beforeFeature_replaces (scenario : Scenario) (s : State) (u : string)
    (b : nat) :
  allResolve (BrowserManager.world (browserManager s)) ->
  currentFeatureUri s = Some u -> u <> "" -> u <> featureUriOf scenario ->
  BrowserManager.isReady (BrowserManager.self (browserManager s)) = true ->
  BrowserManager.browser (BrowserManager.self (browserManager s)) = Some b ->
  exists s',
    beforeFeature scenario s = (Normal tt, s')
    /\ script (BrowserManager.world (browserManager s'))
       = script (BrowserManager.world (browserManager s))
    /\ history (BrowserManager.world (browserManager s'))
       = Launched
           (BrowserManager.getBrowserType
              (BrowserManager.self (browserManager s)))
           (nextHandle (BrowserManager.world (browserManager s)))
         :: Closed b :: history (BrowserManager.world (browserManager s))
    /\ BrowserManager.browser (BrowserManager.self (browserManager s'))
       = Some (nextHandle (BrowserManager.world (browserManager s)))
    /\ BrowserManager.isReady (BrowserManager.self (browserManager s')) = true
    /\ nextHandle (BrowserManager.world (browserManager s))
       < nextHandle (BrowserManager.world (browserManager s'))
    /\ currentFeatureUri s' = Some (featureUriOf scenario).
Proof.
  intros Hall Hc Hu Hd Hr Hb.
  destruct s as [bm cur]. cbn in Hall, Hc, Hr, Hb. subst cur.
  unfold beforeFeature, bind, gets. cbn [currentFeatureUri browserManager].
  unfold differs. destruct (String.eqb_spec u (featureUriOf scenario));
    [contradiction|]. cbn [negb browserManager currentFeatureUri].
  rewrite Hr.
  assert (Ht : truthy (Some u) = true) by (destruct u; [contradiction|reflexivity]).
  rewrite Ht. cbn [andb when].
  unfold bind, call.
  cbn [browserManager currentFeatureUri BrowserManager.log
       BrowserManager.onWorld modify].
  set (s1 := {| BrowserManager.self := BrowserManager.self bm;
                BrowserManager.world :=
                  print " Cleaning up browser from previous feature..."
                        (BrowserManager.world bm) |}).
  destruct (cleanup_closes s1 b Hall Hb)
    as (s2 & E2 & Hs2 & Hh2 & Hi2 & Hn2 & Hc2).
  rewrite E2. cbn [browserManager currentFeatureUri].
  set (s3 := {| BrowserManager.self := BrowserManager.self s2;
                BrowserManager.world :=
                  print (" Initializing browser for feature: "
                         ++ featureUriOf scenario)
                        (BrowserManager.world s2) |}).
  assert (Hall3 : allResolve (BrowserManager.world s3)).
  { intros k. cbn. rewrite Hs2. apply Hall. }
  destruct (initializeBrowser_launches s3 Hall3 Hi2)
    as (s4 & E4 & Hs4 & Hh4 & Hb4 & Hr4 & Hn4).
  rewrite E4. cbn.
  eexists. split; [reflexivity|]. cbn.
  subst s1 s3. cbn in Hs2, Hh2, Hn2, Hc2, Hs4, Hh4, Hb4, Hn4.
  unfold BrowserManager.getBrowserType in Hh4. rewrite Hc2 in Hh4.
  rewrite Hn2 in Hh4, Hb4, Hn4. rewrite Hh2 in Hh4. rewrite Hs2 in Hs4.
  repeat split; assumption.
Qed.

(** The hook on the first scenario, with no browser yet: one is
    launched. *)
Lemma beforeFeature_first (scenario : Scenario) (s : State) :
  allResolve (BrowserManager.world (browserManager s)) ->
  currentFeatureUri s = None ->
  BrowserManager.isInitialized (BrowserManager.self (browserManager s))
  = false ->
  exists s',
    beforeFeature scenario s = (Normal tt, s')
    /\ script (BrowserManager.world (browserManager s'))
       = script (BrowserManager.world (browserManager s))
    /\ history (BrowserManager.world (browserManager s'))
       = Launched
           (BrowserManager.getBrowserType
              (BrowserManager.self (browserManager s)))
           (nextHandle (BrowserManager.world (browserManager s)))
         :: history (BrowserManager.world (browserManager s))
    /\ BrowserManager.browser (BrowserManager.self (browserManager s'))
       = Some (nextHandle (BrowserManager.world (browserManager s)))
    /\ BrowserManager.isReady (BrowserManager.self (browserManager s')) = true
    /\ nextHandle (BrowserManager.world (browserManager s))
       < nextHandle (BrowserManager.world (browserManager s'))
    /\ currentFeatureUri s' = Some (featureUriOf scenario).
Proof.
  intros Hall Hc Hi.
  destruct s as [bm cur]. cbn in Hall, Hc, Hi. subst cur.
  unfold beforeFeature, bind, gets.
  cbn [differs truthy andb when ret browserManager currentFeatureUri].
  unfold call.
  cbn [browserManager currentFeatureUri BrowserManager.log
       BrowserManager.onWorld modify].
  set (s1 := {| BrowserManager.self := BrowserManager.self bm;
                BrowserManager.world :=
                  print (" Initializing browser for feature: "
                         ++ featureUriOf scenario)
                        (BrowserManager.world bm) |}).
  assert (Hall1 : allResolve (BrowserManager.world s1)) by exact Hall.
  destruct (initializeBrowser_launches s1 Hall1 Hi)
    as (s2 & E2 & Hs2 & Hh2 & Hb2 & Hr2 & Hn2).
  rewrite E2. cbn.
  eexists. split; [reflexivity|]. cbn.
  subst s1. cbn in Hs2, Hh2, Hb2, Hn2.
  repeat split; assumption.
Qed.

(** The hook when the tracked URI is [null] or empty and the browser is
    initialized: no clean-up, and [initializeBrowser] returns at once. *)
Lemma beforeFeature_keeps (scenario : Scenario) (s : State) :
  truthy (currentFeatureUri s) = false ->
  differs (currentFeatureUri s) (featureUriOf scenario) = true ->
  BrowserManager.isInitialized (BrowserManager.self (browserManager s))
  = true ->
  exists s',
    beforeFeature scenario s = (Normal tt, s')
    /\ BrowserManager.self (browserManager s')
       = BrowserManager.self (browserManager s)
    /\ script (BrowserManager.world (browserManager s'))
       = script (BrowserManager.world (browserManager s))
    /\ history (BrowserManager.world (browserManager s'))
       = history (BrowserManager.world (browserManager s))
    /\ nextHandle (BrowserManager.world (browserManager s'))
       = nextHandle (BrowserManager.world (browserManager s))
    /\ currentFeatureUri s' = Some (featureUriOf scenario).
Proof.
  intros Ht Hd Hi.
  destruct s as [bm cur]. cbn in Ht, Hd, Hi.
  unfold beforeFeature, bind, gets.
  cbn [browserManager currentFeatureUri]. rewrite Hd, Ht.
  cbn [andb when ret]. unfold call.
  cbn [browserManager currentFeatureUri BrowserManager.log
       BrowserManager.onWorld modify].
  rewrite initializeBrowser_reuses by exact Hi.
  cbn. eexists. repeat split.
Qed.

(** Between hooks the state stays settled. *)
Lemma beforeFeature_settled (scenario : Scenario) (s : State) :
  settled s -> settled (snd (beforeFeature scenario s)).
Proof.
  intros (Hall & Hpeak & Hcase).
  destruct (differs (currentFeatureUri s) (featureUriOf scenario)) eqn:Hd.
  - destruct Hcase as [(Hi & Hl & Hc) | (b & Hr & Hb & Hl & Hlt)].
    + destruct (beforeFeature_first scenario s Hall Hc Hi)
        as (s' & E & Hs & Hh & Hb' & Hr' & Hn & Hc').
      rewrite E. cbn [snd]. unfold settled. cbv zeta.
      split; [intros k; rewrite Hs; apply Hall|].
      rewrite Hh. cbn [peakLive live]. rewrite Hl. cbn [List.length].
      split; [lia|]. right. eexists. repeat split; eauto.
    + destruct (truthy (currentFeatureUri s)) eqn:Ht.
      * destruct (currentFeatureUri s) as [u|] eqn:Hc; [|discriminate Ht].
        assert (Hu : u <> "") by (intros ->; discriminate Ht).
        assert (Hne : u <> featureUriOf scenario).
        { intros ->. cbn in Hd. rewrite String.eqb_refl in Hd.
          discriminate Hd. }
        destruct (beforeFeature_replaces scenario s u b Hall Hc Hu Hne Hr Hb)
          as (s' & E & Hs & Hh & Hb' & Hr' & Hn & Hc').
        rewrite E. cbn [snd]. unfold settled. cbv zeta.
        split; [intros k; rewrite Hs; apply Hall|].
        rewrite Hh. cbn [peakLive live]. rewrite Hl, remove_only.
        cbn [List.length].
        split; [lia|]. right. eexists. repeat split; eauto.
      * assert (Hi : BrowserManager.isInitialized
                       (BrowserManager.self (browserManager s)) = true).
        { unfold BrowserManager.isReady in Hr.
          now apply andb_true_iff in Hr as [? _]. }
        destruct (beforeFeature_keeps scenario s Ht Hd Hi)
          as (s' & E & Hself & Hs & Hh & Hn & Hc').
        rewrite E. cbn [snd]. unfold settled. cbv zeta.
        split; [intros k; rewrite Hs; apply Hall|].
        rewrite Hh, Hself, Hn. split; [exact Hpeak|].
        right. exists b. auto.
  - destruct (currentFeatureUri s) as [u|] eqn:Hc; [|discriminate Hd].
    cbn in Hd. apply negb_false_iff, String.eqb_eq in Hd. subst u.
    rewrite beforeFeature_same_feature by exact Hc.
    cbn [snd]. unfold settled. cbv zeta. rewrite Hc. auto.
Qed.

Lemma runBefore_settled (scenarios : list Scenario) (s : State) :
  settled s -> settled (runBefore scenarios s).
Proof.
  revert s. induction scenarios as [|scenario rest IH]; intros s Hs.
  - exact Hs.
  - cbn [runBefore]. apply IH. now apply beforeFeature_settled.
Qed.

(** C4, as the code has it.  When every call into the automation library
    resolves, then along every sequence of scenarios at most one browser
    runs at a time; a scenario of another feature, met with a non-empty
    tracked URI, has the running browser closed and then a fresh one
    launched; and a scenario of the tracked feature leaves the state as
    it is. *)
Theorem one_browser_when_calls_resolve
    (w : World) (scenarios : list Scenario) :
  allResolve w -> history w = [] ->
  peakLive (history (BrowserManager.world
                       (browserManager (runBefore scenarios (start w))))) <= 1
  /\ (forall (next : Scenario) (u : string),
        currentFeatureUri (runBefore scenarios (start w)) = Some u ->
        u <> "" -> u <> featureUriOf next ->
        exists (b b' : nat) (kind : BrowserType) (s' : State),
          BrowserManager.browser
            (BrowserManager.self
               (browserManager (runBefore scenarios (start w)))) = Some b
          /\ beforeFeature next (runBefore scenarios (start w))
             = (Normal tt, s')
          /\ history (BrowserManager.world (browserManager s'))
             = Launched kind b' :: Closed b
               :: history (BrowserManager.world
                             (browserManager (runBefore scenarios (start w))))
          /\ BrowserManager.browser (BrowserManager.self (browserManager s'))
             = Some b'
          /\ b' <> b
          /\ currentFeatureUri s' = Some (featureUriOf next))
  /\ (forall next : Scenario,
        currentFeatureUri (runBefore scenarios (start w))
        = Some (featureUriOf next) ->
        beforeFeature next (runBefore scenarios (start w))
        = (Normal tt, runBefore scenarios (start w))).
Proof.
  intros Hall Hh.
  pose proof (runBefore_settled scenarios (start w)
                (start_settled w Hall Hh)) as Hset.
  set (s := runBefore scenarios (start w)) in *.
  destruct Hset as (Hall' & Hpeak & Hcase).
  split; [exact Hpeak|]. split.
  - intros next u Hc Hu Hne.
    destruct Hcase as [(_ & _ & Hnone) | (b & Hr & Hb & Hl & Hlt)].
    + rewrite Hc in Hnone. discriminate Hnone.
    + destruct (beforeFeature_replaces next s u b Hall' Hc Hu Hne Hr Hb)
        as (s' & E & _ & Hh' & Hb' & _ & _ & Hc').
      exists b, (nextHandle (BrowserManager.world (browserManager s))).
      eexists. exists s'. repeat split; eauto. lia.
  - intros next Hc. now apply beforeFeature_same_feature.
Qed.

(** Two scenarios of one feature, then a scenario of another, every call
    resolving: one browser at a time, and the transition closes browser 0
    before it launches the next. *)
Lemma one_browser_when_calls_resolve_witness :
  peakLive
    (history
       (BrowserManager.world
          (browserManager
             (runBefore
                [Samples.scenarioOf "features/login.feature";
                 Samples.scenarioOf "features/login.feature"]
                (start (Samples.worldFailingAt [] Samples.networkError))))))
  <= 1
  /\ exists (b b' : nat) (kind : BrowserType) (s' : State),
       beforeFeature (Samples.scenarioOf "features/quote.feature")
         (runBefore
            [Samples.scenarioOf "features/login.feature";
             Samples.scenarioOf "features/login.feature"]
            (start (Samples.worldFailingAt [] Samples.networkError)))
       = (Normal tt, s')
       /\ history (BrowserManager.world (browserManager s'))
          = [Launched kind b'; Closed b; Launched chromium 0]
       /\ b' <> b.
Proof.
  destruct (one_browser_when_calls_resolve
              (Samples.worldFailingAt [] Samples.networkError)
              [Samples.scenarioOf "features/login.feature";
               Samples.scenarioOf "features/login.feature"])
    as (Hpeak & Hnext & _).
  - intros n. reflexivity.
  - reflexivity.
  - split; [exact Hpeak|].
    destruct (Hnext (Samples.scenarioOf "features/quote.feature")
                    "features/login.feature")
      as (b & b' & kind & s' & _ & E & Hh & _ & Hne & _).
    + reflexivity.
    + discriminate.
    + discriminate.
    + exists b, b', kind, s'. repeat split; assumption.
Defined.

(** C4 as stated fails: when the launch resolves and the creation of the
    context rejects, the hook throws with the browser running; the next
    scenario launches a second browser beside it. *)
Lemma two_browsers_after_failed_context :
  ~ (forall (w : World) (scenarios : list Scenario),
        history w = [] ->
        peakLive
          (history
             (BrowserManager.world
                (browserManager (runBefore scenarios (start w)))))
        <= 1).
Proof.
  intros H.
  specialize (H (Samples.worldFailingAt [1] Samples.networkError)
                [Samples.scenarioOf "features/login.feature";
                 Samples.scenarioOf "features/login.feature"]
                eq_refl).
  vm_compute in H. lia.
Qed.

(** The run of that counterexample: browser 0 is never closed. *)
Example leaked_browser_history :
  history
    (BrowserManager.world
       (browserManager
          (runBefore
             [Samples.scenarioOf "features/login.feature";
              Samples.scenarioOf "features/login.feature"]
             (start (Samples.worldFailingAt [1] Samples.networkError)))))
  = [Launched chromium 1; Launched chromium 0].
Proof.
  reflexivity.
Qed.

End BeforeHook.


Section MergeShape.
Import JS TestDataManager Generators ShapeSpec KeySpec.

Lemma keys_update (ps : props) (key : string) (v : value) :
  keys (update ps key v) = keys ps.
Proof.
  unfold keys. induction ps as [|[k x] rest IH]; cbn; [reflexivity|].
  destruct (String.eqb k key); cbn; [reflexivity | now rewrite IH].
Qed.

Lemma keys_insert (ps : props) (key : string) (v : value) :
  keys (insert ps key v) = insertKey (keys ps) key.
Proof.
  unfold keys. induction ps as [|[k x] rest IH]; cbn; [reflexivity|].
  destruct (listedBefore key k); cbn; [reflexivity | now rewrite IH].
Qed.

Lemma keys_define (ps : props) (key : string) (v : value) :
  keys (define ps key v)
  = if among (keys ps) key then keys ps else insertKey (keys ps) key.
Proof.
  unfold define, among. destruct (existsb _ _).
  - apply keys_update.
  - apply keys_insert.
Qed.

Lemma In_insertKey (ks : list string) (key k : string) :
  In k (insertKey ks key) <-> k = key \/ In k ks.
Proof.
  induction ks as [|k0 rest IH]; cbn.
  - intuition.
  - destruct (listedBefore key k0); cbn; [intuition|].
    rewrite IH. intuition.
Qed.

Lemma filter_insertKey (f : string -> bool) (ks : list string) (key : string) :
  f key = false -> filter f (insertKey ks key) = filter f ks.
Proof.
  intros Hf. induction ks as [|k rest IH]; cbn.
  - now rewrite Hf.
  - destruct (listedBefore key k); cbn.
    + now rewrite Hf.
    + now rewrite IH.
Qed.

(** The order of keys, between three keys. *)
Lemma listedBefore_after (key k k' : string) :
  listedBefore key k = true -> listedBefore k' k = false ->
  listedBefore k' key = false.
Proof.
  unfold listedBefore.
  destruct (arrayIndex key) as [n|], (arrayIndex k) as [m|],
    (arrayIndex k') as [j|]; try discriminate; try reflexivity.
  intros H1 H2. apply Z.ltb_lt in H1. apply Z.ltb_ge in H2.
  apply Z.ltb_ge. lia.
Qed.

Lemma keyOrdered_insertKey (ks : list string) (key : string) :
  keyOrdered ks = true -> keyOrdered (insertKey ks key) = true.
Proof.
  induction ks as [|k rest IH]; cbn [insertKey keyOrdered].
  - reflexivity.
  - intros H. apply andb_true_iff in H as [Hk Hrest].
    destruct (listedBefore key k) eqn:E; cbn [keyOrdered forallb].
    + rewrite Hk, Hrest. cbn [andb].
      assert (Hk' : listedBefore k key = false).
      { revert E. unfold listedBefore.
        destruct (arrayIndex key), (arrayIndex k); try discriminate;
          try reflexivity.
        intros E. apply Z.ltb_lt in E. apply Z.ltb_ge. lia. }
      rewrite Hk'. cbn [negb andb]. rewrite andb_true_r.
      rewrite forallb_forall in Hk |- *. intros k' Hin.
      specialize (Hk k' Hin). apply negb_true_iff in Hk.
      apply negb_true_iff. now apply (listedBefore_after key k k').
    + rewrite (IH Hrest), andb_true_r.
      rewrite forallb_forall in Hk |- *. intros k' Hin.
      apply In_insertKey in Hin as [->|Hin].
      * now rewrite E.
      * now apply Hk.
Qed.

Lemma assign_keys (o : Ordinary) (key : string) (v : value) :
  keys (properties (assign o key v)) = keys (properties o)
  \/ (among (keys (properties o)) key = false
      /\ keys (properties (assign o key v))
         = insertKey (keys (properties o)) key).
Proof.
  unfold assign. destruct (findIn o key); cbn [properties].
  - rewrite keys_define. destruct (among _ _); auto.
  - destruct (_ || _); auto.
  - rewrite keys_define. destruct (among _ _); auto.
Qed.

Lemma mergeStep_keys (target : value) (key : string) (sv merged : value)
    (result : Ordinary) :
  keys (properties (mergeStep target key sv merged result))
  = keys (properties result)
  \/ (among (keys (properties result)) key = false
      /\ keys (properties (mergeStep target key sv merged result))
         = insertKey (keys (properties result)) key).
Proof.
  unfold mergeStep. destruct (not_undefined sv); [|now left].
  destruct (_ && _); apply assign_keys.
Qed.

Lemma among_In (ks : list string) (k : string) :
  among ks k = true <-> In k ks.
Proof.
  apply existsb_eqb_In.
Qed.

(** What the loop keeps: every key of the result it started from, their
    order among themselves, and the order of keys. *)
Lemma mergeLoop_keys (target : value) (visited : props) (result : Ordinary)
    (ks : list string) :
  (forall k, In k ks -> In k (keys (properties result))) ->
  filter (among ks) (keys (properties result)) = ks ->
  (forall k, In k ks ->
             In k (keys (properties (mergeLoop target visited result))))
  /\ filter (among ks) (keys (properties (mergeLoop target visited result)))
     = ks
  /\ (keyOrdered (keys (properties result)) = true ->
      keyOrdered (keys (properties (mergeLoop target visited result)))
      = true).
Proof.
  revert result.
  induction visited as [|[key sv] rest IH]; intros result Hsub Hfilter.
  - cbn. auto.
  - rewrite mergeLoop_cons.
    destruct (mergeStep_keys target key sv (deepMerge (get target key) sv)
                result) as [E|[Hnew E]].
    + destruct (IH (mergeStep target key sv
                      (deepMerge (get target key) sv) result))
        as (H1 & H2 & H3); rewrite ?E; auto.
      repeat split; auto. intros Hord. apply H3. now rewrite E.
    + assert (Hkey : among ks key = false).
      { destruct (among ks key) eqn:A; [|reflexivity].
        apply among_In, Hsub, among_In in A. congruence. }
      destruct (IH (mergeStep target key sv
                      (deepMerge (get target key) sv) result))
        as (H1 & H2 & H3); rewrite ?E.
      * intros k Hk. apply In_insertKey. right. now apply Hsub.
      * now rewrite filter_insertKey.
      * repeat split; auto. intros Hord. apply H3. rewrite E.
        now apply keyOrdered_insertKey.
Qed.

Lemma filter_among_self (ks : list string) : filter (among ks) ks = ks.
Proof.
  apply forallb_filter_id. apply forallb_forall. intros k Hk.
  now apply among_In.
Qed.

Lemma lookup_Some_keys (ps : props) (key : string) :
  In key (keys ps) <-> exists v, lookup ps key = Some v.
Proof.
  destruct (lookup ps key) as [v|] eqn:E.
  - split; [eauto|]. intros _. apply lookup_In in E.
    unfold keys. apply in_map_iff. now exists (key, v).
  - split.
    + intros Hin. apply lookup_None_keys in E. contradiction.
    + intros [v Hv]. discriminate Hv.
Qed.

(** X1.  The own keys of a merge are the own keys of the target and the
    keys, [__proto__] apart, that the override holds with a defined
    value; the keys of the target keep their order among themselves; and
    when the keys of the target are in the order of keys (array indices
    first, ascending), so are the keys of the merge. *)
Theorem deepMerge_keeps_target_keys (target source : value) :
  NoDup (keys (entries source)) ->
  (forall k,
      In k (keys (own_props (deepMerge target source)))
      <-> In k (keys (own_props target))
          \/ (k <> "__proto__"
              /\ exists sv, lookup (entries source) k = Some sv
                            /\ sv <> JUndefined))
  /\ filter (among (keys (own_props target)))
            (keys (own_props (deepMerge target source)))
     = keys (own_props target)
  /\ (keyOrdered (keys (own_props target)) = true ->
      keyOrdered (keys (own_props (deepMerge target source))) = true).
Proof.
  intros Hnd.
  destruct (mergeLoop_keys target (entries source) (spreadOf target)
              (keys (own_props target)))
    as (Hsub & Hfilter & Hord);
    [auto | apply filter_among_self |].
  split; [|rewrite deepMerge_unfold, own_props_toValue; split; assumption].
  intros k. destruct (String.eqb_spec k "__proto__") as [->|Hk].
  - split.
    + intros Hin. left.
      destruct (lookup (own_props target) "__proto__") as [x|] eqn:E.
      * apply lookup_Some_keys. eauto.
      * exfalso. apply lookup_Some_keys in Hin as [v Hv].
        rewrite deepMerge_unfold, own_props_toValue in Hv.
        rewrite (mergeLoop_no_own_proto target (entries source)
                   (spreadOf target) Hnd eq_refl E) in Hv.
        discriminate Hv.
    + intros [Hin|[Hne _]]; [|contradiction].
      rewrite deepMerge_unfold, own_props_toValue. now apply Hsub.
  - rewrite !lookup_Some_keys, (deepMerge_own target source k Hnd Hk).
    destruct (lookup (entries source) k) as [sv|].
    + destruct sv;
        try (split; [intros _; right; split; [exact Hk|];
                     eexists; split; [reflexivity | discriminate]
                    | intros _; eauto]).
      split; [intros H; now left|].
      intros [H|(_ & sv & [= <-] & Hsv)]; [exact H | congruence].
    + split; [intros H; now left|].
      intros [H|(_ & sv & Hsv & _)]; [exact H | discriminate Hsv].
Qed.

(** [deepMerge({ b: 1 }, { 0: 5 })] lists the key 0 first. *)
Lemma deepMerge_keeps_target_keys_witness :
  keyOrdered
    (keys (own_props (deepMerge (JObj [("b", JNum 1)]) (JObj [("0", JNum 5)]))))
  = true
  /\ keys (own_props (deepMerge (JObj [("b", JNum 1)]) (JObj [("0", JNum 5)])))
     = ["0"; "b"].
Proof.
  split; [|reflexivity].
  apply (deepMerge_keeps_target_keys (JObj [("b", JNum 1)]) (JObj [("0", JNum 5)])).
  - repeat constructor; simpl; intuition discriminate.
  - reflexivity.
Defined.

(** Index keys are distinct. *)
Lemma Number_toString_inj (a b : Z) :
  Number_toString a = Number_toString b -> a = b.
Proof.
  unfold Number_toString. intros H.
  apply DecimalZ.to_int_inj.
  apply (f_equal NilEmpty.int_of_string) in H.
  rewrite !NilEmpty.isi in H. now injection H.
Qed.

Lemma indexKey_inj (i j : nat) : indexKey i = indexKey j -> i = j.
Proof.
  unfold indexKey. intros H. apply Number_toString_inj in H. lia.
Qed.

(** A string that is not a numeral is no index key. *)
Lemma indexKey_numeral (i : nat) (key : string) :
  NilEmpty.int_of_string key = None -> indexKey i <> key.
Proof.
  intros Hkey H. unfold indexKey, Number_toString in H.
  rewrite <- H, NilEmpty.isi in Hkey. discriminate Hkey.
Qed.

Lemma indexed_keys_from (k : nat) (xs : list value) (key : string) :
  In key (keys (indexed k xs)) -> exists j, key = indexKey j /\ k <= j.
Proof.
  revert k. induction xs as [|x rest IH]; intros k; cbn; [intros []|].
  intros [<-|Hin].
  - exists k. split; [reflexivity | lia].
  - destruct (IH (S k) Hin) as (j & -> & Hj). exists j. split; [reflexivity|lia].
Qed.

Lemma indexed_NoDup (k : nat) (xs : list value) : NoDup (keys (indexed k xs)).
Proof.
  revert k. induction xs as [|x rest IH]; intros k; cbn; constructor.
  - intros Hin. destruct (indexed_keys_from (S k) rest _ Hin) as (j & Hk & Hj).
    apply indexKey_inj in Hk. lia.
  - apply IH.
Qed.

Lemma indexed_lookup (k : nat) (xs : list value) (j : nat) :
  lookup (indexed k xs) (indexKey (k + j)) = nth_error xs j.
Proof.
  revert k j. induction xs as [|x rest IH]; intros k j; cbn [indexed lookup].
  - now destruct j.
  - destruct (String.eqb_spec (indexKey k) (indexKey (k + j))) as [E|E].
    + apply indexKey_inj in E. assert (j = 0) by lia. now subst.
    + destruct j as [|j].
      * exfalso. apply E. now rewrite Nat.add_0_r.
      * replace (k + S j) with (S k + j) by lia. cbn [nth_error]. apply IH.
Qed.

Lemma indexed_lookup0 (xs : list value) (i : nat) :
  lookup (indexed 0 xs) (indexKey i) = nth_error xs i.
Proof.
  exact (indexed_lookup 0 xs i).
Qed.

Lemma indexed_lookup_other (xs : list value) (key : string) :
  NilEmpty.int_of_string key = None -> lookup (indexed 0 xs) key = None.
Proof.
  intros Hkey. apply lookup_None_keys. intros Hin.
  destruct (indexed_keys_from 0 xs key Hin) as (j & -> & _).
  now apply (indexKey_numeral j (indexKey j)).
Qed.

(** A merge is never an array. *)
Lemma deepMerge_not_array (t s : value) : isArray (deepMerge t s) = false.
Proof.
  rewrite deepMerge_unfold. unfold toValue.
  destruct (prototype _) as [| | | | | | | | |[]]; reflexivity.
Qed.

(** What a merge of two arrays is: a plain object read through the
    indices of both. *)
Lemma deepMerge_of_arrays (ts ss : list value) (i : nat) :
  Forall (fun v => is_object v = false /\ v <> JUndefined) ss ->
  isArray (deepMerge (JArr ts) (JArr ss)) = false
  /\ get (deepMerge (JArr ts) (JArr ss)) "length" = JUndefined
  /\ get (deepMerge (JArr ts) (JArr ss)) (indexKey i)
     = if (i <? List.length ss)%nat then nth i ss JUndefined
       else nth i ts JUndefined.
Proof.
  intros Hprim.
  assert (Hnd : NoDup (keys (entries (JArr ss))))
    by (rewrite entries_JArr; apply indexed_NoDup).
  assert (Hplain : exists ps, deepMerge (JArr ts) (JArr ss) = JObj ps).
  { eexists. apply deepMerge_plain. rewrite entries_JArr. intros Hin.
    destruct (indexed_keys_from 0 ss _ Hin) as (j & Hj & _).
    symmetry in Hj. now apply indexKey_numeral in Hj. }
  destruct Hplain as [ps Hps].
  assert (Hread : forall key, key <> "__proto__" ->
            get (deepMerge (JArr ts) (JArr ss)) key
            = match lookup (own_props (deepMerge (JArr ts) (JArr ss))) key with
              | Some x => x
              | None => JUndefined
              end).
  { intros key Hk. rewrite Hps. cbn [own_props]. now apply get_JObj. }
  split; [apply deepMerge_not_array|]. split.
  - rewrite Hread, deepMerge_own; try assumption; try discriminate.
    rewrite entries_JArr. cbn [own_props].
    now rewrite !indexed_lookup_other.
  - assert (Hk : indexKey i <> "__proto__") by now apply indexKey_numeral.
    rewrite (Hread _ Hk), (deepMerge_own _ _ _ Hnd Hk), entries_JArr.
    cbn [own_props]. rewrite !indexed_lookup0.
    destruct (Nat.ltb_spec i (List.length ss)) as [Hlt|Hge].
    + destruct (nth_error ss i) as [sv|] eqn:E.
      * rewrite (nth_error_nth _ _ _ E).
        rewrite Forall_forall in Hprim.
        destruct (Hprim sv (nth_error_In _ _ E)) as [Hobj Hdef].
        rewrite Hobj. cbn [andb]. destruct sv; try reflexivity. congruence.
      * apply nth_error_None in E. lia.
    + assert (E : nth_error ss i = None) by now apply nth_error_None.
      rewrite E. clear.
      revert i. induction ts as [|x rest IH]; intros [|i]; cbn; auto.
Qed.

(** X2.  A merge of an array with an array is a plain object, not an
    array: it has no [length], and index by index it holds the override's
    element where the override has a defined primitive and the target's
    element beyond the override's length. *)
Theorem deepMerge_arrays_by_index (ts ss : list value) (i : nat) :
  Forall (fun v => is_object v = false /\ v <> JUndefined) ss ->
  isArray (deepMerge (JArr ts) (JArr ss)) = false
  /\ get (deepMerge (JArr ts) (JArr ss)) "length" = JUndefined
  /\ get (deepMerge (JArr ts) (JArr ss)) (indexKey i)
     = if (i <? List.length ss)%nat then nth i ss JUndefined
       else nth i ts JUndefined.
Proof.
  intros Hprim. now apply deepMerge_of_arrays.
Qed.

Lemma deepMerge_arrays_by_index_witness :
  isArray (deepMerge (arrayOfStrings ["Hypertension"; "Asthma"; "Arthritis"])
                     (arrayOfStrings ["Diabetes"]))
  = false
  /\ get (deepMerge (arrayOfStrings ["Hypertension"; "Asthma"; "Arthritis"])
                    (arrayOfStrings ["Diabetes"])) "length"
     = JUndefined
  /\ get (deepMerge (arrayOfStrings ["Hypertension"; "Asthma"; "Arthritis"])
                    (arrayOfStrings ["Diabetes"]))
         (indexKey 1)
     = JStr "Asthma".
Proof.
  apply (deepMerge_arrays_by_index
           [JStr "Hypertension"; JStr "Asthma"; JStr "Arthritis"]
           [JStr "Diabetes"] 1).
  repeat constructor; discriminate.
Defined.

(** X3.  [medications], [allergies] and [medicalConditions] are drawn as
    arrays.  With an array given as override, the field comes back as a
    plain object, not an array and with no [length]: index by index the
    given elements, then the drawn elements beyond the length of what was
    given, all of them when the empty array was given. *)
Theorem generateHealthInfo_array_override
    (d : HealthDraws) (field : string) (given : list string) (i : nat) :
  In field ["medications"; "allergies"; "medicalConditions"] ->
  isArray (get (healthLiteral d) field) = true
  /\ isArray (get (generateHealthInfo d
                     (JObj [(field, arrayOfStrings given)])) field)
     = false
  /\ get (get (generateHealthInfo d (JObj [(field, arrayOfStrings given)]))
              field) "length"
     = JUndefined
  /\ get (get (generateHealthInfo d (JObj [(field, arrayOfStrings given)]))
              field)
         (indexKey i)
     = if (i <? List.length given)%nat then JStr (nth i given "")
       else nth i (map JStr (healthArray d field)) JUndefined.
Proof.
  intros Hin.
  assert (Hget : get (generateHealthInfo d
                        (JObj [(field, arrayOfStrings given)])) field
                 = deepMerge (arrayOfStrings (healthArray d field))
                             (arrayOfStrings given)).
  { destruct Hin as [<-|[<-|[<-|[]]]]; reflexivity. }
  rewrite Hget. unfold arrayOfStrings.
  destruct (deepMerge_of_arrays (map JStr (healthArray d field))
              (map JStr given) i) as (Harr & Hlen & Hidx).
  { apply Forall_forall. intros v Hv. apply in_map_iff in Hv as (x & <- & _).
    split; [reflexivity | discriminate]. }
  split; [destruct Hin as [<-|[<-|[<-|[]]]]; reflexivity|].
  split; [exact Harr|]. split; [exact Hlen|].
  rewrite Hidx, length_map.
  destruct (i <? List.length given)%nat eqn:E; [|reflexivity].
  apply Nat.ltb_lt in E.
  rewrite (nth_indep _ JUndefined (JStr "")) by now rewrite length_map.
  apply (map_nth JStr).
Qed.

(** [medicalConditions: []], meant for a healthy applicant, returns the
    drawn conditions in a plain object. *)
Lemma generateHealthInfo_array_override_witness :
  isArray (get (healthLiteral MoreSamples.health0) "medicalConditions") = true
  /\ isArray (get (generateHealthInfo MoreSamples.health0
                     (JObj [("medicalConditions", arrayOfStrings [])]))
                  "medicalConditions")
     = false
  /\ get (get (generateHealthInfo MoreSamples.health0
                 (JObj [("medicalConditions", arrayOfStrings [])]))
              "medicalConditions") "length"
     = JUndefined
  /\ get (get (generateHealthInfo MoreSamples.health0
                 (JObj [("medicalConditions", arrayOfStrings [])]))
              "medicalConditions")
         (indexKey 0)
     = JStr "Hypertension".
Proof.
  apply (generateHealthInfo_array_override MoreSamples.health0
           "medicalConditions" [] 0).
  simpl. tauto.
Defined.

End MergeShape.

Section OtherGenerators.
Import JS TestDataManager Generators ShapeSpec CustomerSpec.

Lemma keys_set (ps : props) (key : string) (v : value) :
  keys (set ps key v)
  = if existsb (String.eqb key) (keys ps) then keys ps
    else (keys ps ++ [key])%list.
Proof.
  unfold keys. induction ps as [|[k x] rest IH]; cbn; [reflexivity|].
  rewrite (String.eqb_sym key k).
  destruct (String.eqb k key); cbn; [reflexivity|].
  rewrite IH. now destruct (existsb _ _).
Qed.

Lemma spread_absent (a b : props) (key : string) :
  ~ In key (keys b) -> lookup (spread a b) key = lookup a key.
Proof.
  unfold spread. revert a.
  induction b as [|[k v] rest IH]; intros a Hnin; cbn [fold_left fst snd].
  - reflexivity.
  - cbn in Hnin. rewrite IH by tauto.
    apply lookup_define_other. intros ->. apply Hnin. now left.
Qed.

Lemma spread_present (a b : props) (key : string) (v : value) :
  NoDup (keys b) -> lookup b key = Some v ->
  lookup (spread a b) key = Some v.
Proof.
  unfold spread. revert a.
  induction b as [|[k x] rest IH]; intros a Hnd Hl; cbn in *.
  - discriminate.
  - inversion Hnd as [|? ? Hnin Hnd']; subst.
    destruct (String.eqb_spec k key) as [->|Hk].
    + injection Hl as ->.
      etransitivity; [exact (spread_absent (define a key v) rest key Hnin)|].
      apply lookup_define_same.
    + now apply IH.
Qed.

(** X4.  [generateVehicle] takes every property of the overrides as it is: a
    key of the overrides replaces the generated value even when it holds
    [undefined] (the deep generators skip such a key), and every other
    key keeps the generated value. *)
Theorem generateVehicle_overrides_shallow
    (cal : Calendar) (d : VehicleDraws) (overrides : props) (key : string) :
  (2010 <= getFullYear cal (now cal))%Z ->
  NoDup (keys overrides) ->
  lookup (own_props (generateVehicle cal d overrides)) key
  = match lookup overrides key with
    | Some v => Some v
    | None => lookup (vehicleLiteral cal d) key
    end.
Proof.
  intros _ Hnd. unfold generateVehicle. cbn [own_props].
  destruct (lookup overrides key) as [v|] eqn:Hl.
  - now apply spread_present.
  - apply spread_absent. now apply lookup_None_keys.
Qed.

(** [generateVehicle({ year: undefined })] has no year. *)
Lemma generateVehicle_overrides_shallow_witness :
  get (generateVehicle MoreSamples.calendar2024 MoreSamples.vehicle0
         [("year", JUndefined)]) "year"
  = JUndefined
  /\ get (generateVehicle MoreSamples.calendar2024 MoreSamples.vehicle0
            [("year", JUndefined)]) "model"
     = JStr "Civic".
Proof.
  unfold generateVehicle.
  rewrite !get_JObj by discriminate.
  change (spread ?a ?b) with (own_props (generateVehicle
    MoreSamples.calendar2024 MoreSamples.vehicle0 [("year", JUndefined)])).
  rewrite !(generateVehicle_overrides_shallow MoreSamples.calendar2024
              MoreSamples.vehicle0 [("year", JUndefined)]).
  - split; reflexivity.
  - cbn. lia.
  - repeat constructor; simpl; intuition discriminate.
  - cbn. lia.
  - repeat constructor; simpl; intuition discriminate.
Defined.

Lemma alphabet_pick (alphabet : list ascii) (ok : ascii -> bool) (k : nat) :
  alphabet <> [] -> forallb ok alphabet = true ->
  ok (nth (k mod List.length alphabet) alphabet "A"%char) = true.
Proof.
  intros Hne Hall. rewrite forallb_forall in Hall. apply Hall.
  apply nth_In. apply Nat.mod_upper_bound.
  destruct alphabet; [contradiction | discriminate].
Qed.

(** X5.  The generated plate is always three upper-case letters and three
    digits, the generated policy number always "POL-" and eight upper-case
    letters or digits. *)
Theorem generated_identifiers_shaped :
  (forall (letters : nat -> nat) (digits : Z),
      plateShaped (generateLicensePlate letters digits) = true)
  /\ (forall raw : nat -> nat,
        policyNumberShaped (generatePolicyNumber raw) = true).
Proof.
  split.
  - intros letters digits. unfold generateLicensePlate, faker_string.
    cbn [seq map string_of_list_ascii].
    assert (Hd : digitsOnly 3 (Number_toString (faker_number_int digits 100 999))
                 = true).
    { apply (numerals_in_range 100 999 3); [lia | vm_compute; reflexivity |].
      apply faker_number_int_range. lia. }
    unfold digitsOnly in Hd. apply andb_true_iff in Hd as [Hlen Hall].
    destruct (Number_toString (faker_number_int digits 100 999))
      as [|d1 [|d2 [|d3 [|]]]]; try discriminate Hlen.
    cbn -[isDigit isUpper upperLetters Nat.modulo] in Hall |- *.
    repeat match goal with
           | H : _ && _ = true |- _ => apply andb_true_iff in H as [? ?]
           end.
    rewrite !(alphabet_pick upperLetters isUpper)
      by (try discriminate; reflexivity).
    repeat match goal with
           | H : isDigit _ = true |- _ => rewrite H; clear H
           end.
    reflexivity.
  - intros raw. unfold generatePolicyNumber, faker_string.
    cbn [seq map string_of_list_ascii append policyNumberShaped].
    cbn -[isDigit isUpper upperAlphanumerics Nat.modulo].
    rewrite !(alphabet_pick upperAlphanumerics (fun c => isDigit c || isUpper c))
      by (try discriminate; reflexivity).
    reflexivity.
Qed.

(** X6.  [generateInvalidSSN] does not always give a string that is not
    SSN-shaped: two of its five strings are SSN-shaped, and it returns
    one of them exactly when the pick falls on the second or the third. *)
Theorem generateInvalidSSN_may_be_shaped (pick : nat) :
  ssnShaped (generateInvalidSSN pick)
  = ((pick mod 5 =? 1)%nat || (pick mod 5 =? 2)%nat).
Proof.
  unfold generateInvalidSSN, faker_arrayElement. cbn [List.length].
  pose proof (Nat.mod_upper_bound pick 5 ltac:(discriminate)) as Hlt.
  destruct (pick mod 5) as [|[|[|[|[|n]]]]]; try reflexivity. lia.
Qed.

(** X7.  The store gives back what was stored last under a key, leaves the
    other keys alone, holds each key once, and is empty after a clear. *)
Theorem store_retrieve_laws
    (store : DataStore) (key other : string) (data : value) :
  retrieveData (storeData store key data) key = data
  /\ (other <> key ->
      retrieveData (storeData store key data) other
      = retrieveData store other)
  /\ (NoDup (keys store) -> NoDup (keys (storeData store key data)))
  /\ retrieveData (clearStoredData (storeData store key data)) key
     = JUndefined
  /\ (lookup store other = None -> retrieveData store other = JUndefined).
Proof.
  unfold retrieveData, storeData, clearStoredData.
  repeat split.
  - now rewrite lookup_set_same.
  - intros Hne. rewrite lookup_set_other by congruence. reflexivity.
  - intros Hnd. rewrite keys_set.
    destruct (existsb (String.eqb key) (keys store)) eqn:E; [exact Hnd|].
    apply NoDup_app; [exact Hnd | repeat constructor; intros [] |].
    intros k Hk [<-|[]].
    apply existsb_eqb_In in Hk. congruence.
  - intros ->. reflexivity.
Qed.

End OtherGenerators.

Section PolicyPremium.
Import JS TestDataManager Generators ShapeSpec.

Lemma premium_rounding (a : Z) :
  (500 <= a <= 5000)%Z ->
  mathRound (CucumberReport.divide a 12) = ((a + 6) / 12)%Z
  /\ mathRound (CucumberReport.divide a 4) = ((a + 2) / 4)%Z.
Proof.
  intros Ha.
  assert (Hall :
    forallb (fun k =>
      let a := Z.of_nat k in
      (mathRound (CucumberReport.divide a 12) =? (a + 6) / 12)%Z
      && (mathRound (CucumberReport.divide a 4) =? (a + 2) / 4)%Z)
      (seq (Z.to_nat 500) (Z.to_nat 4501)) = true)
    by (vm_compute; reflexivity).
  rewrite forallb_forall in Hall.
  specialize (Hall (Z.to_nat a)). cbv zeta in Hall.
  rewrite Z2Nat.id in Hall by lia.
  assert (Hin : In (Z.to_nat a) (seq (Z.to_nat 500) (Z.to_nat 4501)))
    by (apply in_seq; lia).
  apply Hall, andb_true_iff in Hin as [H12 H4].
  split; now apply Z.eqb_eq.
Qed.

(** X8.  The premium of a generated policy: the annual premium lies between
    500 and 5000, the monthly one is it over 12 and the quarterly one it
    over 4, both rounded to the nearest integer, halves up; and an
    override of [premium.annual] leaves the monthly and quarterly
    premiums as computed from the drawn one. *)
Theorem generatePolicy_premium
    (plusOneYear : Z -> Z) (d : PolicyDraws) (given : Z) :
  (500 <= drawnAnnualPremium d <= 5000)%Z
  /\ get (get (generatePolicy plusOneYear d noOverrides) "premium") "annual"
     = JNum (drawnAnnualPremium d)
  /\ get (get (generatePolicy plusOneYear d noOverrides) "premium") "monthly"
     = JNum ((drawnAnnualPremium d + 6) / 12)
  /\ get (get (generatePolicy plusOneYear d noOverrides) "premium") "quarterly"
     = JNum ((drawnAnnualPremium d + 2) / 4)
  /\ get (get (generatePolicy plusOneYear d
                 (JObj [("premium", JObj [("annual", JNum given)])]))
              "premium") "annual"
     = JNum given
  /\ get (get (generatePolicy plusOneYear d
                 (JObj [("premium", JObj [("annual", JNum given)])]))
              "premium") "monthly"
     = JNum ((drawnAnnualPremium d + 6) / 12).
Proof.
  assert (Hr : (500 <= drawnAnnualPremium d <= 5000)%Z)
    by (apply faker_number_int_range; lia).
  destruct (premium_rounding _ Hr) as [H12 H4].
  split; [exact Hr|].
  rewrite <- H12, <- H4. repeat split.
Qed.

End PolicyPremium.

Section Readers.
Import JS ConfigManager ConfigReaders ShapeSpec.

Lemma split_nonempty (sep : ascii) (s : string) : split sep s <> [].
Proof.
  destruct s as [|c rest]; cbn; [discriminate|].
  destruct (Ascii.eqb c sep); [discriminate|].
  destruct (split sep rest); discriminate.
Qed.

Lemma join_cons (sep : string) (c : ascii) (piece : string)
    (pieces : list string) :
  join sep (String c piece :: pieces) = String c (join sep (piece :: pieces)).
Proof.
  destruct pieces; reflexivity.
Qed.

Lemma join_split (sep : ascii) (s : string) :
  join (String sep EmptyString) (split sep s) = s.
Proof.
  induction s as [|c rest IH]; cbn [split]; [reflexivity|].
  destruct (Ascii.eqb_spec c sep) as [->|Hne].
  - pose proof (split_nonempty sep rest) as Hn.
    destruct (split sep rest) as [|piece pieces]; [contradiction|].
    rewrite <- IH. reflexivity.
  - pose proof (split_nonempty sep rest) as Hn.
    destruct (split sep rest) as [|piece pieces]; [contradiction|].
    rewrite join_cons. now rewrite IH.
Qed.

Lemma split_pieces_free (s : string) :
  forallb commaFree (split ","%char s) = true.
Proof.
  induction s as [|c rest IH]; cbn [split]; [reflexivity|].
  destruct (Ascii.eqb c ","%char) eqn:E.
  - cbn. exact IH.
  - pose proof (split_nonempty ","%char rest) as Hn.
    destruct (split ","%char rest) as [|piece pieces]; [contradiction|].
    cbn [forallb] in IH |- *. apply andb_true_iff in IH as [Hp Hps].
    rewrite Hps, andb_true_r.
    unfold commaFree in *. cbn [list_ascii_of_string existsb].
    rewrite (Ascii.eqb_sym ","%char c), E. exact Hp.
Qed.

(** X9.  The report formats are the pieces of the resolved string between its
    commas: never an empty list, no piece holds a comma, and joined by
    commas they give the string back. *)
Theorem getReportConfig_formats (env : Env) :
  join "," (formats (getReportConfig env))
  = orElse (env "REPORT_FORMATS") "json,html"
  /\ formats (getReportConfig env) <> []
  /\ forallb commaFree (formats (getReportConfig env)) = true
  /\ (env "REPORT_FORMATS" = None ->
      formats (getReportConfig env) = ["json"; "html"]).
Proof.
  unfold getReportConfig. cbn [formats].
  repeat split.
  - apply (join_split ","%char).
  - apply split_nonempty.
  - apply split_pieces_free.
  - intros ->. reflexivity.
Qed.

(** Reading decimal digits. *)
Lemma parseDigits_uint (d : Decimal.uint) (a : N) :
  parseDigits 10 (NilEmpty.string_of_uint d) (Some (Z.of_N a))
  = Some (Z.of_N (digitsValue d a)).
Proof.
  revert a.
  induction d; intros a; cbn [NilEmpty.string_of_uint digitsValue];
    [reflexivity | ..];
    cbn [parseDigits];
    match goal with
    | |- context [digitValue ?c] =>
        let v := eval vm_compute in (digitValue c) in
        change (digitValue c) with v
    end;
    cbv beta iota;
    match goal with
    | |- context [(?k <? 10)%Z] => change (k <? 10)%Z with true
    end;
    cbv beta iota; rewrite <- IHd; do 2 f_equal; lia.
Qed.

Lemma parseDigits_uint_start (d : Decimal.uint) :
  d <> Decimal.Nil ->
  parseDigits 10 (NilEmpty.string_of_uint d) None
  = Some (Z.of_N (digitsValue d 0)).
Proof.
  destruct d; intros Hne; [contradiction | ..];
    cbn [NilEmpty.string_of_uint digitsValue];
    cbn [parseDigits];
    match goal with
    | |- context [digitValue ?c] =>
        let v := eval vm_compute in (digitValue c) in
        change (digitValue c) with v
    end;
    cbv beta iota;
    match goal with
    | |- context [(?k <? 10)%Z] => change (k <? 10)%Z with true
    end;
    cbv beta iota; rewrite <- parseDigits_uint; reflexivity.
Qed.

Lemma digitsValue_spec (d : Decimal.uint) (a : N) :
  digitsValue d a
  = (DecimalPos.Unsigned.of_lu (Decimal.rev d)
     + a * 10 ^ DecimalPos.Unsigned.usize d)%N.
Proof.
  revert a.
  induction d; intros a; cbn [digitsValue DecimalPos.Unsigned.usize];
    [cbn; lia | ..];
    rewrite IHd, N.pow_succ_r';
    remember (DecimalPos.Unsigned.of_lu (Decimal.rev d)) as low eqn:Elow;
    unfold Decimal.rev; cbn [Decimal.revapp];
    rewrite DecimalPos.Unsigned.of_lu_revapp, <- Elow;
    cbn [DecimalPos.Unsigned.of_lu]; lia.
Qed.

Lemma digitsValue_of_uint (d : Decimal.uint) :
  Z.of_N (digitsValue d 0) = Z.of_uint d.
Proof.
  rewrite digitsValue_spec, N.mul_0_l, N.add_0_r.
  unfold Z.of_uint. now rewrite DecimalPos.Unsigned.of_uint_alt.
Qed.

(** The first character of a numeral is a digit, and "0x" never starts
    one. *)
Lemma to_uint_digits (p : positive) :
  exists c rest,
    NilEmpty.string_of_uint (Pos.to_uint p) = String c rest
    /\ TestDataManager.isDigit c = true
    /\ Pos.to_uint p <> Decimal.Nil
    /\ (c = "0"%char ->
        forall rest', rest <> String "x" rest' /\ rest <> String "X" rest').
Proof.
  pose proof (DecimalPos.Unsigned.to_uint_nonnil p) as Hn.
  destruct (Pos.to_uint p) as [|d|d|d|d|d|d|d|d|d|d]; [contradiction | ..];
    cbn [NilEmpty.string_of_uint]; eexists; eexists;
    (split; [reflexivity|]); (split; [reflexivity|]);
    (split; [discriminate|]);
    intros H0 r; try discriminate H0;
    destruct d; cbn; split; discriminate.
Qed.

(** No white space starts with a digit or a sign. *)
Lemma trimStart_ascii (c : ascii) (rest : string) :
  (nat_of_ascii c < 128)%nat -> isWhiteSpace c = false ->
  trimStart (String c rest) = String c rest.
Proof.
  intros Hc Hw. cbn [trimStart]. rewrite Hw.
  assert (H2 : forall c2, isWhiteSpace2 c c2 = false).
  { intros c2. unfold isWhiteSpace2.
    destruct (Nat.eqb_spec (nat_of_ascii c) 194); [lia | reflexivity]. }
  assert (H3 : forall c2 c3, isWhiteSpace3 c c2 c3 = false).
  { intros c2 c3. unfold isWhiteSpace3.
    destruct (Nat.eqb_spec (nat_of_ascii c) 225); [lia|].
    destruct (Nat.eqb_spec (nat_of_ascii c) 226); [lia|].
    destruct (Nat.eqb_spec (nat_of_ascii c) 227); [lia|].
    destruct (Nat.eqb_spec (nat_of_ascii c) 239); [lia|].
    reflexivity. }
  destruct rest as [|c2 [|c3 rest]]; rewrite ?H2, ?H3; reflexivity.
Qed.

Lemma isDigit_ascii (c : ascii) :
  TestDataManager.isDigit c = true ->
  (nat_of_ascii c < 128)%nat /\ isWhiteSpace c = false
  /\ c <> "-"%char /\ c <> "+"%char.
Proof.
  unfold TestDataManager.isDigit, isWhiteSpace. intros H.
  apply andb_true_iff in H as [H1 H2].
  apply Nat.leb_le in H1, H2.
  repeat split; try lia.
  - repeat match goal with
           | |- context [(?a =? ?b)%nat] =>
               destruct (Nat.eqb_spec a b); [lia|]
           end.
    reflexivity.
  - intros ->. cbn in H1. lia.
  - intros ->. cbn in H1. lia.
Qed.

Lemma parseInt_digits (c : ascii) (rest : string) :
  TestDataManager.isDigit c = true ->
  (c = "0"%char ->
   forall r, rest <> String "x" r /\ rest <> String "X" r) ->
  (parseInt (String c rest)
   = match parseDigits 10 (String c rest) None with
     | Some z => roundToDouble (1 * z)
     | None => NaN
     end)
  /\ (parseInt (String "-" (String c rest))
      = match parseDigits 10 (String c rest) None with
        | Some z => roundToDouble (-1 * z)
        | None => NaN
        end).
Proof.
  intros Hd Hx. destruct (isDigit_ascii c Hd) as (Hc & Hw & Hm & Hp).
  unfold parseInt.
  rewrite (trimStart_ascii "-" (String c rest)) by (cbn; try lia; reflexivity).
  rewrite (trimStart_ascii c rest Hc Hw).
  destruct c as [[|] [|] [|] [|] [|] [|] [|] [|]];
    try (exfalso; congruence); try (split; reflexivity).
  destruct rest as [|c2 r]; [split; reflexivity|].
  destruct (Hx eq_refl r) as [H1 H2].
  destruct c2 as [[|] [|] [|] [|] [|] [|] [|] [|]];
    try (exfalso; congruence); split; reflexivity.
Qed.

Lemma parseInt10_digits (c : ascii) (rest : string) :
  TestDataManager.isDigit c = true ->
  (parseInt10 (String c rest)
   = match parseDigits 10 (String c rest) None with
     | Some z => roundToDouble (1 * z)
     | None => NaN
     end)
  /\ (parseInt10 (String "-" (String c rest))
      = match parseDigits 10 (String c rest) None with
        | Some z => roundToDouble (-1 * z)
        | None => NaN
        end).
Proof.
  intros Hd. destruct (isDigit_ascii c Hd) as (Hc & Hw & Hm & Hp).
  unfold parseInt10.
  rewrite (trimStart_ascii "-" (String c rest)) by (cbn; try lia; reflexivity).
  rewrite (trimStart_ascii c rest Hc Hw).
  destruct c as [[|] [|] [|] [|] [|] [|] [|] [|]];
    try (exfalso; congruence); split; reflexivity.
Qed.

(** What is written in decimal is read back as a Number: by
    [parseInt(s, 10)] and by [parseInt(s)]. *)
Lemma parse_decimal (n : Z) :
  parseInt10 (Number_toString n) = roundToDouble n
  /\ parseInt (Number_toString n) = roundToDouble n.
Proof.
  unfold Number_toString. destruct n as [|p|p]; cbn [Z.to_int].
  - split; reflexivity.
  - destruct (to_uint_digits p) as (c & rest & E & Hd & Hn & Hx).
    assert (Hv : parseDigits 10 (String c rest) None = Some (Z.pos p)).
    { rewrite <- E, parseDigits_uint_start by exact Hn.
      rewrite digitsValue_of_uint.
      change (Z.of_uint (Pos.to_uint p)) with (Z.of_int (Z.to_int (Z.pos p))).
      now rewrite DecimalZ.of_to. }
    cbn [NilEmpty.string_of_int]. rewrite E.
    destruct (parseInt_digits c rest Hd Hx) as [-> _].
    destruct (parseInt10_digits c rest Hd) as [-> _].
    rewrite Hv. split; f_equal; lia.
  - destruct (to_uint_digits p) as (c & rest & E & Hd & Hn & Hx).
    assert (Hv : parseDigits 10 (String c rest) None = Some (Z.pos p)).
    { rewrite <- E, parseDigits_uint_start by exact Hn.
      rewrite digitsValue_of_uint.
      change (Z.of_uint (Pos.to_uint p)) with (Z.of_int (Z.to_int (Z.pos p))).
      now rewrite DecimalZ.of_to. }
    cbn [NilEmpty.string_of_int]. rewrite E.
    destruct (parseInt_digits c rest Hd Hx) as [_ ->].
    destruct (parseInt10_digits c rest Hd) as [_ ->].
    rewrite Hv. split; f_equal; lia.
Qed.

Lemma roundToDouble_not_NaN (z : Z) : roundToDouble z <> NaN.
Proof.
  unfold roundToDouble. destruct (_ <? _)%Z; [discriminate|].
  cbv zeta. destruct (_ <=? _)%Z; discriminate.
Qed.

(** An integer up to 2^53 in size is a double. *)
Lemma roundToDouble_safe (z : Z) :
  (Z.abs z <= 2 ^ 53)%Z -> roundToDouble z = Num z.
Proof.
  intros Hz. unfold roundToDouble.
  destruct (Z.ltb_spec (Z.abs z) (2 ^ 53)) as [_|Hge]; [reflexivity|].
  assert (E : z = (2 ^ 53)%Z \/ z = (- 2 ^ 53)%Z) by lia.
  destruct E as [-> | ->]; vm_compute; reflexivity.
Qed.

Lemma Number_toString_nonempty (n : Z) : Number_toString n <> "".
Proof.
  intros H. pose proof (parse_decimal n) as [H10 _].
  rewrite H in H10. symmetry in H10. now apply roundToDouble_not_NaN in H10.
Qed.

(** X10.  [getEnvNumber] never gives [NaN] for a numeric fallback: it
    gives the fallback when the variable is unset or empty, and the
    Number of the integer whose decimal numeral the variable holds: the
    integer itself up to 2^53 in size, the nearest double beyond, as
    9007199254740992 for 2^53 + 1. *)
Theorem getEnvNumber_never_NaN
    (env : Env) (key : string) (fallback n : Z) :
  getEnvNumber env key (Num fallback) <> NaN
  /\ (env key = None -> getEnvNumber env key (Num fallback) = Num fallback)
  /\ (env key = Some "" -> getEnvNumber env key (Num fallback) = Num fallback)
  /\ (env key = Some (Number_toString n) ->
      getEnvNumber env key (Num fallback) = roundToDouble n)
  /\ (env key = Some (Number_toString n) -> (Z.abs n <= 2 ^ 53)%Z ->
      getEnvNumber env key (Num fallback) = Num n)
  /\ (env key = Some "9007199254740993" ->
      getEnvNumber env key (Num fallback) = Num 9007199254740992).
Proof.
  assert (Hread : env key = Some (Number_toString n) ->
                  getEnvNumber env key (Num fallback) = roundToDouble n).
  { unfold getEnvNumber. intros ->. destruct (parse_decimal n) as [-> _].
    pose proof (roundToDouble_not_NaN n).
    destruct (roundToDouble n); [contradiction | reflexivity..]. }
  repeat split.
  - unfold getEnvNumber. destruct (env key) as [v|]; [|discriminate].
    destruct (parseInt10 v); discriminate.
  - unfold getEnvNumber. now intros ->.
  - unfold getEnvNumber. now intros ->.
  - exact Hread.
  - intros He Hn. rewrite (Hread He). now apply roundToDouble_safe.
  - unfold getEnvNumber. intros ->. vm_compute. reflexivity.
Qed.

(** X11.  A viewport written in decimal in the environment is read as the
    Numbers of the two integers: the integers themselves when they are
    up to 2^53 in size. *)
Theorem getBrowserConfig_reads_viewport (env : Env) (w h : Z) :
  env "VIEWPORT_WIDTH" = Some (Number_toString w) ->
  env "VIEWPORT_HEIGHT" = Some (Number_toString h) ->
  viewport (getBrowserConfig env)
  = {| width := roundToDouble w; height := roundToDouble h |}
  /\ ((Z.abs w <= 2 ^ 53)%Z -> (Z.abs h <= 2 ^ 53)%Z ->
      viewport (getBrowserConfig env) = {| width := Num w; height := Num h |}).
Proof.
  intros Hw Hh. unfold getBrowserConfig. cbn [viewport]. rewrite Hw, Hh.
  assert (Hor : forall n d, orElse (Some (Number_toString n)) d
                            = Number_toString n).
  { intros n d. pose proof (Number_toString_nonempty n).
    unfold orElse. now destruct (Number_toString n). }
  rewrite !Hor.
  destruct (parse_decimal w) as [_ ->]. destruct (parse_decimal h) as [_ ->].
  split; [reflexivity|].
  intros Bw Bh. now rewrite !roundToDouble_safe.
Qed.

Lemma getBrowserConfig_reads_viewport_witness :
  viewport
    (getBrowserConfig
       (fun k => if String.eqb k "VIEWPORT_WIDTH" then Some "1280"
                 else if String.eqb k "VIEWPORT_HEIGHT" then Some "720"
                 else None))
  = {| width := Num 1280; height := Num 720 |}.
Proof.
  apply (getBrowserConfig_reads_viewport _ 1280 720);
    try reflexivity; cbn; lia.
Defined.

Lemma prefix_append (p a b : string) :
  String.prefix p a = true -> String.prefix p (a ++ b) = true.
Proof.
  revert a. induction p as [|c p IH]; intros a.
  - intros _. now destruct (a ++ b).
  - destruct a as [|c' a]; cbn; [discriminate|].
    destruct (Ascii.ascii_dec c c'); [apply IH | discriminate].
Qed.

(** X12.  Under a configuration that [validateConfig] accepts, the URL handed
    to the page starts with "http" whatever the argument of
    [navigateToPage]. *)
Theorem fullUrl_starts_with_http (env : Env) (url : string) :
  snd (validateConfig env) = Normal tt ->
  startsWith (BrowserManager.fullUrlOf env url) "http" = true.
Proof.
  intros Hv. unfold BrowserManager.fullUrlOf.
  destruct (startsWith url "http") eqn:Hu; [exact Hu|].
  unfold startsWith. apply prefix_append.
  unfold validateConfig in Hv.
  destruct (negb (includes validBrowsers (browser (getBrowserConfig env))));
    [discriminate Hv|].
  unfold startsWith in Hv.
  destruct (String.prefix "http" (baseURL (getTestConfig env)));
    [reflexivity | discriminate Hv].
Qed.

Lemma fullUrl_starts_with_http_witness :
  startsWith (BrowserManager.fullUrlOf Samples.noEnv "/quote") "http" = true.
Proof.
  apply (fullUrl_starts_with_http Samples.noEnv "/quote"). reflexivity.
Defined.

End Readers.

Section Retry.
Import JS Runtime WaitHelper HelperSpec.
Context {T : Type}.

Lemma repeat_shift (delay : Z) (k : nat) (l : list Z) :
  (repeat delay k ++ delay :: l)%list = delay :: (repeat delay k ++ l)%list.
Proof.
  induction k as [|k IH]; cbn; [reflexivity | now rewrite IH].
Qed.

Lemma attempts_eq (s s' : Attempts T) :
  outcomeOf s = outcomeOf s' -> made s = made s' -> slept s = slept s' ->
  s = s'.
Proof.
  destruct s, s'; cbn; intros; subst; reflexivity.
Qed.

Lemma retryLoop_S (n delay : Z) (r : nat) (i : Z) :
  retryLoop (T := T) n delay (S r) i
  = tryCatch callFn (fun error =>
      if (i =? n - 1)%Z then throw error
      else bind (sleep delay) (fun _ => retryLoop n delay r (i + 1)%Z)).
Proof. reflexivity. Qed.

Lemma retryLoop_succeeds (n delay : Z) (k : nat) :
  forall (r : nat) (i : Z) (s : Attempts T) (v : T),
    k < r -> (i + Z.of_nat r = n)%Z ->
    (forall j, j < k -> exists e, outcomeOf s (made s + j) = Thrown e) ->
    outcomeOf s (made s + k) = Normal v ->
    retryLoop n delay r i s = (Normal v, afterAttempts s (S k) k delay).
Proof.
  induction k as [|k IH]; intros r i s v Hlt Hi Hfail Hok;
    destruct r as [|r]; try lia; rewrite retryLoop_S;
    unfold tryCatch, callFn.
  - rewrite Nat.add_0_r in Hok. rewrite Hok. f_equal.
    apply attempts_eq; cbn; [reflexivity | lia | reflexivity].
  - destruct (Hfail 0 ltac:(lia)) as [e He]. rewrite Nat.add_0_r in He.
    rewrite He.
    destruct (Z.eqb_spec i (n - 1)) as [E|_]; [lia|].
    unfold bind, sleep, modify. cbn [outcomeOf made slept].
    rewrite (IH r (i + 1)%Z _ v); [| lia | lia | |].
    + f_equal. apply attempts_eq; cbn; [reflexivity | lia |].
      apply repeat_shift.
    + intros j Hj. cbn. replace (S (made s + j)) with (made s + S j) by lia.
      apply Hfail. lia.
    + cbn. replace (S (made s + k)) with (made s + S k) by lia. exact Hok.
Qed.

Lemma retryLoop_exhausts (n delay : Z) (r : nat) :
  forall (i : Z) (s : Attempts T) (e : Error),
    (i + Z.of_nat (S r) = n)%Z ->
    (forall j, j < r -> exists e', outcomeOf s (made s + j) = Thrown e') ->
    outcomeOf s (made s + r) = Thrown e ->
    retryLoop n delay (S r) i s = (Thrown e, afterAttempts s (S r) r delay).
Proof.
  induction r as [|r IH]; intros i s e Hi Hfail Hlast;
    rewrite retryLoop_S; unfold tryCatch, callFn.
  - rewrite Nat.add_0_r in Hlast. rewrite Hlast.
    destruct (Z.eqb_spec i (n - 1)) as [_|E]; [|lia].
    unfold throw. f_equal.
    apply attempts_eq; cbn; [reflexivity | lia | reflexivity].
  - destruct (Hfail 0 ltac:(lia)) as [e0 He0]. rewrite Nat.add_0_r in He0.
    rewrite He0.
    destruct (Z.eqb_spec i (n - 1)) as [E|_]; [lia|].
    unfold bind, sleep, modify. cbn [outcomeOf made slept].
    rewrite (IH (i + 1)%Z _ e); [| lia | |].
    + f_equal. apply attempts_eq; cbn; [reflexivity | lia |].
      apply repeat_shift.
    + intros j Hj. cbn. replace (S (made s + j)) with (made s + S j) by lia.
      apply Hfail. lia.
    + cbn. replace (S (made s + r)) with (made s + S r) by lia. exact Hlast.
Qed.

(** X13.  [retryAsync] with [maxRetries] of zero or less throws "This should
    never be reached" without calling [fn].  With [maxRetries] of one or
    more it returns the first success among the first [maxRetries] calls,
    after one sleep per failure before it; and when all of them fail it
    throws the error of the last call, after [maxRetries - 1] sleeps. *)
Theorem retryAsync_outcome (maxRetries delay : Z) (s : Attempts T) :
  ((maxRetries <= 0)%Z ->
   retryAsync maxRetries delay s
   = (Thrown {| message := "This should never be reached" |}, s))
  /\ (forall (k : nat) (v : T),
        (Z.of_nat k < maxRetries)%Z ->
        (forall j, j < k -> exists e, outcomeOf s (made s + j) = Thrown e) ->
        outcomeOf s (made s + k) = Normal v ->
        retryAsync maxRetries delay s
        = (Normal v, afterAttempts s (S k) k delay))
  /\ (forall (r : nat) (e : Error),
        maxRetries = Z.of_nat (S r) ->
        (forall j, j < r -> exists e', outcomeOf s (made s + j) = Thrown e') ->
        outcomeOf s (made s + r) = Thrown e ->
        retryAsync maxRetries delay s
        = (Thrown e, afterAttempts s (S r) r delay)).
Proof.
  unfold retryAsync. repeat split.
  - intros Hle. replace (Z.to_nat maxRetries) with 0 by lia. reflexivity.
  - intros k v Hk Hfail Hok. apply retryLoop_succeeds; try assumption; lia.
  - intros r e -> Hfail Hlast. rewrite Nat2Z.id.
    apply retryLoop_exhausts; try assumption. lia.
Qed.

End Retry.

Section BrowserFailures.
Import JS Runtime BrowserManager HelperSpec.

Ltac run_script :=
  repeat match goal with
         | |- context [match ?scr ?k with Resolves => _ | Rejects _ => _ end] =>
             destruct (scr k) eqn:?; cbn
         end.

(** X14.  [cleanup] ends in one of two ways.  Either every handle is [null],
    [isInitialized] is false and the browser it held, if any, was closed;
    or a call rejected, and then the browser handle and [isInitialized]
    are as before and no browser was closed. *)
Theorem cleanup_all_or_nothing (s : State) :
  (page (self (snd (cleanup s))) = None
   /\ context (self (snd (cleanup s))) = None
   /\ browser (self (snd (cleanup s))) = None
   /\ isInitialized (self (snd (cleanup s))) = false
   /\ history (world (snd (cleanup s)))
      = match browser (self s) with
        | Some b => Closed b :: history (world s)
        | None => history (world s)
        end)
  \/ (browser (self (snd (cleanup s))) = browser (self s)
      /\ isInitialized (self (snd (cleanup s))) = isInitialized (self s)
      /\ history (world (snd (cleanup s))) = history (world s)
      /\ exists n e, script (world s) n = Rejects e).
Proof.
  destruct s as [[b c p cfg ini] [en scr n h hist cons iso]].
  unfold cleanup, tryCatch, bind, gets, await, nextOutcome, when.
  cbn.
  destruct (ConfigManager.recordTrace cfg), c as [cx|], p as [pg|],
    b as [bh|]; cbn; run_script;
    first [ left; repeat split; reflexivity
          | right; repeat split; eauto ].
Qed.

(** X15.  [initializeBrowser] on a manager that is not initialized either
    returns with the manager ready and one browser launched, or throws
    the error of a call that rejected, having logged it, with
    [isInitialized] still false; in that case a browser that was launched
    is kept in the handle and is not closed. *)
Theorem initializeBrowser_outcome (s : State) :
  isInitialized (self s) = false ->
  match initializeBrowser s with
  | (Normal _, s') =>
      isReady (self s') = true
      /\ history (world s')
         = Launched (getBrowserType (self s)) (nextHandle (world s))
           :: history (world s)
  | (Thrown e, s') =>
      isInitialized (self s') = false
      /\ (exists n, script (world s) n = Rejects e)
      /\ nth 0 (console (world s')) ""
         = "Failed to initialize browser:" ++ " " ++ message e
      /\ ((history (world s') = history (world s)
           /\ browser (self s') = browser (self s))
          \/ (history (world s')
              = Launched (getBrowserType (self s)) (nextHandle (world s))
                :: history (world s)
              /\ browser (self s') = Some (nextHandle (world s))))
  end.
Proof.
  intros Hini.
  destruct s as [[b c p cfg ini] [en scr n h hist cons iso]].
  cbn in Hini. subst ini.
  unfold initializeBrowser, createContext, createPage, tryCatch, bind, gets,
    await, nextOutcome, when.
  cbn.
  destruct (scr n) eqn:E0; cbn.
  - destruct (scr (S n)) eqn:E1; cbn.
    + destruct (ConfigManager.recordTrace cfg); cbn; run_script;
        repeat split; eauto.
    + repeat split; eauto.
  - repeat split; eauto.
Qed.

Lemma initializeBrowser_outcome_witness :
  match initializeBrowser contextRefused with
  | (Normal _, s') =>
      isReady (self s') = true
      /\ history (world s')
         = Launched (getBrowserType (self contextRefused))
             (nextHandle (world contextRefused))
           :: history (world contextRefused)
  | (Thrown e, s') =>
      isInitialized (self s') = false
      /\ (exists n, script (world contextRefused) n = Rejects e)
      /\ nth 0 (console (world s')) ""
         = "Failed to initialize browser:" ++ " " ++ message e
      /\ ((history (world s') = history (world contextRefused)
           /\ browser (self s') = browser (self contextRefused))
          \/ (history (world s')
              = Launched (getBrowserType (self contextRefused))
                  (nextHandle (world contextRefused))
                :: history (world contextRefused)
              /\ browser (self s') = Some (nextHandle (world contextRefused))))
  end.
Proof.
  apply (initializeBrowser_outcome contextRefused). reflexivity.
Defined.

(** X16.  When [cleanup] has closed the page and the closing of the context
    rejects, the manager is left initialized with no page, the browser
    still running.  From there [initializeBrowser] returns at once and
    changes nothing, [navigateToPage] throws "Page not initialized.
    Call initializeBrowser() first." for every URL, and the final
    clean-up of [AfterAll] does nothing. *)
Theorem cleanup_failure_leaves_no_page (s : State) (e : Error) (url : string) :
  isInitialized (self s) = true ->
  page (self s) <> None -> context (self s) <> None ->
  (forall j, j <= callsBeforePageClose (self s) ->
             script (world s) (calls (world s) + j) = Resolves) ->
  script (world s) (calls (world s) + S (callsBeforePageClose (self s)))
  = Rejects e ->
  fst (cleanup s) = Normal tt
  /\ isInitialized (self (snd (cleanup s))) = true
  /\ page (self (snd (cleanup s))) = None
  /\ browser (self (snd (cleanup s))) = browser (self s)
  /\ history (world (snd (cleanup s))) = history (world s)
  /\ initializeBrowser (snd (cleanup s)) = (Normal tt, snd (cleanup s))
  /\ fst (navigateToPage url (snd (cleanup s)))
     = Thrown {| message :=
         "Page not initialized. Call initializeBrowser() first." |}
  /\ (forall u,
        HooksAfter.afterAllCleanup
          {| Hooks.browserManager := snd (cleanup s);
             Hooks.currentFeatureUri := u |}
        = (Normal tt, {| Hooks.browserManager := snd (cleanup s);
                         Hooks.currentFeatureUri := u |})).
Proof.
  intros Hini Hp Hc Hres Hrej.
  destruct s as [[b c p cfg ini] [en scr n h hist cons iso]].
  cbn in Hini, Hp, Hc, Hres, Hrej. subst ini.
  destruct p as [pg|]; [|contradiction].
  destruct c as [cx|]; [|contradiction].
  unfold callsBeforePageClose in Hres, Hrej. cbn in Hres, Hrej.
  unfold cleanup, tryCatch, bind, gets, await, nextOutcome, when.
  unfold HooksAfter.afterAllCleanup.
  unfold initializeBrowser, navigateToPage, bind, gets.
  cbn.
  destruct (ConfigManager.recordTrace cfg); cbn in Hres, Hrej |- *.
  - pose proof (Hres 0 ltac:(lia)) as H0. pose proof (Hres 1 ltac:(lia)) as H1.
    rewrite Nat.add_0_r in H0. rewrite Nat.add_1_r in H1.
    replace (n + 2) with (S (S n)) in Hrej by lia.
    rewrite H0. cbn. rewrite H1. cbn. rewrite Hrej. cbn.
    repeat split.
  - pose proof (Hres 0 ltac:(lia)) as H0.
    rewrite Nat.add_0_r in H0. rewrite Nat.add_1_r in Hrej.
    rewrite H0. cbn. rewrite Hrej. cbn.
    repeat split.
Qed.

Lemma cleanup_failure_leaves_no_page_witness :
  fst (cleanup contextCloseRefused) = Normal tt
  /\ isInitialized (self (snd (cleanup contextCloseRefused))) = true
  /\ page (self (snd (cleanup contextCloseRefused))) = None
  /\ browser (self (snd (cleanup contextCloseRefused)))
     = browser (self contextCloseRefused)
  /\ history (world (snd (cleanup contextCloseRefused)))
     = history (world contextCloseRefused)
  /\ initializeBrowser (snd (cleanup contextCloseRefused))
     = (Normal tt, snd (cleanup contextCloseRefused))
  /\ fst (navigateToPage "/quote" (snd (cleanup contextCloseRefused)))
     = Thrown {| message :=
         "Page not initialized. Call initializeBrowser() first." |}
  /\ (forall u,
        HooksAfter.afterAllCleanup
          {| Hooks.browserManager := snd (cleanup contextCloseRefused);
             Hooks.currentFeatureUri := u |}
        = (Normal tt,
           {| Hooks.browserManager := snd (cleanup contextCloseRefused);
              Hooks.currentFeatureUri := u |})).
Proof.
  apply (cleanup_failure_leaves_no_page contextCloseRefused
           Samples.networkError "/quote").
  - reflexivity.
  - discriminate.
  - discriminate.
  - intros j Hj. cbn in Hj. assert (j = 0) by lia. subst j. reflexivity.
  - reflexivity.
Defined.

End BrowserFailures.

Section AfterHooks.
Import JS Runtime Hooks HooksAfter CucumberReport ReportSpec HookSpec NameSpec.

Lemma replaced_char_cases (c : ascii) :
  (isAlphanumeric c = true /\ isNameChar c = true)
  \/ (isAlphanumeric c = false).
Proof.
  unfold isNameChar. destruct (isAlphanumeric c); [left | right]; auto.
Qed.

(** X17.  The name the [After] hook builds from a scenario name keeps the
    length, holds letters, digits and hyphens only, is left as it is by a
    second replacement, and equals the scenario name exactly when that
    holds letters, digits and hyphens only. *)
Theorem replaceNonAlphanumeric_sanitizes (name : string) :
  String.length (replaceNonAlphanumeric name) = String.length name
  /\ forallb isNameChar (list_ascii_of_string (replaceNonAlphanumeric name))
     = true
  /\ replaceNonAlphanumeric (replaceNonAlphanumeric name)
     = replaceNonAlphanumeric name
  /\ (replaceNonAlphanumeric name = name
      <-> forallb isNameChar (list_ascii_of_string name) = true).
Proof.
  induction name as [|c rest (IHlen & IHchars & IHidem & IHfix)].
  - cbn. repeat split; reflexivity.
  - cbn [replaceNonAlphanumeric String.length list_ascii_of_string forallb].
    rewrite IHlen.
    assert (Hhyphen : isAlphanumeric "-" = false) by reflexivity.
    assert (HhyphenName : isNameChar "-" = true) by reflexivity.
    destruct (isAlphanumeric c) eqn:Hc.
    + assert (Hn : isNameChar c = true)
        by (unfold isNameChar; now rewrite Hc).
      rewrite Hc, Hn, IHchars, IHidem. cbn [andb].
      repeat split; try reflexivity.
      * intros H. injection H as H. now apply IHfix.
      * intros H. f_equal. now apply IHfix.
    + rewrite Hhyphen, HhyphenName, IHchars, IHidem. cbn [andb].
      repeat split; try reflexivity.
      * intros H. injection H as H1 H2. subst c.
        rewrite HhyphenName. now apply IHfix.
      * intros H. apply andb_true_iff in H as [H1 H2].
        unfold isNameChar in H1. rewrite Hc in H1. cbn in H1.
        apply Ascii.eqb_eq in H1. subst c. f_equal. now apply IHfix.
Qed.

Lemma afterAllCounts_total (report : list Feature) :
  totalScenarios (afterAllCounts report) = List.length (allScenarios report).
Proof.
  unfold afterAllCounts.
  pose proof (countFeatures_effect report
    {| totalScenarios := 0; passedScenarios := 0; failedScenarios := 0;
       skippedScenarios := 0 |}) as H.
  apply (f_equal total) in H. exact H.
Qed.

Lemma afterAllCounts_failed (report : list Feature) :
  failedScenarios (afterAllCounts report)
  = countVerdict Failed (allScenarios report).
Proof.
  unfold afterAllCounts.
  pose proof (countFeatures_effect report
    {| totalScenarios := 0; passedScenarios := 0; failedScenarios := 0;
       skippedScenarios := 0 |}) as H.
  apply (f_equal failed) in H. exact H.
Qed.

Lemma afterAllCounts_passed (report : list Feature) :
  passedScenarios (afterAllCounts report)
  = countVerdict Passed (allScenarios report).
Proof.
  unfold afterAllCounts.
  pose proof (countFeatures_effect report
    {| totalScenarios := 0; passedScenarios := 0; failedScenarios := 0;
       skippedScenarios := 0 |}) as H.
  apply (f_equal passed) in H. exact H.
Qed.

Lemma countVerdict_all_skipped (es : list Element) :
  Forall (fun e => classify e = Skipped) es ->
  countVerdict Passed es = 0 /\ countVerdict Failed es = 0.
Proof.
  unfold countVerdict.
  induction 1 as [|e es He _ [IHp IHf]]; cbn [filter]; [split; reflexivity|].
  rewrite He. cbn. auto.
Qed.

Ltac settle_result :=
  try match goal with
      | H : Forall _ _ |- _ => apply countVerdict_all_skipped in H
      end;
  repeat match goal with
         | H : _ /\ _ |- _ => destruct H
         end;
  solve [ reflexivity | congruence | lia | discriminate | contradiction ].

(** X18.  The overall result of [AfterAll], by the scenarios of the report.
    Nothing is printed for a report with no scenario; "ALL TESTS PASSED!"
    is printed exactly when there is a scenario and none is failed, so
    also when every scenario is skipped and none passed; the critical
    line is printed exactly when more than half of the scenarios are
    failed. *)
Theorem overallResult_by_scenarios (report : list Feature) :
  (overallResult (afterAllCounts report) = None
   <-> allScenarios report = [])
  /\ (overallResult (afterAllCounts report) = Some "ALL TESTS PASSED!"
      <-> allScenarios report <> []
          /\ countVerdict Failed (allScenarios report) = 0)
  /\ (overallResult (afterAllCounts report)
      = Some "CRITICAL: More than 50% of tests failed!"
      <-> List.length (allScenarios report)
          < 2 * countVerdict Failed (allScenarios report))
  /\ (allScenarios report <> [] ->
      Forall (fun e => classify e = Skipped) (allScenarios report) ->
      overallResult (afterAllCounts report) = Some "ALL TESTS PASSED!"
      /\ passedScenarios (afterAllCounts report) = 0).
Proof.
  unfold overallResult.
  rewrite afterAllCounts_total, afterAllCounts_failed, afterAllCounts_passed.
  pose proof (verdicts_partition (allScenarios report)) as Hpart.
  remember (countVerdict Failed (allScenarios report)) as nf eqn:Enf.
  remember (countVerdict Passed (allScenarios report)) as np eqn:Enp.
  assert (Hlen : List.length (allScenarios report) = 0
                 <-> allScenarios report = [])
    by (destruct (allScenarios report); cbn; split; congruence).
  remember (List.length (allScenarios report)) as n eqn:En.
  destruct (Nat.ltb_spec 0 n) as [Hpos|Hzero].
  - assert (Hne : allScenarios report <> [])
      by (intros E; apply Hlen in E; lia).
    destruct (Nat.eqb_spec nf 0) as [Hf|Hf];
      [| destruct (Nat.ltb_spec n (2 * nf)) as [Hc|Hc]; [| cbn [append]]];
      repeat split; intros; settle_result.
  - assert (Hnil : allScenarios report = []) by (apply Hlen; lia).
    repeat split; intros; settle_result.
Qed.

(** X19.  When every call into the automation library resolves, then after the
    [Before] hooks of any sequence of scenarios the final clean-up of
    [AfterAll] returns and leaves no browser running. *)
Theorem afterAll_leaves_no_browser (w : World) (scenarios : list Scenario) :
  allResolve w -> history w = [] ->
  exists s',
    afterAllCleanup (runBefore scenarios (start w)) = (Normal tt, s')
    /\ live (history (BrowserManager.world (browserManager s'))) = [].
Proof.
  intros Hall Hh.
  pose proof (runBefore_settled scenarios (start w) (start_settled w Hall Hh))
    as Hs.
  remember (runBefore scenarios (start w)) as s eqn:Es. clear Es.
  destruct Hs as (Hres & _ & [(Hini & Hlive & _) | (b & Hready & Hb & Hlive & _)]).
  - exists s. unfold afterAllCleanup, bind, gets, BrowserManager.isReady.
    rewrite Hini. cbn. split; [reflexivity | exact Hlive].
  - unfold afterAllCleanup, bind, gets. rewrite Hready. unfold when.
    destruct s as [bm u]. cbn in Hres, Hready, Hb, Hlive.
    set (bm1 := snd (BrowserManager.log " Final browser cleanup..." bm)).
    destruct (cleanup_closes bm1 b) as (bm2 & Hc & _ & Hhist & _).
    + exact Hres.
    + exact Hb.
    + unfold call. cbn [browserManager currentFeatureUri].
      change (BrowserManager.log " Final browser cleanup..." bm)
        with (Normal tt, bm1).
      cbn [browserManager currentFeatureUri]. rewrite Hc.
      cbn [browserManager currentFeatureUri].
      eexists. split; [reflexivity|].
      cbn. rewrite Hhist. cbn [live]. 
      change (history (BrowserManager.world bm1))
        with (history (BrowserManager.world bm)).
      rewrite Hlive. apply remove_only.
Qed.

Lemma afterAll_leaves_no_browser_witness :
  exists s',
    afterAllCleanup
      (runBefore [Samples.scenarioOf "features/a.feature";
                  Samples.scenarioOf "features/b.feature"]
         (start (Samples.worldFailingAt [] Samples.networkError)))
    = (Normal tt, s')
    /\ live (history (BrowserManager.world (browserManager s'))) = [].
Proof.
  apply (afterAll_leaves_no_browser
           (Samples.worldFailingAt [] Samples.networkError)).
  - intros n. reflexivity.
  - reflexivity.
Defined.

End AfterHooks.

Section SuccessRate.
Import JS CucumberReport ReportSpec HelperSpec.

Lemma divide_self (a : Z) :
  (0 < a)%Z -> divide a a = ((2 ^ 52)%Z, (-52)%Z).
Proof.
  intros Ha. unfold divide.
  destruct (Z.eqb_spec a 0) as [E|_]; [lia|].
  unfold roundNearestEven. rewrite Z.sub_diag. cbv zeta.
  change (Z.max (- (0 - 52)) 0) with 52%Z.
  change (Z.max (0 - 52) 0) with 0%Z.
  change (2 ^ 0)%Z with 1%Z. rewrite Z.mul_1_r.
  assert (Hq : (a * 2 ^ 52 / a = 2 ^ 52)%Z)
    by (rewrite Z.mul_comm; apply Z.div_mul; lia).
  assert (Hr : ((a * 2 ^ 52) mod a = 0)%Z)
    by (rewrite Z.mul_comm; apply Z.mod_mul; lia).
  rewrite Hq, Z.leb_refl. cbv iota.
  change (Z.max (- (0 - 52)) 0) with 52%Z.
  change (Z.max (0 - 52) 0) with 0%Z.
  change (2 ^ 0)%Z with 1%Z. rewrite Z.mul_1_r, Hq, Hr.
  destruct (Z.ltb_spec a (2 * 0)) as [H|_]; [lia|].
  destruct (Z.eqb_spec a (2 * 0)) as [H|_]; [lia|].
  reflexivity.
Qed.

Lemma percentage_all (n : nat) : 0 < n -> percentage n n = "100.00".
Proof.
  intros Hn. unfold percentage. rewrite divide_self by lia.
  vm_compute. reflexivity.
Qed.

Lemma calculateSummary_successRate (report : list Feature) :
  successRate (calculateSummary report)
  = match List.length (allScenarios report) with
    | O => "0.00"
    | S _ => percentage (countVerdict Passed (allScenarios report))
               (List.length (allScenarios report))
    end.
Proof.
  destruct (featureLoop_effect report initialVars) as (_ & H2 & H3).
  unfold calculateSummary. cbn [successRate]. rewrite H2, H3.
  cbn [initialVars summary initialSummary scenarios successRate].
  unfold addScenarios. cbn [total passed Nat.add].
  destruct (List.length (allScenarios report)) as [|n]; reflexivity.
Qed.

(** X20.  The success rate of a summary is "0.00" when no scenario passed, and
    "100.00" when there is a scenario and all of them passed: the
    quotient and the product in doubles lose nothing there.  The converse
    of the second fails: with one failed scenario among 20001 the rate is
    written "100.00" as well. *)
Theorem successRate_extremes (report : list Feature) :
  (countVerdict Passed (allScenarios report) = 0 ->
   successRate (calculateSummary report) = "0.00")
  /\ (allScenarios report <> [] ->
      countVerdict Passed (allScenarios report)
      = List.length (allScenarios report) ->
      successRate (calculateSummary report) = "100.00")
  /\ (countVerdict Failed (allScenarios (oneFailedAmong (20 * 1000))) = 1
      /\ successRate (calculateSummary (oneFailedAmong (20 * 1000))) = "100.00").
Proof.
  rewrite calculateSummary_successRate.
  split; [|split].
  - intros H0. rewrite H0.
    destruct (List.length (allScenarios report)); reflexivity.
  - intros Hne Hall. rewrite Hall.
    destruct (allScenarios report) as [|e es]; [contradiction|].
    cbn [List.length]. apply percentage_all. lia.
  - split; vm_compute; reflexivity.
Qed.

End SuccessRate.
